(** * The categorisation and aggregation pipeline of the dashboard

    A shallow embedding of the pure functions of [src/App.js] that turn
    survey rows into chart data: the flag aggregations, the three free-text
    classifiers with their taxonomy tables, and the percentage
    normalisation.

    Conventions of the embedding:
    - a JavaScript value is a [JsVal]; a row of the data set is a finite map
      from column names to values, a column that is not there reads as
      [JUndefined];
    - a JavaScript number is a rational ([Q]); counts are whole numbers,
      and exact. The percentage charts are embedded twice:
      [calculateProblemsData] and the like compute a share as the exact
      quotient, and the properties of the order, the range and the
      categories of a chart are stated about them;
      [calculateProblemsDataDouble] and the like round every operation to
      the nearest IEEE double ([roundDouble]), and the sums of the charts
      are proved about these;
    - a string is the sequence of the bytes of its UTF-8 encoding.
      [toLowerCase] maps the ASCII capitals and leaves every other byte
      alone, [trim] removes the ASCII white space: this is what the
      JavaScript functions do on ASCII and Devanagari text, the alphabets
      of the keywords and of the survey;
    - a call that throws (a method called on [null], [undefined] or on a
      value that has no such method) yields [Throw TypeError];
    - an object used as a table of counts is an association list in
      insertion order, the order in which [Object.keys], [Object.values]
      and [Object.entries] enumerate it;
    - the second half of the file adds the volume card, the ward filter
      and the selection of a row, and the tooltip of a marker; where a
      number is turned into text ([String(v)], a template literal) its
      digits are left to a parameter [showNum], and the moves of the map
      are left out. *)

From Stdlib Require Import QArith Qabs Qpower Lqa Lia Ascii String Sorted.
From stdpp Require Import base strings list gmap sorting.

Close Scope Q_scope.
Open Scope string_scope.

(** ** JavaScript values *)

Inductive JsVal : Type :=
  | JUndefined
  | JNull
  | JBool (b : bool)
  | JNum (q : Q)
  | JStr (s : string).

Inductive JsError : Type := TypeError.

Inductive result (A : Type) : Type :=
  | Ok (a : A)
  | Throw (e : JsError).
Arguments Ok {A} a.
Arguments Throw {A} e.

Definition bind {A B : Type} (r : result A) (k : A -> result B) : result B :=
  match r with
  | Ok a => k a
  | Throw e => Throw e
  end.

Notation "'let*' x ':=' r 'in' k" := (bind r (fun x => k))
  (at level 10, x name, r at level 100, k at level 200).

(** [forEach] over an array with a body that may throw. *)
Fixpoint forEach {A S : Type} (body : S -> A -> result S) (xs : list A) (s : S)
  : result S :=
  match xs with
  | [] => Ok s
  | x :: xs' => let* s' := body s x in forEach body xs' s'
  end.

(** Truthiness: [undefined], [null], [false], [0] and [""] are falsy. *)
Definition truthy (v : JsVal) : bool :=
  match v with
  | JUndefined | JNull => false
  | JBool b => b
  | JNum q => negb (Qeq_bool q 0)
  | JStr s => negb (String.eqb s "")
  end.

(** [a || b]. *)
Definition js_or (a b : JsVal) : JsVal := if truthy a then a else b.

(** [v === 1] and [v === true]: strict equality never converts. *)
Definition is_one (v : JsVal) : bool :=
  match v with
  | JNum q => Qeq_bool q 1
  | _ => false
  end.

Definition is_true (v : JsVal) : bool :=
  match v with
  | JBool b => b
  | _ => false
  end.

(** [v !== lit] for a string literal [lit]. *)
Definition differs (v : JsVal) (lit : string) : bool :=
  match v with
  | JStr s => negb (String.eqb s lit)
  | _ => true
  end.

(** ** Strings *)

Definition lower_ascii (c : ascii) : ascii :=
  let n := nat_of_ascii c in
  if (65 <=? n)%nat && (n <=? 90)%nat then ascii_of_nat (n + 32) else c.

Fixpoint toLowerCase (s : string) : string :=
  match s with
  | EmptyString => EmptyString
  | String c s' => String (lower_ascii c) (toLowerCase s')
  end.

Definition is_space (c : ascii) : bool :=
  let n := nat_of_ascii c in
  ((9 <=? n)%nat && (n <=? 13)%nat) || (n =? 32)%nat.

Fixpoint trimStart (s : string) : string :=
  match s with
  | EmptyString => EmptyString
  | String c s' => if is_space c then trimStart s' else s
  end.

Fixpoint trimEnd (s : string) : string :=
  match s with
  | EmptyString => EmptyString
  | String c s' =>
      match trimEnd s' with
      | EmptyString => if is_space c then EmptyString else String c EmptyString
      | t => String c t
      end
  end.

Definition trim (s : string) : string := trimEnd (trimStart s).

(** [s.toLowerCase().trim()], the text the classifiers search. *)
Definition lowerTrim (s : string) : string := trim (toLowerCase s).

Fixpoint startsWith (k s : string) : bool :=
  match k, s with
  | EmptyString, _ => true
  | String _ _, EmptyString => false
  | String a k', String b s' => Ascii.eqb a b && startsWith k' s'
  end.

(** [s.includes(k)]: [k] occurs in [s] as a contiguous run. *)
Fixpoint includes (s k : string) : bool :=
  startsWith k s ||
  match s with
  | EmptyString => false
  | String _ s' => includes s' k
  end.

(** A method of [String.prototype] called on a value: only a string has
    it; on [null] and [undefined] the property read throws, on a number or
    a boolean the call of the missing method throws. *)
Definition str_method {A : Type} (f : string -> A) (v : JsVal) : result A :=
  match v with
  | JStr s => Ok (f s)
  | _ => Throw TypeError
  end.

(** ** Rows and tables of counts *)

Definition get (row : gmap string JsVal) (column : string) : JsVal :=
  default JUndefined (row !! column).

Record Entry : Type := mkEntry { name : string; value : Q }.

Fixpoint lookupCount (counts : list (string * nat)) (key : string) : option nat :=
  match counts with
  | [] => None
  | (k, n) :: rest => if String.eqb k key then Some n else lookupCount rest key
  end.

(** [counts[key] += 1] on a key the object already has: the value changes
    in place and the order of the keys stays. *)
Fixpoint incr (key : string) (counts : list (string * nat)) : list (string * nat) :=
  match counts with
  | [] => []
  | (k, n) :: rest =>
      if String.eqb k key then (k, S n) :: rest else (k, n) :: incr key rest
  end.

(** [counts[key] = n]: a new key goes to the end. *)
Fixpoint assign (key : string) (n : nat) (counts : list (string * nat))
  : list (string * nat) :=
  match counts with
  | [] => [(key, n)]
  | (k, m) :: rest =>
      if String.eqb k key then (k, n) :: rest else (k, m) :: assign key n rest
  end.

(** [counts[key] = (counts[key] || 0) + 1]: a new key goes to the end. *)
Fixpoint bump (key : string) (counts : list (string * nat)) : list (string * nat) :=
  match counts with
  | [] => [(key, 1%nat)]
  | (k, n) :: rest =>
      if String.eqb k key then (k, S n) :: rest else (k, n) :: bump key rest
  end.

(** [Object.values(counts).reduce((sum, count) => sum + count, 0)]. *)
Definition totalCount (counts : list (string * nat)) : nat :=
  foldl (fun sum count => (sum + count)%nat) 0%nat (counts.*2).

Definition num (n : nat) : Q := inject_Z (Z.of_nat n).

(** [totalCount > 0 ? (count / totalCount) * 100 : 0]. *)
Definition percent (count total : nat) : Q :=
  if (0 <? total)%nat then (num count / num total * 100)%Q else 0%Q.

(** [.sort((a, b) => b.value - a.value)]: the sort of an array is stable,
    so an element stays ahead of the later ones of the same value. *)
Fixpoint insertDesc (x : Entry) (sorted : list Entry) : list Entry :=
  match sorted with
  | [] => [x]
  | y :: rest =>
      if Qle_bool (value y) (value x) then x :: y :: rest
      else y :: insertDesc x rest
  end.

Fixpoint sortDesc (xs : list Entry) : list Entry :=
  match xs with
  | [] => []
  | x :: rest => insertDesc x (sortDesc rest)
  end.

(** The normalised chart data of a table of counts, before sorting. *)
Definition shares (counts : list (string * nat)) : list Entry :=
  let total := totalCount counts in
  map (fun '(k, count) => mkEntry k (percent count total)) counts.

(** ** Flag aggregations *)

Definition wasteTypeToColumnMap : list (string * string) :=
  [ ("Organic & Wet", "Organic and Wet Waste");
    ("Plastic Paper", "Plastic Paper Glass Waste");
    ("Sanitary & Hazardous", "Sanitary and Hazardous Waste");
    ("Battery & Bulb", "Battery and Bulb Waste");
    ("Construction & Demolition", "Construction and Demolition Waste");
    ("Clothes", "Clothes Waste");
    ("Carcasses", "Carcasses Waste");
    ("Others", "Others") ].

(** The object [counts] of [calculateWasteTypeCounts] after the scan. *)
Definition wasteTypeCount (data : list (gmap string JsVal)) : list (string * nat) :=
  let counts0 := map (fun '(type, _) => (type, 0%nat)) wasteTypeToColumnMap in
  foldl (fun counts row =>
           foldl (fun counts '(type, column) =>
                    if is_one (get row column) then incr type counts else counts)
                 counts wasteTypeToColumnMap)
        counts0 data.

Definition calculateWasteTypeCounts (data : list (gmap string JsVal)) : list Entry :=
  map (fun '(key, count) => mkEntry key (num count))
      (List.filter (fun kc => (0 <? kc.2)%nat) (wasteTypeCount data)).

Definition calculatePieForRow (row : gmap string JsVal) : list Entry :=
  map (fun '(type, _) => mkEntry type 1%Q)
      (List.filter (fun tc => is_one (get row tc.2)) wasteTypeToColumnMap).

(** The scan shared by the problems and the reasons charts: for every row
    and every key of the table, one more when the flag test holds. *)
Definition scanFlags (test : JsVal -> bool) (counts0 : list (string * nat))
    (data : list (gmap string JsVal)) : list (string * nat) :=
  foldl (fun counts row =>
           foldl (fun counts key =>
                    if test (get row key) then incr key counts else counts)
                 counts (counts.*1))
        counts0 data.

Definition problemsCount0 : list (string * nat) :=
  [ ("Bad Odour", 0); ("Mosquitos", 0); ("Stray Animals", 0);
    ("Congestion", 0); ("Other", 0) ]%nat.

Definition problemsCount (data : list (gmap string JsVal)) : list (string * nat) :=
  scanFlags is_one problemsCount0 data.

Definition calculateProblemsData (data : list (gmap string JsVal)) : list Entry :=
  sortDesc (shares (problemsCount data)).

Definition reasonsCount0 : list (string * nat) :=
  [ ("No Regular Collection Vehicle", 0); ("Random People Throwing Garbage", 0);
    ("Due To User Fee", 0); ("Mismatch of Vehicle Time", 0);
    ("Due to Narrow Road", 0); ("Because of Market and Street Vendors", 0) ]%nat.

Definition reasonsCount (data : list (gmap string JsVal)) : list (string * nat) :=
  scanFlags (fun v => is_one v || is_true v) reasonsCount0 data.

Definition calculateReasonsData (data : list (gmap string JsVal)) : list Entry :=
  sortDesc (shares (reasonsCount data)).

(** ** Taxonomy tables and classifiers *)

Record TaxonomyEntry : Type := entry { category : string; keywords : list string }.

Definition TaxonomyTable : Type := list TaxonomyEntry.

(** [keywords.some(hit)]. *)
Definition hits (hit : string -> bool) (e : TaxonomyEntry) : bool :=
  existsb hit (keywords e).

(** The loop of the three classifiers:
    [for (const { category, keywords } of table)
       if (keywords.some(hit)) return category;]
    [None] when the loop runs to its end. *)
Fixpoint firstMatch (hit : string -> bool) (table : TaxonomyTable) : option string :=
  match table with
  | [] => None
  | e :: rest => if hits hit e then Some (category e) else firstMatch hit rest
  end.

(** The tests of the three loops: [lowerText.includes(k.toLowerCase())] in
    [categorize] and [categorizeSolution], [lowerText.includes(k)] in
    [categorizeLocation]. *)
Definition includesLower (lowerText k : string) : bool :=
  includes lowerText (toLowerCase k).

Definition categoryMap : TaxonomyTable :=
  [ entry "Nearby Households"
        [ "nearby household"; "house hol"; "households"; "colony people";
           "banglow wale log"; "जवळ पास"; "सोसायटी" ];
    entry "Vendors / Small Stalls"
        [ "vendor"; "stall"; "shop"; "chai wale"; "market wale";
           "street vendor" ];
    entry "People from Outside"
        [ "outside"; "बाहेरून"; "पर्यटक"; "outsider"; "visitor" ];
    entry "Passing Crowd / Vehicle People"
        [ "गाडी"; "जाण्या येणाऱ्या"; "ऑटो"; "vehicle"; "passing" ];
    entry "Households and Vendors Mixed"
        [ "households , people from outside , street vendors";
           "vendor and households"; "people and households"; "mixed" ];
    entry "Construction Waste"
        [ "construction"; "repair"; "काम"; "बांधकाम" ];
    entry "Showrooms / Commercial Establishments"
        [ "showroom"; "commercial" ];
    entry "Public Parks / Institutions"
        [ "उद्यान"; "park"; "public area"; "lake"; "ambazari" ];
    entry "Citizens / General Public"
        [ "citizens"; "people"; "public" ];
    entry "Unknown / Not Mentioned"
        [ "unknown"; "माहित नाही"; "n"; "all"; "dont know" ];
    entry "Nearby + Outside Combined"
        [ "nearby households and people from outside";
           "जवळ पास लोकांनी टाकतात आणि बाहेरून येणारे पण" ];
    entry "Market / Vendor Community"
        [ "market"; "vendors"; "stall" ] ].

Definition locationMap : TaxonomyTable :=
  [ entry "Residential Area"
        [ "residential"; "colony"; "house"; "society" ];
    entry "Nallah / Drain"
        [ "nallah"; "drain" ];
    entry "Market / Commercial Area"
        [ "market_place"; "market"; "bazaar"; "shop" ];
    entry "Playground / Open Space"
        [ "playground"; "ground"; "sports"; "field" ];
    entry "School / Institution"
        [ "school"; "college"; "institution" ];
    entry "Open Plot / Vacant Land"
        [ "open_plot"; "vacant"; "empty plot" ];
    entry "Roadside / Footpath / Public Path"
        [ "road"; "roadside"; "road side"; "footpath"; "corner"; "square";
           "front side"; "temple"; "collector office"; "near sadar"; "sem" ];
    entry "Water Body / Lake Area"
        [ "lake"; "water"; "pond"; "नदी"; "लेक" ];
    entry "Other / Miscellaneous"
        [ "other"; "unknown"; "misc" ] ].

Definition solutionCategories : TaxonomyTable :=
  [ entry "Bins and Facilites"
        [ "Dust bin at Roadside"; "Should Punishment Fee"; "More Bins";
           "Bins"; "More bins"; "More Bins Awareness Among People";
           "Dustbins"; "Add a board "; "Say to Use Of Dustbin";
           "Add Dustbin"; " Bins Too"; " Dustbins and Strictly Fine";
           "Bins and Facilities and strict fines"; "Increasing of Dustbin" ];
    entry "Technology-Enabled Monitoring"
        [ "Fine and Surveillance Camera at that Place";
           "Surveillance Camera at that Place"; "install camera on street.";
           "Should Camera Surveillance" ];
    entry "Strict Enforcement Measures "
        [ "Strict Fines"; "strictly fine for people"; "Strictly Fine";
           "strict fines"; "and strictly fine for people" ];
    entry "Public Awareness & Education "
        [ "Awareness Program"; "Awareness Among People";
           "More Bins Awareness Among People" ];
    entry "Sanitization Vehicle Roster"
        [ "Should Regular Visit of Cleaner Vans" ];
    entry "Regulatory & Administrative Support"
        [ "the NMC vehicle should collect this garbage from here ." ];
    entry "Efficient Waste Collection System"
        [ "Proper schedule for collection vehicle";
           "The Place Need to be get cleaned from the road side on daily basis." ];
    entry "Neutral Feedback"
        [ "Nothing" ] ].

Definition categorize (text : JsVal) : result string :=
  let* lowerText := str_method lowerTrim text in
  Ok (default "Unknown / Not Mentioned"
        (firstMatch (includesLower lowerText) categoryMap)).

Definition categorizeLocation (text : JsVal) : result string :=
  let* lowerText := str_method lowerTrim (js_or text (JStr "")) in
  Ok (default "Other / Miscellaneous"
        (firstMatch (includes lowerText) locationMap)).

(** [None] is the [null] of the source. *)
Definition categorizeSolution (text : JsVal) : result (option string) :=
  let* lowerText := str_method lowerTrim (js_or text (JStr "")) in
  Ok (firstMatch (includesLower lowerText) solutionCategories).

(** ** Free-text aggregations *)

Definition disposeCount (data : list (gmap string JsVal))
  : result (list (string * nat)) :=
  forEach (fun counts row =>
             let disposeValue := js_or (get row "Who Dispose") (JStr "") in
             let* category := categorize disposeValue in
             Ok (bump category counts))
          data [].

Definition calculateWhoDisposeData (data : list (gmap string JsVal))
  : result (list Entry) :=
  let* counts := disposeCount data in
  Ok (take 5 (sortDesc (shares counts))).

Definition settingCount (data : list (gmap string JsVal))
  : result (list (string * nat)) :=
  forEach (fun counts row =>
             let settingValue :=
               js_or (js_or (js_or (get row "In_what_setting_is_the_GVP_pre")
                                   (get row "Location Type"))
                            (get row "other"))
                     (JStr "") in
             let* category := categorizeLocation settingValue in
             Ok (bump category counts))
          data [].

Definition calculateSettingData (data : list (gmap string JsVal))
  : result (list Entry) :=
  let* counts := settingCount data in
  Ok (take 5 (sortDesc (shares counts))).

Definition solutionColumns : list string :=
  [ "Solution Suggested by Interviewee1";
    "Solution Suggested by Interviewee2";
    "Solution Suggested by Interviewee3" ].

(** The body of [columns.forEach] in [calculateSolutionData]: the guard
    [solutionValue && solutionValue.trim() !== "" && solutionValue !== "N/A"],
    then the classifier, then the count of a recognised category. *)
Definition solutionColumn (row : gmap string JsVal)
    (counts : list (string * nat)) (col : string) : result (list (string * nat)) :=
  let solutionValue := get row col in
  if truthy solutionValue then
    let* trimmed := str_method trim solutionValue in
    if negb (String.eqb trimmed "") && differs solutionValue "N/A" then
      let* category := categorizeSolution solutionValue in
      match category with
      | Some c => Ok (bump c counts)
      | None => Ok counts
      end
    else Ok counts
  else Ok counts.

Definition solutionCount0 : list (string * nat) :=
  foldl (fun acc e => assign (category e) 0%nat acc) [] solutionCategories.

Definition solutionCount (data : list (gmap string JsVal))
  : result (list (string * nat)) :=
  forEach (fun counts row => forEach (solutionColumn row) solutionColumns counts)
          data solutionCount0.

Definition calculateSolutionData (data : list (gmap string JsVal))
  : result (list Entry) :=
  let* allData := solutionCount data in
  let total := totalCount allData in
  if (total =? 0)%nat then
    Ok (map (fun e => mkEntry (category e) (100 / 8)%Q) solutionCategories)
  else
    Ok (sortDesc (map (fun '(k, count) => mkEntry k (percent count total)) allData)).

(** ** The charts in the arithmetic of doubles *)

(** The nearest integer to a rational, a tie going to the even one. *)
Definition roundHalfEven (x : Q) : Z :=
  let n := Qnum x in
  let d := Zpos (Qden x) in
  let q := (n / d)%Z in
  let r := (n mod d)%Z in
  if (2 * r <? d)%Z then q
  else if (d <? 2 * r)%Z then (q + 1)%Z
  else if Z.even q then q else (q + 1)%Z.

(** The double nearest to a positive rational: the exponent [e] is the one
    that puts [x / 2 ^ e] between [2 ^ 52] and [2 ^ 53], and the 53 bits of
    the significand are [x / 2 ^ e] rounded to the nearest integer, ties to
    even. The exponent is not bounded here: the numbers of the charts are
    0 or lie between [2 ^ -40] and 200, far from the subnormal doubles and
    from overflow. *)
Definition roundPos (x : Q) : Q :=
  let e0 := (Z.log2 (Qnum x) - Z.log2 (Zpos (Qden x)) - 53)%Z in
  let e := if Qle_bool (2 ^ 53) (x / 2 ^ e0)%Q then (e0 + 1)%Z else e0 in
  (inject_Z (roundHalfEven (x / 2 ^ e)) * 2 ^ e)%Q.

(** The result of an arithmetic operation of JavaScript whose exact result
    is [x]: the nearest double. *)
Definition roundDouble (x : Q) : Q :=
  if (Qnum x =? 0)%Z then 0%Q
  else if (Qnum x <? 0)%Z then (- roundPos (- x))%Q
  else roundPos x.

(** [totalCount > 0 ? (count / totalCount) * 100 : 0] as it is computed:
    the quotient is rounded, and then the product. The counts are whole
    numbers below [2 ^ 53] (an array has fewer than [2 ^ 32] rows), which
    are doubles as they are. *)
Definition percentDouble (count total : nat) : Q :=
  if (0 <? total)%nat
  then roundDouble (roundDouble (num count / num total) * 100)
  else 0%Q.

Definition sharesDouble (counts : list (string * nat)) : list Entry :=
  let total := totalCount counts in
  map (fun '(k, count) => mkEntry k (percentDouble count total)) counts.

(** The five percentage charts with the values the machine computes. The
    counts, the order of the keys and the sort are those of the charts
    above; [b.value - a.value] has the sign of the exact difference. *)
Definition calculateProblemsDataDouble (data : list (gmap string JsVal))
  : list Entry :=
  sortDesc (sharesDouble (problemsCount data)).

Definition calculateReasonsDataDouble (data : list (gmap string JsVal))
  : list Entry :=
  sortDesc (sharesDouble (reasonsCount data)).

Definition calculateWhoDisposeDataDouble (data : list (gmap string JsVal))
  : result (list Entry) :=
  let* counts := disposeCount data in
  Ok (take 5 (sortDesc (sharesDouble counts))).

Definition calculateSettingDataDouble (data : list (gmap string JsVal))
  : result (list Entry) :=
  let* counts := settingCount data in
  Ok (take 5 (sortDesc (sharesDouble counts))).

Definition calculateSolutionDataDouble (data : list (gmap string JsVal))
  : result (list Entry) :=
  let* allData := solutionCount data in
  let total := totalCount allData in
  if (total =? 0)%nat then
    Ok (map (fun e => mkEntry (category e) (roundDouble (100 / 8))) solutionCategories)
  else
    Ok (sortDesc (map (fun '(k, count) => mkEntry k (percentDouble count total))
                      allData)).

(** ** Notions of the specification *)

(** The sum of the values of a distribution. *)
Definition sumValues (d : list Entry) : Q :=
  foldr (fun e acc => (value e + acc)%Q) 0%Q d.

(** The sum as a program computes it,
    [d.reduce((sum, e) => sum + e.value, 0)]: every addition is rounded. *)
Definition sumDouble (d : list Entry) : Q :=
  foldl (fun sum e => roundDouble (sum + value e)) 0%Q d.

(** The floating-point tolerance of the sum-to-100 invariant: [1e-9],
    relative to 100. *)
Definition tolerance : Q := (1 # 1000000000)%Q.

Definition within_tolerance (s : Q) : Prop :=
  (Qabs (s - 100) <= tolerance * 100)%Q.

(** A distribution sums to 100 within the tolerance, whether its values
    are added exactly or one rounded addition after the other. *)
Definition sumsTo100 (d : list Entry) : Prop :=
  within_tolerance (sumValues d) /\ within_tolerance (sumDouble d).

(** A distribution sums to no more than 100, within the tolerance. *)
Definition sumsToAtMost100 (d : list Entry) : Prop :=
  (sumValues d <= 100 + tolerance * 100)%Q /\
  (sumDouble d <= 100 + tolerance * 100)%Q.

(** The uniform fallback: at least one category, and each with the equal
    share of 100. *)
Definition isUniformFallback (d : list Entry) : Prop :=
  d <> [] /\ Forall (fun e => (value e == 100 / num (length d))%Q) d.

(** A column value that is a text, not empty and not the placeholder "N/A"
    once trimmed. *)
Definition eligible (v : JsVal) : bool :=
  match v with
  | JStr s => negb (String.eqb (trim s) "") && negb (String.eqb (trim s) "N/A")
  | _ => false
  end.

(** The category, if any, that [categorizeSolution] finds for a value. *)
Definition recognised (v : JsVal) : option string :=
  match categorizeSolution v with
  | Ok (Some c) => Some c
  | _ => None
  end.

(** The categories a row adds one to, column after column. *)
Definition contribution (row : gmap string JsVal) : list string :=
  omap (fun col => if eligible (get row col) then recognised (get row col) else None)
       solutionColumns.

(** A value on which the guard of the solutions scan does not throw: a
    text, or a falsy value. *)
Definition textOrFalsy (v : JsVal) : bool :=
  match v with
  | JStr _ => true
  | _ => negb (truthy v)
  end.

(** ** Sample rows *)

Definition disposer (who : string) : gmap string JsVal :=
  {[ "Who Dispose" := JStr who ]}.

Definition sixDisposers : list (gmap string JsVal) :=
  [ disposer "shop"; disposer "visitor"; disposer "vehicle";
    disposer "mixed"; disposer "repair"; disposer "showroom" ].

Definition threeDisposers : list (gmap string JsVal) :=
  [ disposer "shop"; disposer "visitor"; disposer "vehicle" ].

Definition moreBinsRow : gmap string JsVal :=
  {[ "Solution Suggested by Interviewee1" := JStr "More Bins";
     "Solution Suggested by Interviewee2" := JStr "N/A";
     "Solution Suggested by Interviewee3" := JStr "" ]}.

Definition plantTreesRow : gmap string JsVal :=
  {[ "Solution Suggested by Interviewee1" := JStr "Plant more trees" ]}.

Definition twoTrueFlagsRow : gmap string JsVal :=
  {[ "Clothes Waste" := JBool true; "Others" := JBool true ]}.

Definition twoOneFlagsRow : gmap string JsVal :=
  {[ "Clothes Waste" := JNum 1; "Others" := JNum 1 ]}.

Definition othersRow : gmap string JsVal := {[ "Others" := JNum 1 ]}.

Definition odourRow : gmap string JsVal := {[ "Bad Odour" := JNum 1 ]}.

Definition mosquitoRow : gmap string JsVal := {[ "Mosquitos" := JNum 1 ]}.

Definition nineAndTwo : list (gmap string JsVal) :=
  (replicate 9 odourRow ++ replicate 2 mosquitoRow)%list.

Definition narrowRoadRow : gmap string JsVal := {[ "Due to Narrow Road" := JBool true ]}.

Definition marketRow : gmap string JsVal := {[ "Location Type" := JStr "Market" ]}.

Definition gvpRow13 : gmap string JsVal :=
  {[ "Type_of_Form" := JStr "form_for_gvp"; "GVP Ward" := JStr "13";
     "Approx Waste Quantity Found at GVP" := JStr "above_1_tonne" ]}.

(** ** The volume card *)

(** The [switch] of [getWasteWeight] compares with [===]: only the four
    labels, as strings, have a weight. *)
Definition getWasteWeight (quantity : JsVal) : Q :=
  match quantity with
  | JStr s =>
      if String.eqb s "below_500_kg" then 3.5%Q
      else if String.eqb s "some_100_kg" then 1%Q
      else if String.eqb s "_500kg_1_tonne" then 7.5%Q
      else if String.eqb s "above_1_tonne" then 10%Q
      else 0%Q
  | _ => 0%Q
  end.

Definition totalHathGadiVolume (rows : list (gmap string JsVal)) : Q :=
  foldl (fun sum row =>
           let quantity := get row "Approx Waste Quantity Found at GVP" in
           let weight := getWasteWeight quantity in
           (sum + weight)%Q)
        0%Q rows.

(** ** Ward filter, table rows and selection *)

(** [String(v)] and the text a template literal puts for [v]. The digits of
    a number are left to [showNum]. *)
Definition jsString (showNum : Q -> string) (v : JsVal) : string :=
  match v with
  | JUndefined => "undefined"
  | JNull => "null"
  | JBool true => "true"
  | JBool false => "false"
  | JNum q => showNum q
  | JStr s => s
  end.

(** [v === lit] for a string literal [lit]. *)
Definition is_text (v : JsVal) (lit : string) : bool :=
  match v with
  | JStr s => String.eqb s lit
  | _ => false
  end.

(** [list.includes(s)] on an array of strings. *)
Definition includesStr (list : list string) (s : string) : bool :=
  existsb (String.eqb s) list.

Definition filteredData (showNum : Q -> string) (selectedWards : list string)
    (allData : list (gmap string JsVal)) : list (gmap string JsVal) :=
  List.filter
    (fun row =>
       (length selectedWards =? 0)%nat
       || includesStr selectedWards (jsString showNum (get row "GVP Ward")))
    allData.

Definition filteredTableData (filtered : list (gmap string JsVal))
  : list (gmap string JsVal) :=
  List.filter (fun row => is_text (get row "Type_of_Form") "form_for_gvp") filtered.

(** [selectedRowIndex !== null ? filteredTableData[selectedRowIndex] : null]:
    [None] stands for [null] and for the [undefined] of an index past the
    end; a row is an object, and truthy. *)
Definition selectedRow (selectedRowIndex : option nat)
    (table : list (gmap string JsVal)) : option (gmap string JsVal) :=
  match selectedRowIndex with
  | Some i => table !! i
  | None => None
  end.

Definition filteredDataForCards (selectedRowIndex : option nat)
    (table : list (gmap string JsVal)) : list (gmap string JsVal) :=
  match selectedRow selectedRowIndex table with
  | Some row => [row]
  | None => table
  end.

Definition pieData (selectedRowIndex : option nat)
    (table : list (gmap string JsVal)) : list Entry :=
  match selectedRow selectedRowIndex table with
  | Some row => calculatePieForRow row
  | None => calculateWasteTypeCounts (filteredDataForCards selectedRowIndex table)
  end.

(** The new [selectedWards] after a change of the check box of [ward]. *)
Definition handleWardChange (prev : list string) (ward : string) (isChecked : bool)
  : list string :=
  if isChecked then prev ++ [ward]
  else List.filter (fun w => negb (String.eqb w ward)) prev.

(** The key of a row in [handleMarkerClick]:
    [`${row["GVP Latitude"]}-${row["GVP Longitude"]}-${row["GVP Ward"]}`]. *)
Definition keyOfRow (showNum : Q -> string) (row : gmap string JsVal) : string :=
  jsString showNum (get row "GVP Latitude") +:+ "-" +:+
  jsString showNum (get row "GVP Longitude") +:+ "-" +:+
  jsString showNum (get row "GVP Ward").

(** [table.findIndex(p)], [None] for the -1 of no match. *)
Fixpoint findIndex {A : Type} (p : A -> bool) (xs : list A) : option nat :=
  match xs with
  | [] => None
  | x :: rest => if p x then Some 0%nat else option_map S (findIndex p rest)
  end.

(** The new [selectedRowIndex] after a click on the marker of [row]; the
    moves of the map are left out. *)
Definition handleMarkerClick (showNum : Q -> string) (selectedRowIndex : option nat)
    (table : list (gmap string JsVal)) (row : gmap string JsVal) : option nat :=
  match findIndex (fun r => String.eqb (keyOfRow showNum r) (keyOfRow showNum row))
                  table with
  | Some idx =>
      match selectedRowIndex with
      | Some i => if (i =? idx)%nat then None else Some idx
      | None => Some idx
      end
  | None => selectedRowIndex
  end.

(** ** Notions of the properties *)

(** How many rows pass the test of a flag at a column. *)
Definition countRows (test : JsVal -> bool) (column : string)
    (data : list (gmap string JsVal)) : nat :=
  length (List.filter (fun row => test (get row column)) data).

(** A table of counts with [g key] more at every key. *)
Definition addTo (g : string -> nat) (counts : list (string * nat))
  : list (string * nat) :=
  map (fun kn => (kn.1, (kn.2 + g kn.1)%nat)) counts.

(** How many of the pairs of a key and a column have the key [k] and a flag
    that is set on the row. *)
Definition setFlags (test : JsVal -> bool) (row : gmap string JsVal)
    (pairs : list (string * string)) (k : string) : nat :=
  length (List.filter (fun kc => String.eqb kc.1 k && test (get row kc.2)) pairs).

(** Whether a classifier found the category [c]. *)
Definition found (c : string) (r : result string) : bool :=
  match r with
  | Ok c' => String.eqb c' c
  | Throw _ => false
  end.

(** The value [calculateWhoDisposeData] classifies for a row, and the one
    [calculateSettingData] does. *)
Definition disposeValue (row : gmap string JsVal) : JsVal :=
  js_or (get row "Who Dispose") (JStr "").

Definition settingValue (row : gmap string JsVal) : JsVal :=
  js_or (js_or (js_or (get row "In_what_setting_is_the_GVP_pre")
                      (get row "Location Type"))
               (get row "other"))
        (JStr "").

(** Non-increasing values, first to last. *)
Definition descending (d : list Entry) : Prop :=
  Sorted (fun a b => (value b <= value a)%Q) d.

(** The unit roundoff of the doubles, [2 ^ -53], and the factors by which
    [n] rounded operations can have raised or lowered a value. *)
Definition unitRoundoff : Q := (1 # 9007199254740992)%Q.

Fixpoint raised (n : nat) : Q :=
  match n with
  | O => 1%Q
  | S n' => (raised n' * (1 + unitRoundoff))%Q
  end.

Fixpoint lowered (n : nat) : Q :=
  match n with
  | O => 1%Q
  | S n' => (lowered n' * (1 - unitRoundoff))%Q
  end.

(** ** The tooltip of a marker *)

Definition LB : string := String (ascii_of_nat 10) EmptyString.

(** [parts.join(sep)] on an array of strings. *)
Fixpoint join (sep : string) (parts : list string) : string :=
  match parts with
  | [] => ""
  | [p] => p
  | p :: rest => p +:+ sep +:+ join sep rest
  end.

(** [s.replace(/\r|\n/g, " ")]. *)
Fixpoint replaceNewlines (s : string) : string :=
  match s with
  | EmptyString => EmptyString
  | String c s' =>
      let n := nat_of_ascii c in
      String (if (n =? 13)%nat || (n =? 10)%nat then " "%char else c)
             (replaceNewlines s')
  end.

(** A string as a condition: the empty string is falsy. *)
Definition nonEmpty (s : string) : bool := negb (String.eqb s "").

(** The line of a field: [row[column] ? `label${row[column]}${LB}` : ""]. *)
Definition labelled (showNum : Q -> string) (row : gmap string JsVal)
    (label column : string) : string :=
  if truthy (get row column)
  then label +:+ jsString showNum (get row column) +:+ LB
  else "".

(** The lines of the flags that are set:
    [Object.keys(labels).filter((k) => row[k] === 1 || row[k] === true)
       .map((k) => labels[k])]. *)
Definition flagLines (labels : list (string * string)) (row : gmap string JsVal)
  : list string :=
  (List.filter (fun kv => is_one (get row kv.1) || is_true (get row kv.1)) labels).*2.

Definition wasteTypesMap : list (string * string) :=
  [ ("Organic and Wet Waste", "• Organic and Wet Waste");
    ("Plastic Paper Glass Waste", "• Plastic Paper Glass Waste");
    ("Sanitary and Hazardous Waste", "• Sanitary and Hazardous Waste");
    ("Battery and Bulb Waste", "• Battery and Bulb Waste");
    ("Construction and Demolition Waste", "• Construction and Demolition Waste");
    ("Clothes Waste", "• Clothes Waste");
    ("Carcasses Waste", "• Carcasses Waste");
    ("Others", "• Others") ].

Definition wasteReasonsMap : list (string * string) :=
  [ ("No Regular Collection Vehicle", "• No Regular Collection Vehicle");
    ("Random People Throwing Garbage", "• Random People Throwing Garbage");
    ("Due To User Fee", "• Due To User Fee");
    ("Mismatch of Vehicle Time", "• Mismatch of Vehicle Time");
    ("Due to Narrow Road", "• Due to Narrow Road");
    ("Because of Market and Street Vendors", "• Because of Market and Street Vendors") ].

Definition problemsMap : list (string * string) :=
  [ ("Bad Odour", "• Bad Odour");
    ("Mosquitos", "• Mosquitos");
    ("Stray Animals", "• Stray Animals");
    ("Congestion", "• Congestion");
    ("Other", "• Other") ].

(** The parts of [getGarbagePointInfo], under the names of its constants. *)

Definition NearestLocation (row : gmap string JsVal) : result string :=
  let NearestLocationRaw := get row "Nearest Location" in
  if truthy NearestLocationRaw then
    let* cleaned := str_method (fun s => trim (replaceNewlines s)) NearestLocationRaw in
    Ok ("𝗡𝗲𝗮𝗿𝗲𝘀𝘁 𝗟𝗼𝗰𝗮𝘁𝗶𝗼𝗻: " +:+ cleaned +:+ LB)
  else Ok "".

Definition WasteTypeSection (showNum : Q -> string) (row : gmap string JsVal)
  : string :=
  let WasteTypes := join LB (flagLines wasteTypesMap row) in
  let OtherWaste :=
    if truthy (get row "Other Waste Found")
    then "• " +:+ jsString showNum (get row "Other Waste Found") else "" in
  if nonEmpty WasteTypes || nonEmpty OtherWaste then
    "𝗪𝗮𝘀𝘁𝗲 𝗧𝘆𝗽𝗲:" +:+ LB +:+ WasteTypes +:+
    (if nonEmpty WasteTypes && nonEmpty OtherWaste then LB else "") +:+
    OtherWaste +:+ LB
  else "".

Definition Section_GVP_Body (showNum : Q -> string) (row : gmap string JsVal)
    (nearestLocation : string) : string :=
  labelled showNum row "𝗪𝗮𝗿𝗱: " "GVP Ward" +:+
  nearestLocation +:+
  labelled showNum row "𝗖𝗼𝗺𝗺𝗲𝗻𝘁𝘀: " "Comments On GVP" +:+
  WasteTypeSection showNum row +:+
  labelled showNum row "𝗪𝗮𝘀𝘁𝗲 𝗩𝗼𝗹𝘂𝗺𝗲: " "Waste Quantity Numeric" +:+
  labelled showNum row "𝗜𝗻 𝗪𝗵𝗮𝘁 𝗦𝗲𝘁𝘁𝗶𝗻𝗴 𝗶𝘀 𝗚𝗩𝗣 𝗣𝗿𝗲𝘀𝗲𝗻𝘁: " "In_what_setting_is_the_GVP_pre" +:+
  labelled showNum row "𝗔𝗿𝗲𝗮: " "Kindly_specify_the_area".

Definition GenderBlock (showNum : Q -> string) (row : gmap string JsVal) : string :=
  let GenderWomen := get row "No of Women" in
  let GenderMen := get row "No of Men" in
  if truthy (js_or GenderWomen GenderMen) then
    "𝗚𝗲𝗻𝗱𝗲𝗿:" +:+ LB +:+
    (if truthy GenderWomen
     then "• Women: " +:+ jsString showNum GenderWomen +:+ LB else "") +:+
    (if truthy GenderMen
     then "• Men: " +:+ jsString showNum GenderMen +:+ LB else "")
  else "".

Definition WasteReasonsSection (row : gmap string JsVal) : string :=
  let WasteReasons := join LB (flagLines wasteReasonsMap row) in
  if nonEmpty WasteReasons
  then "𝗥𝗲𝗮𝘀𝗼𝗻𝘀 𝗳𝗼𝗿 𝗪𝗮𝘀𝘁𝗲 𝗔𝗰𝗰𝘂𝗺𝘂𝗹𝗮𝘁𝗶𝗼𝗻:" +:+ LB +:+ WasteReasons +:+ LB else "".

Definition ProblemsSection (showNum : Q -> string) (row : gmap string JsVal)
  : string :=
  let ProblemsFlags := join LB (flagLines problemsMap row) in
  let OtherProblemText := get row "Other Problem Face" in
  let ProblemsCombined :=
    if nonEmpty ProblemsFlags && truthy OtherProblemText
    then ProblemsFlags +:+ LB +:+ ("• " +:+ jsString showNum OtherProblemText)
    else if nonEmpty ProblemsFlags then ProblemsFlags
    else if truthy OtherProblemText
         then "• " +:+ jsString showNum OtherProblemText else "" in
  if nonEmpty ProblemsCombined
  then "𝗣𝗿𝗼𝗯𝗹𝗲𝗺𝘀 𝗙𝗮𝗰𝗲𝗱:" +:+ LB +:+ ProblemsCombined +:+ LB else "".

Definition Section_Interaction_Body (showNum : Q -> string)
    (row : gmap string JsVal) : string :=
  labelled showNum row "𝗛𝗮𝘀 𝗧𝗵𝗲 𝗖𝗶𝘃𝗶𝗰 𝗔𝘂𝘁𝗵𝗼𝗿𝗶𝘁𝘆 𝗖𝗼𝗻𝗱𝘂𝗰𝘁𝗲𝗱 𝗔𝗻𝘆 𝗔𝘄𝗮𝗿𝗲𝗻𝗲𝘀𝘀 𝗦𝗲𝘀𝘀𝗶𝗼𝗻: " "Civic Authority Conduct Any Session" +:+
  labelled showNum row "𝗛𝗮𝘃𝗲 𝗜𝗻𝘁𝗲𝗿𝘃𝗶𝗲𝘄𝗲𝗲𝘀 𝗖𝗼𝗺𝗽𝗹𝗮𝗶𝗻𝗲𝗱 𝘁𝗼 𝗔𝘂𝘁𝗵𝗼𝗿𝗶𝘁𝗶𝗲𝘀: " "Have Interviewees Complained to Authority" +:+
  labelled showNum row "𝗜𝗳 𝗬𝗲𝘀 𝗛𝗼𝘄 𝗪𝗮𝘀 𝗬𝗼𝘂𝗿 𝗘𝘅𝗽𝗲𝗿𝗶𝗲𝗻𝗰𝗲: " "If Yes How Was Your Experience " +:+
  labelled showNum row "𝗛𝗼𝘄 𝗢𝗳𝘁𝗲𝗻 𝗶𝘀 𝗪𝗮𝘀𝘁𝗲 𝗦𝗽𝗼𝘁𝘁𝗲𝗱: " "Notice Frequency" +:+
  labelled showNum row "𝗦𝗼𝗹𝘂𝘁𝗶𝗼𝗻 𝗦𝘂𝗴𝗴𝗲𝘀𝘁𝗲𝗱 𝗕𝘆 𝗜𝗻𝘁𝗲𝗿𝘃𝗶𝗲𝘄𝗲𝗲: " "Solution Suggested by Interviewee" +:+
  labelled showNum row "𝗪𝗵𝗲𝗿𝗲 𝗜𝗻𝘁𝗲𝗿𝘃𝗶𝗲𝘄𝗲𝗲 𝗗𝗶𝘀𝗽𝗼𝘀𝗲𝘀 𝗧𝗵𝗲𝗶𝗿 𝗪𝗮𝘀𝘁𝗲: " "Where Interviewee Dispose Their Waste" +:+
  labelled showNum row "𝗪𝗵𝗼 𝗗𝗶𝘀𝗽𝗼𝘀𝗲𝘀 𝗧𝗵𝗲 𝗪𝗮𝘀𝘁𝗲: " "Who Dispose" +:+
  GenderBlock showNum row +:+
  WasteReasonsSection row +:+
  labelled showNum row "𝗗𝗼𝗲𝘀 𝗪𝗮𝘀𝘁𝗲 𝗚𝗲𝘁 𝗖𝗹𝗲𝗮𝗿𝗲𝗱 𝗢𝗳𝗳: " "Does Waste Clear Off" +:+
  labelled showNum row "𝗪𝗵𝗲𝗻 𝗪𝗮𝘀𝘁𝗲 𝗖𝗹𝗲𝗮𝗿𝗲𝗱 𝗢𝗳𝗳: " "When Waste Cleared Off" +:+
  ProblemsSection showNum row.

Definition getGarbagePointInfo (showNum : Q -> string) (row : gmap string JsVal)
  : result string :=
  let* nearestLocation := NearestLocation row in
  let Section_GVP :=
    if nonEmpty (Section_GVP_Body showNum row nearestLocation)
    then "🟢 𝗚𝗩𝗣 𝗜𝗻𝗳𝗼𝗿𝗺𝗮𝘁𝗶𝗼𝗻" +:+ LB +:+ Section_GVP_Body showNum row nearestLocation
    else "" in
  let Section_Interaction :=
    if nonEmpty (Section_Interaction_Body showNum row)
    then "🔵 𝗜𝗻𝗳𝗼𝗿𝗺𝗮𝘁𝗶𝗼𝗻 𝗦𝗵𝗮𝗿𝗲𝗱 𝗯𝘆 𝗖𝗶𝘁𝗶𝗭𝗲𝗻𝘀" +:+ LB +:+ Section_Interaction_Body showNum row
    else "" in
  Ok (join (LB +:+ LB) (List.filter nonEmpty [Section_GVP; Section_Interaction])).

(** The columns the tooltip prints when their value is truthy, and the
    flag columns it lists when their value is 1 or [true]. *)
Definition tooltipFields : list string :=
  [ "GVP Ward"; "Nearest Location"; "Comments On GVP"; "Other Waste Found";
    "Waste Quantity Numeric"; "In_what_setting_is_the_GVP_pre";
    "Kindly_specify_the_area"; "Civic Authority Conduct Any Session";
    "Have Interviewees Complained to Authority"; "If Yes How Was Your Experience ";
    "Notice Frequency"; "Solution Suggested by Interviewee";
    "Where Interviewee Dispose Their Waste"; "Who Dispose"; "No of Women";
    "No of Men"; "Does Waste Clear Off"; "When Waste Cleared Off";
    "Other Problem Face" ].

Definition tooltipFlags : list string :=
  (wasteTypesMap.*1 ++ wasteReasonsMap.*1 ++ problemsMap.*1)%list.

Definition tooltipRow : gmap string JsVal :=
  {[ "GVP Ward" := JStr "13"; "Nearest Location" := JStr (" Sadar" +:+ LB +:+ "Bazar "); "Clothes Waste" := JNum 1; "Others" := JBool true;
     "No of Men" := JStr "2"; "Bad Odour" := JNum 1;
     "Other Problem Face" := JStr "Smoke" ]}.

(** * Properties *)

(** ** Strings *)

Section Strings.

Lemma append_nil (b : string) : "" +:+ b = b.
Proof. reflexivity. Qed.

Lemma append_cons (x : ascii) (a b : string) :
  String x a +:+ b = String x (a +:+ b).
Proof. reflexivity. Qed.

Lemma append_assoc (a b c : string) : (a +:+ b) +:+ c = a +:+ (b +:+ c).
Proof.
  induction a as [|x a IH]; [reflexivity|].
  now rewrite !append_cons, IH.
Qed.

Lemma startsWith_spec (k s : string) :
  startsWith k s = true <-> exists post, s = k +:+ post.
Proof.
  revert s; induction k as [|a k IH]; intros s; simpl.
  - split; [intros _; now exists s | reflexivity].
  - destruct s as [|b s].
    + split; [discriminate | intros [post H]; discriminate].
    + rewrite andb_true_iff, Ascii.eqb_eq, IH. split.
      * intros [-> [post ->]]. now exists post.
      * intros [post H]. rewrite append_cons in H. injection H as -> ->.
        split; [reflexivity | now exists post].
Qed.

Lemma includes_spec (s k : string) :
  includes s k = true <-> exists pre post, s = pre +:+ (k +:+ post).
Proof.
  induction s as [|c s IH].
  - cbn [includes]. rewrite orb_false_r, startsWith_spec. split.
    + intros [post H]. now exists "", post.
    + intros [pre [post H]]. destruct pre; [now exists post | discriminate].
  - cbn [includes]. rewrite orb_true_iff, startsWith_spec, IH. split.
    + intros [[post H] | [pre [post H]]].
      * now exists "", post.
      * exists (String c pre), post. now rewrite append_cons, H.
    + intros [pre [post H]]. destruct pre as [|c' pre].
      * left. now exists post.
      * right. rewrite append_cons in H. injection H as _ H. now exists pre, post.
Qed.

(** A text that contains a phrase contains every part of the phrase. *)
Lemma includes_trans (t k2 k1 : string) :
  includes t k2 = true -> includes k2 k1 = true -> includes t k1 = true.
Proof.
  rewrite !includes_spec. intros [p [q ->]] [p' [q' ->]].
  exists (p +:+ p'), (q' +:+ q). now rewrite !append_assoc.
Qed.

Lemma is_space_lower (c : ascii) : is_space (lower_ascii c) = is_space c.
Proof. destruct c as [[] [] [] [] [] [] [] []]; reflexivity. Qed.

Lemma lower_ascii_idem (c : ascii) : lower_ascii (lower_ascii c) = lower_ascii c.
Proof. destruct c as [[] [] [] [] [] [] [] []]; reflexivity. Qed.

Lemma trimStart_lower (s : string) :
  trimStart (toLowerCase s) = toLowerCase (trimStart s).
Proof.
  induction s as [|c s IH]; simpl; [reflexivity|].
  rewrite is_space_lower. now destruct (is_space c).
Qed.

Lemma trimEnd_lower (s : string) :
  trimEnd (toLowerCase s) = toLowerCase (trimEnd s).
Proof.
  induction s as [|c s IH]; simpl; [reflexivity|].
  rewrite IH, is_space_lower.
  destruct (trimEnd s); simpl; [now destruct (is_space c) | reflexivity].
Qed.

(** Lower-casing and trimming commute: the classifiers lower-case first,
    the guard of the solutions scan trims the raw text. *)
Lemma lowerTrim_trim (s : string) : lowerTrim s = toLowerCase (trim s).
Proof. unfold lowerTrim, trim. now rewrite trimStart_lower, trimEnd_lower. Qed.

End Strings.

(** ** The classifier loop *)

Section FirstMatch.

Variable hit : string -> bool.

(** The loop answers with the entry at position [i] exactly when that
    entry is hit and none before it is. *)
Lemma firstMatch_Some (table : TaxonomyTable) (c : string) :
  firstMatch hit table = Some c <->
  exists i e, table !! i = Some e /\ category e = c /\ hits hit e = true /\
              forall j e', (j < i)%nat -> table !! j = Some e' -> hits hit e' = false.
Proof.
  induction table as [|e0 table IH]; simpl.
  - split; [discriminate | intros (i & e & H & _); discriminate].
  - fold (hits hit e0). destruct (hits hit e0) eqn:H0.
    + split.
      * intros [= <-]. exists 0%nat, e0. repeat split; auto. intros j e' Hj. lia.
      * intros (i & e & Hi & Hc & He & Hbefore). destruct i as [|i].
        -- injection Hi as ->. now rewrite Hc.
        -- rewrite (Hbefore 0%nat e0) in H0; [discriminate | lia | reflexivity].
    + rewrite IH. split.
      * intros (i & e & Hi & Hc & He & Hbefore). exists (S i), e.
        repeat split; auto. intros [|j] e' Hj Hl.
        -- injection Hl as <-. exact H0.
        -- apply (Hbefore j); [lia | exact Hl].
      * intros (i & e & Hi & Hc & He & Hbefore). destruct i as [|i].
        -- injection Hi as ->. rewrite He in H0. discriminate.
        -- exists i, e. repeat split; auto. intros j e' Hj Hl.
           apply (Hbefore (S j)); [lia | exact Hl].
Qed.

Lemma firstMatch_None (table : TaxonomyTable) :
  firstMatch hit table = None <-> Forall (fun e => hits hit e = false) table.
Proof.
  induction table as [|e0 table IH]; simpl.
  - split; [constructor | reflexivity].
  - fold (hits hit e0). destruct (hits hit e0) eqn:H0.
    + split; [discriminate | intros H; inversion H; congruence].
    + rewrite IH. split; [now constructor | intros H; now inversion H].
Qed.

End FirstMatch.

(** ** The classifiers *)

Lemma Ok_inj {A : Type} (a b : A) : Ok a = Ok b -> a = b.
Proof. now intros [= ->]. Qed.

Lemma hits_true (hit : string -> bool) (e : TaxonomyEntry) :
  hits hit e = true <-> exists k, In k (keywords e) /\ hit k = true.
Proof. unfold hits. apply existsb_exists. Qed.

Lemma categorize_str (s : string) :
  categorize (JStr s) =
  Ok (default "Unknown / Not Mentioned"
        (firstMatch (includesLower (lowerTrim s)) categoryMap)).
Proof. reflexivity. Qed.

Lemma categorizeLocation_str (s : string) :
  categorizeLocation (JStr s) =
  Ok (default "Other / Miscellaneous" (firstMatch (includes (lowerTrim s)) locationMap)).
Proof.
  unfold categorizeLocation, js_or. simpl.
  destruct (String.eqb_spec s ""); [subst|]; reflexivity.
Qed.

Lemma categorizeSolution_str (s : string) :
  categorizeSolution (JStr s) =
  Ok (firstMatch (includesLower (lowerTrim s)) solutionCategories).
Proof.
  unfold categorizeSolution, js_or. simpl.
  destruct (String.eqb_spec s ""); [subst|]; reflexivity.
Qed.

(** Every keyword of the entry "Nearby + Outside Combined" begins with a
    keyword of the entry "Nearby Households", eleven places ahead of it. *)
Lemma nearby_outside_shadowed (t : string) (e1 e11 : TaxonomyEntry) :
  categoryMap !! 0%nat = Some e1 ->
  categoryMap !! 10%nat = Some e11 ->
  hits (includesLower t) e11 = true ->
  hits (includesLower t) e1 = true.
Proof.
  intros [= <-] [= <-]. rewrite !hits_true. intros (k & Hk & Hin).
  unfold includesLower in *. cbn [keywords In] in Hk.
  destruct Hk as [<- | [<- | []]].
  - exists "nearby household". split; [cbn; auto|].
    eapply includes_trans; [exact Hin | vm_compute; reflexivity].
  - exists "जवळ पास". split; [cbn; tauto|].
    eapply includes_trans; [exact Hin | vm_compute; reflexivity].
Qed.

(** C10. Whatever its argument, [categorize] never answers "Nearby + Outside
    Combined": a text that contains a keyword of that entry contains a
    keyword of the earlier entry "Nearby Households", which the loop meets
    first. *)
Theorem categorize_never_nearby_outside_combined (text : JsVal) :
  categorize text <> Ok "Nearby + Outside Combined".
Proof.
  destruct text as [ | | b | q | s]; try discriminate.
  rewrite categorize_str. intros H. apply Ok_inj in H.
  destruct (firstMatch (includesLower (lowerTrim s)) categoryMap) as [c|] eqn:E;
    simpl in H; [subst c | discriminate].
  apply firstMatch_Some in E as (i & e & Hi & Hc & He & Hbefore).
  assert (Hlt : (i < 12)%nat) by (apply lookup_lt_Some in Hi; exact Hi).
  assert (Hpos : i = 10%nat).
  { do 12 (destruct i as [|i];
           [first [reflexivity | exfalso; injection Hi as <-; discriminate Hc] | ]).
    lia. }
  subst i.
  assert (H1 : hits (includesLower (lowerTrim s))
                 (entry "Nearby Households"
                    [ "nearby household"; "house hol"; "households";
                      "colony people"; "banglow wale log"; "जवळ पास"; "सोसायटी" ])
               = false) by (apply (Hbefore 0%nat); [lia | reflexivity]).
  rewrite (nearby_outside_shadowed _ _ e eq_refl Hi He) in H1. discriminate.
Qed.




(** C2, the counterexample. Both tables declare an entry that carries the
    name of the default category, so a keyword match reaches it: "unknown"
    is a keyword of the entry "Unknown / Not Mentioned" of [categoryMap],
    "other" one of the entry "Other / Miscellaneous" of [locationMap]. *)
Lemma default_category_reached_by_keyword :
  (categorize (JStr "unknown") = Ok "Unknown / Not Mentioned" /\
   exists e k, In e categoryMap /\ In k (keywords e) /\
               includes (lowerTrim "unknown") (toLowerCase k) = true) /\
  (categorizeLocation (JStr "other") = Ok "Other / Miscellaneous" /\
   exists e k, In e locationMap /\ In k (keywords e) /\
               includes (lowerTrim "other") k = true).
Proof.
  split; (split; [vm_compute; reflexivity|]).
  - exists (entry "Unknown / Not Mentioned"
              ["unknown"; "माहित नाही"; "n"; "all"; "dont know"]), "unknown".
    split; [cbn; tauto | split; [cbn; tauto | vm_compute; reflexivity]].
  - exists (entry "Other / Miscellaneous" ["other"; "unknown"; "misc"]), "other".
    split; [cbn; tauto | split; [cbn; tauto | vm_compute; reflexivity]].
Qed.

Lemma default_only_from_own_entry (hit : string -> bool) (table : TaxonomyTable)
    (dflt : string) (n : nat) :
  (forall i e, table !! i = Some e -> category e = dflt -> i = n) ->
  default dflt (firstMatch hit table) = dflt ->
  Forall (fun e => hits hit e = false) (take n table) /\
  ((exists e, table !! n = Some e /\ category e = dflt /\ hits hit e = true) \/
   Forall (fun e => hits hit e = false) table).
Proof.
  intros Hpos H. destruct (firstMatch hit table) as [c|] eqn:E; simpl in H.
  - subst c. apply firstMatch_Some in E as (i & e & Hi & Hc & He & Hbefore).
    assert (i = n) by eauto. subst i. split; [|left; eauto].
    apply Forall_forall. intros e' Hin.
    apply list_elem_of_lookup in Hin as [j Hj].
    apply lookup_take_Some in Hj as [Hj Hlt]. eauto.
  - apply firstMatch_None in E. split; [|right; exact E].
    apply Forall_take. exact E.
Qed.

(** C2, amended. When a classifier answers with the default category, no
    keyword of an entry declared before the table's own entry of that name
    (the tenth of [categoryMap], the ninth and last of [locationMap]) is in
    the normalised text; and either a keyword of that entry is in it, or no
    keyword of the whole table is. *)
Theorem default_category_not_before_its_entry (s : string) :
  (categorize (JStr s) = Ok "Unknown / Not Mentioned" ->
   Forall (fun e => hits (includesLower (lowerTrim s)) e = false) (take 9 categoryMap) /\
   ((exists e, categoryMap !! 9%nat = Some e /\
               category e = "Unknown / Not Mentioned" /\
               hits (includesLower (lowerTrim s)) e = true) \/
    Forall (fun e => hits (includesLower (lowerTrim s)) e = false) categoryMap)) /\
  (categorizeLocation (JStr s) = Ok "Other / Miscellaneous" ->
   Forall (fun e => hits (includes (lowerTrim s)) e = false) (take 8 locationMap) /\
   ((exists e, locationMap !! 8%nat = Some e /\
               category e = "Other / Miscellaneous" /\
               hits (includes (lowerTrim s)) e = true) \/
    Forall (fun e => hits (includes (lowerTrim s)) e = false) locationMap)).
Proof.
  split.
  - rewrite categorize_str. intros H. apply Ok_inj in H.
    apply default_only_from_own_entry; [|exact H].
    intros i e Hi Hc. assert ((i < 12)%nat) by (apply lookup_lt_Some in Hi; exact Hi).
    do 12 (destruct i as [|i];
           [first [reflexivity | exfalso; injection Hi as <-; discriminate Hc] | ]).
    lia.
  - rewrite categorizeLocation_str. intros H. apply Ok_inj in H.
    apply default_only_from_own_entry; [|exact H].
    intros i e Hi Hc. assert ((i < 9)%nat) by (apply lookup_lt_Some in Hi; exact Hi).
    do 9 (destruct i as [|i];
          [first [reflexivity | exfalso; injection Hi as <-; discriminate Hc] | ]).
    lia.
Qed.

Lemma default_category_not_before_its_entry_witness :
  Forall (fun e => hits (includesLower (lowerTrim "dont know")) e = false)
         (take 9 categoryMap) /\
  Forall (fun e => hits (includes (lowerTrim "misc")) e = false)
         (take 8 locationMap).
Proof.
  split.
  - apply (proj1 (default_category_not_before_its_entry "dont know")).
    vm_compute. reflexivity.
  - apply (proj2 (default_category_not_before_its_entry "misc")).
    vm_compute. reflexivity.
Defined.

(** C4, the counterexample. [categorize] reads [text.toLowerCase] with no
    guard: on [null] and on [undefined] it throws. *)
Lemma categorize_throws_on_null :
  categorize JNull = Throw TypeError /\ categorize JUndefined = Throw TypeError.
Proof. split; reflexivity. Qed.

(** C4, amended. [categorizeLocation] and [categorizeSolution] read
    [(text || "")]: on [null], [undefined] and [""] they answer with their
    fallback, "Other / Miscellaneous" and [null]. [categorize] answers on
    every string, with "Unknown / Not Mentioned" on the empty one; its
    caller [calculateWhoDisposeData] hands it [row["Who Dispose"] || ""], so
    a row whose field is [null], absent or empty counts once for the
    default category. *)
Theorem classifiers_on_null_undefined_empty :
  (categorizeLocation JNull = Ok "Other / Miscellaneous" /\
   categorizeLocation JUndefined = Ok "Other / Miscellaneous" /\
   categorizeLocation (JStr "") = Ok "Other / Miscellaneous") /\
  (categorizeSolution JNull = Ok None /\
   categorizeSolution JUndefined = Ok None /\
   categorizeSolution (JStr "") = Ok None) /\
  (categorize (JStr "") = Ok "Unknown / Not Mentioned" /\
   forall s : string, exists c : string, categorize (JStr s) = Ok c) /\
  (categorize (js_or JNull (JStr "")) = Ok "Unknown / Not Mentioned" /\
   categorize (js_or JUndefined (JStr "")) = Ok "Unknown / Not Mentioned" /\
   categorize (js_or (JStr "") (JStr "")) = Ok "Unknown / Not Mentioned") /\
  (disposeCount [ {[ "Who Dispose" := JNull ]} ] = Ok [("Unknown / Not Mentioned", 1%nat)] /\
   disposeCount [ ∅ ] = Ok [("Unknown / Not Mentioned", 1%nat)] /\
   disposeCount [ {[ "Who Dispose" := JStr "" ]} ] = Ok [("Unknown / Not Mentioned", 1%nat)]).
Proof.
  repeat match goal with |- _ /\ _ => split end;
    try (intros s; rewrite categorize_str; eexists; reflexivity);
    vm_compute; reflexivity.
Qed.

(** ** Tables of counts *)

Section Counts.

Implicit Types (counts : list (string * nat)) (key : string).

Lemma incr_keys key counts : (incr key counts).*1 = counts.*1.
Proof.
  induction counts as [|[k n] rest IH]; cbn [incr]; [reflexivity|].
  destruct (String.eqb k key); rewrite !fmap_cons; [reflexivity | now rewrite IH].
Qed.

Lemma bump_keys_in key counts :
  key ∈ counts.*1 -> (bump key counts).*1 = counts.*1.
Proof.
  induction counts as [|[k n] rest IH]; cbn [bump]; intros Hin.
  - inversion Hin.
  - destruct (String.eqb_spec k key) as [->|Hne]; rewrite !fmap_cons; [reflexivity|].
    rewrite fmap_cons in Hin. apply elem_of_cons in Hin as [Heq | Hin].
    + simpl in Heq. congruence.
    + now rewrite IH.
Qed.

Lemma bump_keys_sub key counts (k : string) :
  k ∈ (bump key counts).*1 -> k = key \/ k ∈ counts.*1.
Proof.
  induction counts as [|[k0 n] rest IH]; cbn [bump]; intros Hin.
  - apply list_elem_of_singleton in Hin. now left.
  - destruct (String.eqb k0 key); [now right|].
    rewrite fmap_cons in *. apply elem_of_cons in Hin as [-> | Hin].
    + right. apply elem_of_cons. now left.
    + destruct (IH Hin); [now left | right; apply elem_of_cons; now right].
Qed.

Lemma foldl_add (l : list nat) (a : nat) :
  foldl (fun sum count => (sum + count)%nat) a l = (a + sum_list l)%nat.
Proof.
  revert a; induction l as [|x l IH]; intros a; simpl; [lia|].
  rewrite IH. lia.
Qed.

Lemma totalCount_sum counts : totalCount counts = sum_list (counts.*2).
Proof. unfold totalCount. now rewrite foldl_add. Qed.

Lemma totalCount_cons key (n : nat) counts :
  totalCount ((key, n) :: counts) = (n + totalCount counts)%nat.
Proof. rewrite !totalCount_sum. reflexivity. Qed.

Lemma totalCount_bump key counts :
  totalCount (bump key counts) = S (totalCount counts).
Proof.
  induction counts as [|[k n] rest IH]; cbn [bump]; [reflexivity|].
  destruct (String.eqb k key); rewrite !totalCount_cons; [lia|].
  rewrite IH. lia.
Qed.

End Counts.

(** ** Sorting and sums *)

Section Sums.

Implicit Types (d : list Entry) (counts : list (string * nat)).

Lemma insertDesc_perm (x : Entry) d : insertDesc x d ≡ₚ x :: d.
Proof.
  induction d as [|y d IH]; cbn [insertDesc]; [reflexivity|].
  destruct (Qle_bool (value y) (value x)); [reflexivity|].
  rewrite IH. apply Permutation_swap.
Qed.

Lemma sortDesc_perm d : sortDesc d ≡ₚ d.
Proof.
  induction d as [|x d IH]; cbn [sortDesc]; [reflexivity|].
  now rewrite insertDesc_perm, IH.
Qed.

Lemma sumValues_cons (x : Entry) d :
  sumValues (x :: d) = (value x + sumValues d)%Q.
Proof. reflexivity. Qed.

Lemma sumValues_perm d d' : d ≡ₚ d' -> (sumValues d == sumValues d')%Q.
Proof.
  induction 1 as [|x d d' _ IH|x y d|d d' d'' _ IH1 _ IH2].
  - reflexivity.
  - rewrite !sumValues_cons, IH. reflexivity.
  - rewrite !sumValues_cons. ring.
  - now rewrite IH1.
Qed.

Lemma sumValues_sortDesc d : (sumValues (sortDesc d) == sumValues d)%Q.
Proof. apply sumValues_perm, sortDesc_perm. Qed.

Lemma num_add (a b : nat) : (num (a + b) == num a + num b)%Q.
Proof. unfold num. now rewrite Nat2Z.inj_add, inject_Z_plus. Qed.

Lemma num_pos (n : nat) : (0 < n)%nat -> (0 < num n)%Q.
Proof.
  intros H. unfold num. change 0%Q with (inject_Z 0).
  rewrite <- Zlt_Qlt. lia.
Qed.

Lemma num_nonneg (n : nat) : (0 <= num n)%Q.
Proof.
  unfold num. change 0%Q with (inject_Z 0). rewrite <- Zle_Qle. lia.
Qed.

Lemma percent_pos_total (count total : nat) :
  (0 < total)%nat -> percent count total = (num count / num total * 100)%Q.
Proof.
  intros H. unfold percent. now destruct (Nat.ltb_spec 0 total); [|lia].
Qed.

Lemma percent_nonneg (count total : nat) : (0 <= percent count total)%Q.
Proof.
  unfold percent. destruct (Nat.ltb_spec 0 total) as [H|H]; [|apply Qle_refl].
  apply Qmult_le_0_compat; [|discriminate].
  apply Qle_shift_div_l; [now apply num_pos|].
  rewrite Qmult_0_l. apply num_nonneg.
Qed.

Lemma sumValues_percent (total : nat) counts :
  (0 < total)%nat ->
  (sumValues (map (fun '(k, count) => mkEntry k (percent count total)) counts)
   == num (sum_list (counts.*2)) / num total * 100)%Q.
Proof.
  intros H. pose proof (num_pos total H) as Hpos.
  induction counts as [|[k n] rest IH].
  - simpl. unfold num at 1. simpl. field. intros E. rewrite E in Hpos. inversion Hpos.
  - cbn [map]. rewrite sumValues_cons. cbn [value].
    change (sum_list ((k, n) :: rest).*2) with (n + sum_list (rest.*2))%nat.
    rewrite IH, num_add, percent_pos_total by exact H.
    field. intros E. rewrite E in Hpos. inversion Hpos.
Qed.

(** The exact shares of a table with at least one count add up to 100. *)
Lemma sumValues_shares counts :
  (0 < totalCount counts)%nat -> (sumValues (shares counts) == 100)%Q.
Proof.
  intros H. unfold shares. rewrite sumValues_percent by exact H.
  rewrite <- totalCount_sum. pose proof (num_pos _ H) as Hpos.
  field. intros E. rewrite E in Hpos. inversion Hpos.
Qed.

Lemma sumValues_nonneg d :
  Forall (fun e => (0 <= value e)%Q) d -> (0 <= sumValues d)%Q.
Proof.
  induction 1 as [|x d Hx _ IH]; [apply Qle_refl|].
  rewrite sumValues_cons. replace 0%Q with (0 + 0)%Q by reflexivity.
  now apply Qplus_le_compat.
Qed.

(** Cutting a distribution short can only lower the sum. *)
Lemma sumValues_take_le (n : nat) d :
  Forall (fun e => (0 <= value e)%Q) d -> (sumValues (take n d) <= sumValues d)%Q.
Proof.
  revert n. induction d as [|x d IH]; intros [|n] Hd; try apply Qle_refl.
  - now apply sumValues_nonneg.
  - cbn [take]. rewrite !sumValues_cons. inversion Hd; subst.
    apply Qplus_le_compat; [apply Qle_refl | now apply IH].
Qed.

End Sums.

(** ** The flag charts *)

Section Flags.

Implicit Types (counts : list (string * nat)) (data : list (gmap string JsVal)).

Lemma names_shares counts : map name (shares counts) = counts.*1.
Proof.
  unfold shares. generalize (totalCount counts) as total. intros total.
  induction counts as [|[k n] rest IH]; [reflexivity|].
  cbn [map]. rewrite fmap_cons. f_equal. exact IH.
Qed.

Lemma names_sortDesc (d : list Entry) : map name (sortDesc d) ≡ₚ map name d.
Proof. apply Permutation_map, sortDesc_perm. Qed.

Lemma scanRow_keys (test : JsVal -> bool) (row : gmap string JsVal)
    (keys : list string) counts :
  (foldl (fun counts key => if test (get row key) then incr key counts else counts)
         counts keys).*1 = counts.*1.
Proof.
  revert counts. induction keys as [|key keys IH]; intros counts; [reflexivity|].
  cbn [foldl]. rewrite IH. destruct (test (get row key)); [apply incr_keys | reflexivity].
Qed.

(** The scan changes counts only: the keys the table starts with are the
    keys it ends with, in the same order. *)
Lemma scanFlags_keys (test : JsVal -> bool) counts data :
  (scanFlags test counts data).*1 = counts.*1.
Proof.
  unfold scanFlags. revert counts.
  induction data as [|row data IH]; intros counts; [reflexivity|].
  cbn [foldl]. rewrite IH. apply scanRow_keys.
Qed.

Lemma wasteTypeRow_keys (row : gmap string JsVal)
    (columns : list (string * string)) counts :
  (foldl (fun counts '(type, column) =>
            if is_one (get row column) then incr type counts else counts)
         counts columns).*1 = counts.*1.
Proof.
  revert counts. induction columns as [|[type column] columns IH];
    intros counts; [reflexivity|].
  cbn [foldl]. rewrite IH. destruct (is_one (get row column)); [apply incr_keys | reflexivity].
Qed.

Lemma wasteTypeScan_keys data counts :
  (foldl (fun counts row =>
            foldl (fun counts '(type, column) =>
                     if is_one (get row column) then incr type counts else counts)
                  counts wasteTypeToColumnMap)
         counts data).*1 = counts.*1.
Proof.
  revert counts. induction data as [|row data IH]; intros counts; [reflexivity|].
  cbn [foldl]. rewrite IH. apply wasteTypeRow_keys.
Qed.

Lemma wasteTypeCount_keys data :
  (wasteTypeCount data).*1 = wasteTypeToColumnMap.*1.
Proof. unfold wasteTypeCount. now rewrite wasteTypeScan_keys. Qed.

Lemma names_positive counts :
  map name (map (fun '(key, count) => mkEntry key (num count))
                (List.filter (fun kc => (0 <? kc.2)%nat) counts))
  = (List.filter (fun kc => (0 <? kc.2)%nat) counts).*1.
Proof.
  induction (List.filter (fun kc => (0 <? kc.2)%nat) counts) as [|[k n] rest IH];
    [reflexivity|].
  cbn [map]. rewrite fmap_cons. f_equal. exact IH.
Qed.

(** The waste-type chart reports the counts themselves. *)
Lemma sumValues_positive counts :
  (sumValues (map (fun '(key, count) => mkEntry key (num count))
                  (List.filter (fun kc => (0 <? kc.2)%nat) counts))
   == num (totalCount counts))%Q.
Proof.
  induction counts as [|[k n] rest IH]; [reflexivity|].
  rewrite totalCount_cons, num_add. cbn [List.filter snd].
  destruct (Nat.ltb_spec 0 n) as [Hn|Hn].
  - cbn [map]. rewrite sumValues_cons, IH. reflexivity.
  - rewrite IH. assert (n = 0%nat) as -> by lia. unfold num at 2. simpl. ring.
Qed.

End Flags.

(** ** The free-text charts *)

Section FreeText.

Implicit Types (counts : list (string * nat)) (data : list (gmap string JsVal)).

Lemma firstMatch_category (hit : string -> bool) (table : TaxonomyTable) (c : string) :
  firstMatch hit table = Some c -> c ∈ map category table.
Proof.
  induction table as [|e table IH]; cbn [firstMatch]; [discriminate|].
  destruct (hits hit e).
  - intros [= <-]. cbn [map]. apply elem_of_cons. now left.
  - intros H. cbn [map]. apply elem_of_cons. right. now apply IH.
Qed.

Variable classify : gmap string JsVal -> result string.

(** A scan that classifies each row and counts its category: the keys of
    the table it ends with are keys it started with or categories found
    for a row. *)
Lemma classified_keys data counts0 counts :
  forEach (fun counts row => let* category := classify row in
                             Ok (bump category counts)) data counts0 = Ok counts ->
  forall k, k ∈ counts.*1 ->
            k ∈ counts0.*1 \/ exists row, row ∈ data /\ classify row = Ok k.
Proof.
  revert counts0. induction data as [|row data IH]; intros counts0; cbn [forEach].
  - intros [= <-] k Hk. now left.
  - destruct (classify row) as [c|err] eqn:Hc; cbn [bind]; [|discriminate].
    intros H k Hk. destruct (IH _ H k Hk) as [Hin | (row' & Hrow' & Hk')].
    + apply bump_keys_sub in Hin as [-> | Hin]; [|now left].
      right. exists row. split; [apply elem_of_cons; now left | exact Hc].
    + right. exists row'. split; [apply elem_of_cons; now right | exact Hk'].
Qed.

Lemma classified_total data counts0 counts :
  forEach (fun counts row => let* category := classify row in
                             Ok (bump category counts)) data counts0 = Ok counts ->
  totalCount counts = (totalCount counts0 + length data)%nat.
Proof.
  revert counts0. induction data as [|row data IH]; intros counts0; cbn [forEach].
  - intros [= <-]. cbn [length]. lia.
  - destruct (classify row) as [c|err]; cbn [bind]; [|discriminate].
    intros H. rewrite (IH _ H), totalCount_bump. cbn [length]. lia.
Qed.

End FreeText.

Lemma top5_names (counts : list (string * nat)) (e : Entry) :
  e ∈ take 5 (sortDesc (shares counts)) -> name e ∈ counts.*1.
Proof.
  intros Hin. apply subseteq_take in Hin.
  rewrite <- names_shares, <- names_sortDesc. now apply (list_elem_of_fmap_2 name).
Qed.

(** ** The solutions chart *)

Section Solutions.

Implicit Types (counts : list (string * nat)) (row : gmap string JsVal).

Lemma solutionCount0_keys : solutionCount0.*1 = map category solutionCategories.
Proof. reflexivity. Qed.

Lemma not_recognised_blank : firstMatch (includesLower "") solutionCategories = None.
Proof. vm_compute. reflexivity. Qed.

Lemma not_recognised_placeholder :
  firstMatch (includesLower "n/a") solutionCategories = None.
Proof. vm_compute. reflexivity. Qed.

(** What one column of one row does to the table of counts. *)
Lemma solutionColumn_counts row counts (col : string) :
  textOrFalsy (get row col) = true ->
  solutionColumn row counts col =
  Ok (match (if eligible (get row col) then recognised (get row col) else None) with
      | Some c => bump c counts
      | None => counts
      end).
Proof.
  unfold solutionColumn. destruct (get row col) as [ | | b | q | s]; cbn [textOrFalsy].
  - reflexivity.
  - reflexivity.
  - intros H. apply negb_true_iff in H. now rewrite H.
  - intros H. apply negb_true_iff in H. now rewrite H.
  - intros _. cbn [truthy str_method bind differs eligible].
    destruct (String.eqb_spec s "") as [-> | Hs]; [reflexivity|]. cbn [negb].
    destruct (String.eqb_spec (trim s) "") as [Hblank | Hblank]; [reflexivity|].
    cbn [negb andb].
    destruct (String.eqb_spec s "N/A") as [-> | Hna]; [reflexivity|]. cbn [negb].
    unfold recognised. rewrite categorizeSolution_str. cbn [bind].
    destruct (String.eqb_spec (trim s) "N/A") as [Htrim | Htrim]; cbn [negb].
    + rewrite lowerTrim_trim, Htrim.
      change (toLowerCase "N/A") with "n/a". now rewrite not_recognised_placeholder.
    + now destruct (firstMatch _ solutionCategories).
Qed.

Lemma solutionColumns_counts row (cols : list string) counts :
  Forall (fun col => textOrFalsy (get row col) = true) cols ->
  forEach (solutionColumn row) cols counts =
  Ok (foldl (fun counts c => bump c counts) counts
        (omap (fun col => if eligible (get row col)
                          then recognised (get row col) else None) cols)).
Proof.
  intros H. revert counts. induction H as [|col cols Hcol _ IH]; intros counts.
  - reflexivity.
  - cbn [forEach]. rewrite solutionColumn_counts by exact Hcol. cbn [bind].
    rewrite IH. cbn [omap list_omap].
    destruct (if eligible (get row col) then recognised (get row col) else None);
      reflexivity.
Qed.

Lemma totalCount_bumps (cs : list string) counts :
  totalCount (foldl (fun counts c => bump c counts) counts cs)
  = (totalCount counts + length cs)%nat.
Proof.
  revert counts. induction cs as [|c cs IH]; intros counts; cbn [foldl length]; [lia|].
  rewrite IH, totalCount_bump. lia.
Qed.

(** A text in which the classifier finds a category is neither blank nor
    the placeholder, so the test of the guard on the raw text and the
    test on the trimmed text come to the same. *)
Lemma recognised_eligible (s : string) (c : string) :
  recognised (JStr s) = Some c -> eligible (JStr s) = true.
Proof.
  unfold recognised. rewrite categorizeSolution_str, lowerTrim_trim. cbn [eligible].
  destruct (String.eqb_spec (trim s) "") as [-> | _].
  - change (toLowerCase "") with "". now rewrite not_recognised_blank.
  - destruct (String.eqb_spec (trim s) "N/A") as [-> | _]; [|reflexivity].
    change (toLowerCase "N/A") with "n/a". now rewrite not_recognised_placeholder.
Qed.

Lemma solutionColumn_keys row counts counts' (col : string) :
  counts.*1 = map category solutionCategories ->
  solutionColumn row counts col = Ok counts' ->
  counts'.*1 = map category solutionCategories.
Proof.
  intros Hk. unfold solutionColumn. destruct (truthy (get row col)); [|now intros [= <-]].
  destruct (str_method trim (get row col)) as [t|]; cbn [bind]; [|discriminate].
  destruct (negb (String.eqb t "") && differs (get row col) "N/A"); [|now intros [= <-]].
  unfold categorizeSolution.
  destruct (str_method lowerTrim (js_or (get row col) (JStr ""))) as [lt|];
    cbn [bind]; [|discriminate].
  destruct (firstMatch (includesLower lt) solutionCategories) as [c|] eqn:E;
    [|now intros [= <-]].
  intros [= <-]. rewrite bump_keys_in; [exact Hk|].
  rewrite Hk. now apply firstMatch_category in E.
Qed.

Lemma solutionRow_keys row (cols : list string) counts counts' :
  counts.*1 = map category solutionCategories ->
  forEach (solutionColumn row) cols counts = Ok counts' ->
  counts'.*1 = map category solutionCategories.
Proof.
  revert counts. induction cols as [|col cols IH]; intros counts Hk; cbn [forEach].
  - now intros [= <-].
  - destruct (solutionColumn row counts col) as [c1|] eqn:E; cbn [bind]; [|discriminate].
    apply IH. eapply solutionColumn_keys; eauto.
Qed.

(** The table of the solutions chart always has the eight categories of
    [solutionCategories] for its keys, in their order. *)
Lemma solutionCount_keys (data : list (gmap string JsVal)) counts :
  solutionCount data = Ok counts -> counts.*1 = map category solutionCategories.
Proof.
  unfold solutionCount. generalize solutionCount0_keys.
  generalize solutionCount0 as c0. induction data as [|row data IH];
    intros c0 Hk; cbn [forEach].
  - now intros [= <-].
  - destruct (forEach (solutionColumn row) solutionColumns c0) as [c1|] eqn:E;
      cbn [bind]; [|discriminate].
    apply IH. eapply solutionRow_keys; eauto.
Qed.

End Solutions.

(** ** The arithmetic of doubles *)

Section Rounding.

Local Open Scope Q_scope.

Lemma twice_le (r d : Z) : (2 * r <= d)%Z -> 2 * inject_Z r <= inject_Z d.
Proof.
  intros H. change 2 with (inject_Z 2). now rewrite <- inject_Z_mult, <- Zle_Qle.
Qed.

Lemma le_twice (r d : Z) : (d <= 2 * r)%Z -> inject_Z d <= 2 * inject_Z r.
Proof.
  intros H. change 2 with (inject_Z 2). now rewrite <- inject_Z_mult, <- Zle_Qle.
Qed.

(** The nearest integer is at most one half away. *)
Lemma roundHalfEven_near (x : Q) :
  x - (1 # 2) <= inject_Z (roundHalfEven x) /\ inject_Z (roundHalfEven x) <= x + (1 # 2).
Proof.
  destruct x as [n d]. unfold roundHalfEven. cbn [Qnum Qden].
  pose proof (Z.div_mod n (Zpos d) ltac:(lia)) as Hdiv.
  pose proof (Z.mod_pos_bound n (Zpos d) ltac:(lia)) as Hmod.
  set (q := (n / Zpos d)%Z) in *. set (r := (n mod Zpos d)%Z) in *.
  assert (Hx : n # d == inject_Z q + inject_Z r / inject_Z (Zpos d)).
  { rewrite (Qmake_Qdiv n d). rewrite Hdiv at 1.
    rewrite inject_Z_plus, inject_Z_mult. field.
    intros E. apply (inject_Z_injective (Zpos d) 0) in E. discriminate. }
  assert (Hd : 0 < inject_Z (Zpos d)) by reflexivity.
  assert (Hr0 : 0 <= inject_Z r) by (change 0 with (inject_Z 0); rewrite <- Zle_Qle; lia).
  set (D := inject_Z (Zpos d)) in *. set (R := inject_Z r) in *.
  assert (Hfrac : forall a b : Q, (a * D <= R -> a <= R / D) /\ (R <= b * D -> R / D <= b)).
  { intros a b. split; intros H.
    - now apply Qle_shift_div_l.
    - now apply Qle_shift_div_r. }
  destruct (Z.ltb_spec (2 * r) (Zpos d)) as [Hlt | Hge].
  - assert (H2 : 2 * R <= D) by (apply twice_le; lia).
    rewrite Hx. destruct (Hfrac 0 (1 # 2)) as [Ha Hb].
    specialize (Ha ltac:(lra)). specialize (Hb ltac:(lra)). split; lra.
  - destruct (Z.ltb_spec (Zpos d) (2 * r)) as [Hgt | Hle].
    + assert (H2 : D <= 2 * R) by (apply le_twice; lia).
      assert (H1 : R <= D) by (unfold R, D; rewrite <- Zle_Qle; lia).
      rewrite Hx, inject_Z_plus. destruct (Hfrac (1 # 2) 1) as [Ha Hb].
      specialize (Ha ltac:(lra)). specialize (Hb ltac:(lra)).
      change (inject_Z 1) with 1. split; lra.
    + assert (H2 : D <= 2 * R) by (apply le_twice; lia).
      assert (H3 : 2 * R <= D) by (apply twice_le; lia).
      destruct (Hfrac (1 # 2) (1 # 2)) as [Ha Hb].
      specialize (Ha ltac:(lra)). specialize (Hb ltac:(lra)).
      destruct (Z.even q); rewrite Hx, ?inject_Z_plus; change (inject_Z 1) with 1;
        split; lra.
Qed.

Lemma pow2_pos (e : Z) : 0 < 2 ^ e.
Proof. apply Qpower_0_lt. reflexivity. Qed.

(** Rounding a significand of at least 2^52 to an integer moves the value
    by at most one part in 2^53. *)
Lemma round_scaled (x p : Q) :
  0 < p -> 2 ^ 52 <= x / p ->
  x * (1 - unitRoundoff) <= inject_Z (roundHalfEven (x / p)) * p /\
  inject_Z (roundHalfEven (x / p)) * p <= x * (1 + unitRoundoff).
Proof.
  intros Hp Hy. destruct (roundHalfEven_near (x / p)) as [Hlo Hhi].
  set (m := inject_Z (roundHalfEven (x / p))) in *. set (y := x / p) in *.
  assert (Hx : x == y * p).
  { unfold y. field. intros E. rewrite E in Hp. inversion Hp. }
  assert (H1 : y * p - (1 # 2) * p <= m * p).
  { assert (E : y * p - (1 # 2) * p == (y - (1 # 2)) * p) by ring.
    rewrite E. apply Qmult_le_compat_r; lra. }
  assert (H2 : m * p <= y * p + (1 # 2) * p).
  { assert (E : y * p + (1 # 2) * p == (y + (1 # 2)) * p) by ring.
    rewrite E. apply Qmult_le_compat_r; lra. }
  assert (H3 : 2 ^ 52 * p <= y * p) by (apply Qmult_le_compat_r; lra).
  rewrite Hx. unfold unitRoundoff.
  set (yp := y * p) in *. set (mp := m * p) in *.
  change (2 ^ 52) with (4503599627370496 # 1) in H3.
  split; lra.
Qed.

(** The first guess of the exponent leaves a significand of at least
    2^52. *)
Lemma log2_scaled (n : Z) (d : positive) :
  (0 < n)%Z ->
  2 ^ 52 <= (n # d) / 2 ^ (Z.log2 n - Z.log2 (Zpos d) - 53).
Proof.
  intros Hn.
  pose proof (Z.log2_spec n Hn) as [Ha _].
  pose proof (Z.log2_spec (Zpos d) ltac:(lia)) as [_ Hb].
  pose proof (Z.log2_nonneg n) as Ha0. pose proof (Z.log2_nonneg (Zpos d)) as Hb0.
  set (a := Z.log2 n) in *. set (b := Z.log2 (Zpos d)) in *.
  assert (H2 : ~ 2 == 0) by discriminate.
  assert (E : 2 ^ (a - b - 53) * (inject_Z (2 ^ b) * 2 ^ 53) == inject_Z (2 ^ a)).
  { rewrite !Zpower_Qpower by lia. change (inject_Z 2) with 2.
    replace (a - b - 53)%Z with (a + - (b + 53))%Z by lia.
    rewrite Qpower_plus, Qpower_opp, (Qpower_plus 2 b 53) by exact H2.
    field. apply Qpower_not_0. exact H2. }
  pose proof (pow2_pos (a - b - 53)) as Hp. set (p := 2 ^ (a - b - 53)) in *.
  assert (HA : inject_Z (2 ^ a) <= inject_Z n) by (rewrite <- Zle_Qle; lia).
  assert (HB : inject_Z (Zpos d) <= 2 * inject_Z (2 ^ b)).
  { apply le_twice. rewrite Z.pow_succ_r in Hb by lia. lia. }
  assert (HB0 : 0 < inject_Z (2 ^ b)).
  { change 0 with (inject_Z 0). rewrite <- Zlt_Qlt. apply Z.pow_pos_nonneg; lia. }
  assert (HD : 0 < inject_Z (Zpos d)) by reflexivity.
  apply Qle_shift_div_l; [exact Hp|].
  rewrite (Qmake_Qdiv n d). apply Qle_shift_div_l; [exact HD|].
  set (N := inject_Z n) in *. set (D := inject_Z (Zpos d)) in *.
  set (A := inject_Z (2 ^ a)) in *. set (B := inject_Z (2 ^ b)) in *.
  change (2 ^ 53) with (9007199254740992 # 1) in E.
  change (2 ^ 52) with (4503599627370496 # 1).
  assert (H : (4503599627370496 # 1) * p * D <= (4503599627370496 # 1) * p * (2 * B)).
  { apply Qmult_le_l; [|exact HB]. apply Qmult_lt_0_compat; [reflexivity | exact Hp]. }
  lra.
Qed.

(** The nearest double is within one part in 2^53 of the number. *)
Lemma roundPos_bounds (x : Q) :
  0 < x ->
  x * (1 - unitRoundoff) <= roundPos x /\ roundPos x <= x * (1 + unitRoundoff).
Proof.
  intros Hx. unfold roundPos. cbv zeta.
  assert (Hn : (0 < Qnum x)%Z).
  { destruct x as [n d]. unfold Qlt in Hx. cbn in *. lia. }
  set (e0 := (Z.log2 (Qnum x) - Z.log2 (Zpos (Qden x)) - 53)%Z).
  destruct (Qle_bool (2 ^ 53) (x / 2 ^ e0)) eqn:E.
  - apply Qle_bool_iff in E. apply round_scaled; [apply pow2_pos|].
    assert (H2 : ~ 2 == 0) by discriminate.
    assert (Ep : 2 ^ (e0 + 1) == 2 * 2 ^ e0).
    { rewrite Qpower_plus by exact H2. change (2 ^ 1) with 2. ring. }
    pose proof (pow2_pos e0) as Hp. rewrite Ep.
    assert (Ey : x / (2 * 2 ^ e0) == x / 2 ^ e0 * (1 # 2)).
    { field. intros E0. rewrite E0 in Hp. inversion Hp. }
    rewrite Ey. change (2 ^ 53) with (9007199254740992 # 1) in E.
    change (2 ^ 52) with (4503599627370496 # 1). lra.
  - apply round_scaled; [apply pow2_pos|].
    destruct x as [n d]. apply log2_scaled. exact Hn.
Qed.

(** The standard model of floating-point arithmetic for [roundDouble]. *)
Lemma roundDouble_bounds (x : Q) :
  0 <= x ->
  x * (1 - unitRoundoff) <= roundDouble x /\ roundDouble x <= x * (1 + unitRoundoff).
Proof.
  intros Hx. unfold roundDouble.
  destruct (Z.eqb_spec (Qnum x) 0) as [E0 | Hne].
  - assert (x == 0) by (destruct x as [n d]; cbn in E0; subst; reflexivity).
    unfold unitRoundoff. split; lra.
  - destruct (Z.ltb_spec (Qnum x) 0) as [Hneg | Hpos].
    + exfalso. destruct x as [n d]. unfold Qle in Hx. cbn in *. lia.
    + apply roundPos_bounds. destruct x as [n d]. unfold Qlt. cbn in *. lia.
Qed.

End Rounding.

(** ** Whole numbers are doubles as they are *)

Section WholeNumbers.

Local Open Scope Q_scope.

(** A whole number below 2^53 has all its bits in the significand, and
    rounding returns it. *)
Lemma roundHalfEven_whole (x : Q) (k : Z) :
  x == inject_Z k -> roundHalfEven x = k.
Proof.
  destruct x as [n d]. unfold Qeq, roundHalfEven. cbn. intros E.
  assert (En : n = (k * Zpos d)%Z) by lia. subst n.
  rewrite Z.div_mul, Z.mod_mul by lia.
  destruct (Z.ltb_spec (2 * 0) (Zpos d)); [reflexivity | lia].
Qed.

Lemma scaled_whole (x : Q) (n e : Z) :
  x == inject_Z n -> (e <= 0)%Z ->
  inject_Z (roundHalfEven (x / 2 ^ e)) * 2 ^ e == inject_Z n.
Proof.
  intros Hx He.
  assert (H2 : ~ 2 == 0) by discriminate.
  assert (E : x / 2 ^ e == inject_Z (n * 2 ^ (- e))).
  { rewrite inject_Z_mult, Zpower_Qpower by lia. change (inject_Z 2) with 2.
    rewrite Qpower_opp, Hx. field. try split; apply Qpower_not_0; exact H2. }
  rewrite (roundHalfEven_whole _ _ E).
  rewrite inject_Z_mult, Zpower_Qpower by lia. change (inject_Z 2) with 2.
  rewrite Qpower_opp. field. try split; apply Qpower_not_0; exact H2.
Qed.

Lemma roundPos_whole (x : Q) (n : Z) :
  x == inject_Z n -> (0 < n < 2 ^ 53)%Z -> roundPos x == inject_Z n.
Proof.
  intros Hx Hn. unfold roundPos. cbv zeta.
  set (e0 := (Z.log2 (Qnum x) - Z.log2 (Zpos (Qden x)) - 53)%Z).
  destruct (Qle_bool (2 ^ 53) (x / 2 ^ e0)) eqn:E.
  - apply scaled_whole; [exact Hx|].
    apply Qle_bool_iff in E.
    destruct (Z.le_gt_cases 0 e0) as [H0|H0]; [exfalso | lia].
    assert (H1 : 1 <= 2 ^ e0) by (apply Qpower_1_le; [discriminate | exact H0]).
    assert (Hlt : inject_Z n < inject_Z (2 ^ 53)) by (rewrite <- Zlt_Qlt; lia).
    assert (Hp : 0 < 2 ^ e0) by (apply Qpower_0_lt; reflexivity).
    assert (Hm : 2 ^ 53 * 2 ^ e0 <= x / 2 ^ e0 * 2 ^ e0).
    { apply Qmult_le_compat_r; [exact E | apply Qlt_le_weak, Hp]. }
    assert (Ex : x / 2 ^ e0 * 2 ^ e0 == x).
    { field. intros E0. rewrite E0 in Hp. inversion Hp. }
    rewrite Ex in Hm.
    rewrite Hx in Hm. change (inject_Z (2 ^ 53)) with (9007199254740992 # 1) in Hlt.
    change (2 ^ 53) with (9007199254740992 # 1) in Hm.
    set (p := 2 ^ e0) in *. set (N := inject_Z n) in *.
    clear E Ex. clearbody p N. lra.
  - apply scaled_whole; [exact Hx|].
    assert (Ea : Qnum x = (n * Zpos (Qden x))%Z).
    { destruct x as [a d]. unfold Qeq in Hx. cbn in *. lia. }
    pose proof (Z.log2_mul_above n (Zpos (Qden x)) ltac:(lia) ltac:(lia)) as Hm.
    assert (Hl : (Z.log2 n < 53)%Z) by (apply Z.log2_lt_pow2; lia).
    subst e0. rewrite Ea. lia.
Qed.

Lemma roundDouble_whole (x : Q) (n : Z) :
  x == inject_Z n -> (0 <= n < 2 ^ 53)%Z -> roundDouble x == inject_Z n.
Proof.
  intros Hx Hn. unfold roundDouble.
  assert (En : (Qnum x = n * Zpos (Qden x))%Z).
  { destruct x as [a d]. unfold Qeq in Hx. cbn in *. lia. }
  destruct (Z.eqb_spec (Qnum x) 0) as [E0 | Hne].
  - assert (n = 0%Z) by nia. subst n. reflexivity.
  - destruct (Z.ltb_spec (Qnum x) 0) as [Hneg | Hpos]; [nia|].
    apply roundPos_whole; [exact Hx | nia].
Qed.

End WholeNumbers.

(** ** Shares and sums in doubles *)

Section DoubleSums.

Local Open Scope Q_scope.

Implicit Types (d : list Entry) (counts : list (string * nat)).

Lemma raised_S (n : nat) : raised (S n) = raised n * (1 + unitRoundoff).
Proof. reflexivity. Qed.

Lemma lowered_S (n : nat) : lowered (S n) = lowered n * (1 - unitRoundoff).
Proof. reflexivity. Qed.

Lemma raised_ge_1 (n : nat) : 1 <= raised n.
Proof.
  induction n as [|n IH]; [apply Qle_refl|].
  rewrite raised_S. unfold unitRoundoff. lra.
Qed.

Lemma lowered_range (n : nat) : 0 < lowered n /\ lowered n <= 1.
Proof.
  induction n as [|n [IH1 IH2]]; [split; [reflexivity | apply Qle_refl]|].
  rewrite lowered_S. unfold unitRoundoff. split; lra.
Qed.

Lemma raised_mono (n m : nat) : (n <= m)%nat -> raised n <= raised m.
Proof.
  induction 1 as [|m _ IH]; [apply Qle_refl|].
  rewrite raised_S. pose proof (raised_ge_1 m). unfold unitRoundoff. lra.
Qed.

Lemma lowered_mono (n m : nat) : (n <= m)%nat -> lowered m <= lowered n.
Proof.
  induction 1 as [|m _ IH]; [apply Qle_refl|].
  rewrite lowered_S. pose proof (lowered_range m) as [H _].
  unfold unitRoundoff. lra.
Qed.

(** A share as the machine computes it against the exact share: two
    rounded operations. *)
Lemma percentDouble_bounds (count total : nat) :
  percent count total * lowered 2 <= percentDouble count total /\
  percentDouble count total <= percent count total * raised 2.
Proof.
  unfold percent, percentDouble.
  destruct (Nat.ltb_spec 0 total) as [H|H]; [|split; discriminate].
  assert (Hq : 0 <= num count / num total).
  { apply Qle_shift_div_l; [now apply num_pos|].
    rewrite Qmult_0_l. apply num_nonneg. }
  set (q := num count / num total) in *.
  destruct (roundDouble_bounds q Hq) as [H1 H2].
  set (r := roundDouble q) in *.
  assert (Hr : 0 <= r * 100) by (unfold unitRoundoff in H1; lra).
  destruct (roundDouble_bounds (r * 100) Hr) as [H3 H4].
  set (p := roundDouble (r * 100)) in *. clearbody q r p.
  cbn [raised lowered]. unfold unitRoundoff in *. split; lra.
Qed.

Lemma percentDouble_nonneg (count total : nat) : 0 <= percentDouble count total.
Proof.
  destruct (percentDouble_bounds count total) as [H _].
  pose proof (percent_nonneg count total) as Hp.
  set (p := percent count total) in *. set (r := percentDouble count total) in *.
  clearbody p r. cbn [lowered] in H. unfold unitRoundoff in H. lra.
Qed.

Lemma sumValues_percentDouble (total : nat) counts :
  sumValues (map (fun '(k, count) => mkEntry k (percent count total)) counts)
    * lowered 2
  <= sumValues (map (fun '(k, count) => mkEntry k (percentDouble count total)) counts)
  /\
  sumValues (map (fun '(k, count) => mkEntry k (percentDouble count total)) counts)
  <= sumValues (map (fun '(k, count) => mkEntry k (percent count total)) counts)
     * raised 2.
Proof.
  induction counts as [|[k n] rest [IH1 IH2]]; [split; discriminate|].
  cbn [map]. rewrite !sumValues_cons. cbn [value].
  destruct (percentDouble_bounds n total) as [H1 H2].
  set (s := sumValues _) in *. set (s' := sumValues _) in *.
  set (p := percent n total) in *. set (p' := percentDouble n total) in *.
  clearbody s s' p p'. cbn [raised lowered] in *. unfold unitRoundoff in *.
  split; lra.
Qed.

(** The shares of a table with at least one count, in doubles: their sum
    is 100 up to the two roundings of every share. *)
Lemma sumValues_sharesDouble counts :
  (0 < totalCount counts)%nat ->
  100 * lowered 2 <= sumValues (sharesDouble counts) /\
  sumValues (sharesDouble counts) <= 100 * raised 2.
Proof.
  intros H. pose proof (sumValues_shares counts H) as E.
  destruct (sumValues_percentDouble (totalCount counts) counts) as [H1 H2].
  unfold shares in E. unfold sharesDouble. rewrite E in H1, H2. split; assumption.
Qed.

Lemma sharesDouble_nonneg counts :
  Forall (fun e => 0 <= value e) (sharesDouble counts).
Proof.
  unfold sharesDouble. apply Forall_forall. intros e Hin.
  apply list_elem_of_fmap in Hin as [[k n] [-> _]]. apply percentDouble_nonneg.
Qed.

(** Adding values that are not negative one rounded addition after the
    other: every addition can raise or lower the sum by one part in
    [2 ^ 53]. *)
Lemma sumDouble_from d :
  Forall (fun e => 0 <= value e) d ->
  forall (acc exact : Q) (j : nat),
    0 <= exact -> exact * lowered j <= acc -> acc <= exact * raised j ->
    (exact + sumValues d) * lowered (j + length d)
    <= foldl (fun sum e => roundDouble (sum + value e)) acc d /\
    foldl (fun sum e => roundDouble (sum + value e)) acc d
    <= (exact + sumValues d) * raised (j + length d).
Proof.
  induction 1 as [|x d Hx _ IH]; intros acc exact j H0 Hlo Hhi.
  - cbn [foldl length sumValues foldr]. rewrite Nat.add_0_r.
    assert (E : exact + 0 == exact) by ring. rewrite E. split; assumption.
  - cbn [foldl length]. rewrite sumValues_cons, Nat.add_succ_r.
    pose proof (raised_ge_1 j) as Hr. pose proof (lowered_range j) as [Hl0 Hl1].
    assert (Hlow : exact * lowered j + value x * lowered j <= acc + value x).
    { assert (lowered j * value x <= 1 * value x)
        by (apply Qmult_le_compat_r; [exact Hl1 | exact Hx]).
      lra. }
    assert (Hhigh : acc + value x <= exact * raised j + value x * raised j).
    { assert (1 * value x <= raised j * value x)
        by (apply Qmult_le_compat_r; [exact Hr | exact Hx]).
      lra. }
    assert (Hpos : 0 <= acc + value x).
    { assert (0 <= exact * lowered j)
        by (apply Qmult_le_0_compat; [exact H0 | apply Qlt_le_weak, Hl0]).
      lra. }
    destruct (roundDouble_bounds _ Hpos) as [H1 H2].
    destruct (IH (roundDouble (acc + value x)) (exact + value x) (S j)) as [IH1 IH2].
    + lra.
    + rewrite lowered_S.
      assert (E : (exact + value x) * (lowered j * (1 - unitRoundoff))
                  == (exact * lowered j + value x * lowered j) * (1 - unitRoundoff))
        by ring.
      rewrite E. set (a := exact * lowered j + value x * lowered j) in *.
      set (b := acc + value x) in *. set (r := roundDouble b) in *.
      clearbody a b r. unfold unitRoundoff in *. lra.
    + rewrite raised_S.
      assert (E : (exact + value x) * (raised j * (1 + unitRoundoff))
                  == (exact * raised j + value x * raised j) * (1 + unitRoundoff))
        by ring.
      rewrite E. set (a := exact * raised j + value x * raised j) in *.
      set (b := acc + value x) in *. set (r := roundDouble b) in *.
      clearbody a b r. unfold unitRoundoff in *. lra.
    + assert (E : exact + (value x + sumValues d) == exact + value x + sumValues d)
        by ring.
      rewrite E. cbn [Nat.add] in IH1, IH2. split; assumption.
Qed.

Lemma sumDouble_bounds d :
  Forall (fun e => 0 <= value e) d ->
  sumValues d * lowered (length d) <= sumDouble d /\
  sumDouble d <= sumValues d * raised (length d).
Proof.
  intros Hd. destruct (sumDouble_from d Hd 0 0 0%nat) as [H1 H2];
    try discriminate.
  cbn [Nat.add] in H1, H2. unfold sumDouble.
  assert (E : 0 + sumValues d == sumValues d) by ring.
  rewrite E in H1, H2. split; assumption.
Qed.

End DoubleSums.

(** ** Sums of the charts *)

Section ChartSums.

Local Open Scope Q_scope.

Implicit Types (d : list Entry) (counts : list (string * nat)).

Lemma raised_add (n m : nat) : raised (n + m) == raised n * raised m.
Proof.
  induction m as [|m IH].
  - rewrite Nat.add_0_r. cbn [raised]. ring.
  - rewrite Nat.add_succ_r, !raised_S, IH. ring.
Qed.

Lemma lowered_add (n m : nat) : lowered (n + m) == lowered n * lowered m.
Proof.
  induction m as [|m IH].
  - rewrite Nat.add_0_r. cbn [lowered]. ring.
  - rewrite Nat.add_succ_r, !lowered_S, IH. ring.
Qed.

(** Ten rounded operations stay well inside the tolerance. *)
Lemma ten_roundings_within_tolerance (n : nat) (s : Q) :
  (n <= 10)%nat -> 100 * lowered n <= s -> s <= 100 * raised n ->
  within_tolerance s.
Proof.
  intros Hn Hlo Hhi. unfold within_tolerance. apply Qabs_Qle_condition.
  pose proof (lowered_mono n 10 Hn) as Hl. pose proof (raised_mono n 10 Hn) as Hr.
  assert (Hl10 : 1 - tolerance <= lowered 10)
    by (apply Qle_bool_imp_le; vm_compute; reflexivity).
  assert (Hr10 : raised 10 <= 1 + tolerance)
    by (apply Qle_bool_imp_le; vm_compute; reflexivity).
  set (l := lowered n) in *. set (l10 := lowered 10) in *.
  set (r := raised n) in *. set (r10 := raised 10) in *.
  clearbody l l10 r r10. unfold tolerance in *. split; lra.
Qed.

Lemma rounded_sum_of_shares d :
  Forall (fun e => 0 <= value e) d -> sumValues d <= 100 * raised 2 ->
  sumDouble d <= 100 * raised (2 + length d).
Proof.
  intros Hd Hs. destruct (sumDouble_bounds d Hd) as [_ H].
  rewrite raised_add. pose proof (raised_ge_1 (length d)) as Hr.
  assert (H' : sumValues d * raised (length d)
               <= 100 * raised 2 * raised (length d)).
  { apply Qmult_le_compat_r; [exact Hs | lra]. }
  lra.
Qed.

Lemma rounded_sum_of_all_shares d :
  Forall (fun e => 0 <= value e) d -> 100 * lowered 2 <= sumValues d ->
  100 * lowered (2 + length d) <= sumDouble d.
Proof.
  intros Hd Hs. destruct (sumDouble_bounds d Hd) as [H _].
  rewrite lowered_add. pose proof (lowered_range (length d)) as [Hl _].
  assert (H' : 100 * lowered 2 * lowered (length d)
               <= sumValues d * lowered (length d)).
  { apply Qmult_le_compat_r; [exact Hs | lra]. }
  lra.
Qed.

(** A distribution of at most eight values that are not negative and
    whose exact sum is 100 up to two roundings sums to 100 within the
    tolerance. *)
Lemma all_shares_sum_to_100 d :
  Forall (fun e => 0 <= value e) d -> (length d <= 8)%nat ->
  100 * lowered 2 <= sumValues d -> sumValues d <= 100 * raised 2 ->
  sumsTo100 d.
Proof.
  intros Hd Hlen Hlo Hhi. split.
  - apply (ten_roundings_within_tolerance 2); [lia | exact Hlo | exact Hhi].
  - apply (ten_roundings_within_tolerance (2 + length d)); [lia | |].
    + now apply rounded_sum_of_all_shares.
    + now apply rounded_sum_of_shares.
Qed.

Lemma some_shares_sum_to_at_most_100 d :
  Forall (fun e => 0 <= value e) d -> (length d <= 8)%nat ->
  sumValues d <= 100 * raised 2 -> sumsToAtMost100 d.
Proof.
  intros Hd Hlen Hhi.
  assert (Hr10 : raised 10 <= 1 + tolerance)
    by (apply Qle_bool_imp_le; vm_compute; reflexivity).
  pose proof (raised_mono 2 10 ltac:(lia)) as H2.
  pose proof (raised_mono (2 + length d) 10 ltac:(lia)) as Hn.
  pose proof (rounded_sum_of_shares d Hd Hhi) as Hs.
  set (r2 := raised 2) in *. set (rn := raised (2 + length d)) in *.
  set (r10 := raised 10) in *. clearbody r2 rn r10.
  unfold sumsToAtMost100, tolerance in *. split; lra.
Qed.

(** The sorted shares of a table of at most eight keys. *)
Lemma sorted_shares_sum_to_100 counts :
  (0 < totalCount counts)%nat -> (length counts <= 8)%nat ->
  sumsTo100 (sortDesc (sharesDouble counts)).
Proof.
  intros H Hlen. destruct (sumValues_sharesDouble counts H) as [Hlo Hhi].
  apply all_shares_sum_to_100.
  - eapply Permutation_Forall; [symmetry; apply sortDesc_perm|].
    apply sharesDouble_nonneg.
  - rewrite (Permutation_length (sortDesc_perm _)). unfold sharesDouble.
    now rewrite length_map.
  - now rewrite sumValues_sortDesc.
  - now rewrite sumValues_sortDesc.
Qed.

(** The two charts that keep the five largest shares. *)
Lemma top5_sum_double counts :
  (0 < totalCount counts)%nat ->
  sumsToAtMost100 (take 5 (sortDesc (sharesDouble counts))) /\
  ((length counts <= 5)%nat ->
   sumsTo100 (take 5 (sortDesc (sharesDouble counts)))).
Proof.
  intros H. destruct (sumValues_sharesDouble counts H) as [Hlo Hhi].
  assert (Hd : Forall (fun e => 0 <= value e) (sortDesc (sharesDouble counts))).
  { eapply Permutation_Forall; [symmetry; apply sortDesc_perm|].
    apply sharesDouble_nonneg. }
  split.
  - apply some_shares_sum_to_at_most_100.
    + now apply Forall_take.
    + rewrite length_take. lia.
    + eapply Qle_trans; [apply sumValues_take_le, Hd|].
      now rewrite sumValues_sortDesc.
  - intros Hlen. rewrite take_ge.
    + apply sorted_shares_sum_to_100; [exact H | lia].
    + rewrite (Permutation_length (sortDesc_perm _)). unfold sharesDouble.
      now rewrite length_map.
Qed.

Lemma keys_length counts counts' : counts.*1 = counts'.*1 -> length counts = length counts'.
Proof. intros E. now rewrite <- (length_fmap fst counts), E, length_fmap. Qed.

(** Whole numbers below [2 ^ 53] are added without rounding. *)
Lemma sumDouble_counts counts (acc : Q) (a : nat) :
  acc == num a -> (Z.of_nat (a + sum_list (counts.*2)) < 2 ^ 53)%Z ->
  foldl (fun sum e => roundDouble (sum + value e)) acc
        (map (fun '(key, count) => mkEntry key (num count)) counts)
  == num (a + sum_list (counts.*2)).
Proof.
  revert acc a. induction counts as [|[k n] rest IH]; intros acc a Ha Hlt.
  - cbn [map foldl]. rewrite Ha. cbn. now rewrite Nat.add_0_r.
  - cbn [map foldl value]. change (sum_list ((k, n) :: rest).*2)
      with (n + sum_list (rest.*2))%nat in *.
    rewrite Nat.add_assoc in *. apply IH; [|exact Hlt].
    apply roundDouble_whole; [|lia].
    rewrite Ha. symmetry. apply num_add.
Qed.

Lemma sum_positive counts :
  sum_list ((List.filter (fun kc => (0 <? kc.2)%nat) counts).*2)
  = totalCount counts.
Proof.
  rewrite totalCount_sum. induction counts as [|[k n] rest IH]; [reflexivity|].
  cbn [List.filter snd]. destruct (Nat.ltb_spec 0 n) as [Hn|Hn].
  - change (sum_list ((k, n) :: ?l).*2) with (n + sum_list (l.*2))%nat.
    now rewrite IH.
  - change (sum_list ((k, n) :: rest).*2) with (n + sum_list (rest.*2))%nat.
    rewrite IH. lia.
Qed.

Lemma sumDouble_positive counts :
  (Z.of_nat (totalCount counts) < 2 ^ 53)%Z ->
  sumDouble (map (fun '(key, count) => mkEntry key (num count))
                 (List.filter (fun kc => (0 <? kc.2)%nat) counts))
  == num (totalCount counts).
Proof.
  intros H. unfold sumDouble. rewrite <- sum_positive in *.
  apply (sumDouble_counts _ 0 0%nat); [reflexivity | exact H].
Qed.

End ChartSums.

(** Rounding is why the sum is 100 only within a tolerance: three equal
    shares are 33.33333333333333 each and add up to 99.99999999999999,
    and the shares of nine rows and two rows add up to
    100.00000000000001. *)
Lemma rounded_shares_miss_100 :
  (exists d, calculateWhoDisposeDataDouble threeDisposers = Ok d /\
             length d = 3%nat /\
             Forall (fun e => (value e == 2345624805922133 # 70368744177664)%Q) d /\
             (sumDouble d == 7036874417766399 # 70368744177664)%Q /\
             (sumDouble d < 100)%Q) /\
  (sumDouble (calculateProblemsDataDouble nineAndTwo)
   == 7036874417766401 # 70368744177664)%Q /\
  (100 < sumDouble (calculateProblemsDataDouble nineAndTwo))%Q.
Proof.
  split; [|split].
  - eexists. split; [vm_compute; reflexivity|].
    split; [reflexivity|].
    split; [repeat (constructor; [vm_compute; reflexivity|]); constructor|].
    split; vm_compute; reflexivity.
  - vm_compute. reflexivity.
  - vm_compute. reflexivity.
Qed.

(** C1, the counterexample. Six rows that name six different disposers
    give six categories with one count each; the chart keeps five of them,
    each 16.666666666666664, and they add up to 83.33333333333331, far
    outside the tolerance around 100. The waste-type chart does not compute
    shares at all: one row with one flag gives the sum 1. *)
Lemma top5_of_six_sums_outside_tolerance :
  (exists counts d,
      disposeCount sixDisposers = Ok counts /\ (0 < totalCount counts)%nat /\
      calculateWhoDisposeDataDouble sixDisposers = Ok d /\
      (sumValues d == 11728124029610665 # 140737488355328)%Q /\
      (sumDouble d == 1466015503701333 # 17592186044416)%Q /\
      ~ within_tolerance (sumValues d) /\ ~ within_tolerance (sumDouble d)) /\
  ((0 < totalCount (wasteTypeCount [othersRow]))%nat /\
   (sumValues (calculateWasteTypeCounts [othersRow]) == 1)%Q /\
   (sumDouble (calculateWasteTypeCounts [othersRow]) == 1)%Q /\
   ~ within_tolerance (sumValues (calculateWasteTypeCounts [othersRow])) /\
   ~ within_tolerance (sumDouble (calculateWasteTypeCounts [othersRow]))).
Proof.
  split.
  - eexists _, _. split; [vm_compute; reflexivity|].
    split; [vm_compute; lia|]. split; [vm_compute; reflexivity|].
    split; [vm_compute; reflexivity|]. split; [vm_compute; reflexivity|].
    split; intros H; apply Qle_bool_iff in H; vm_compute in H; discriminate.
  - split; [vm_compute; lia|].
    split; [vm_compute; reflexivity|]. split; [vm_compute; reflexivity|].
    split; intros H; apply Qle_bool_iff in H; vm_compute in H; discriminate.
Qed.

(** C1, amended. The values and the sums are those of the doubles. For
    every record set with a positive total count: the problems, the reasons
    and the solutions chart sum to 100 within the floating-point tolerance
    (1e-9, relative), whether the values are added exactly or with rounded
    additions; the charts of the disposers and of the settings, cut to the
    five largest shares, sum to 100 within the tolerance when at most five
    categories were counted, and to no more than 100 plus the tolerance
    otherwise; the waste-type chart reports counts, and sums to the total
    count (which is below 2^53, so that the rounded additions are exact). *)
Theorem charts_sum_within_tolerance (data : list (gmap string JsVal)) :
  ((0 < totalCount (problemsCount data))%nat ->
   sumsTo100 (calculateProblemsDataDouble data)) /\
  ((0 < totalCount (reasonsCount data))%nat ->
   sumsTo100 (calculateReasonsDataDouble data)) /\
  (forall counts, solutionCount data = Ok counts -> (0 < totalCount counts)%nat ->
     exists d, calculateSolutionDataDouble data = Ok d /\ sumsTo100 d) /\
  (forall counts, disposeCount data = Ok counts -> (0 < totalCount counts)%nat ->
     exists d, calculateWhoDisposeDataDouble data = Ok d /\ sumsToAtMost100 d /\
               ((length counts <= 5)%nat -> sumsTo100 d)) /\
  (forall counts, settingCount data = Ok counts -> (0 < totalCount counts)%nat ->
     exists d, calculateSettingDataDouble data = Ok d /\ sumsToAtMost100 d /\
               ((length counts <= 5)%nat -> sumsTo100 d)) /\
  ((sumValues (calculateWasteTypeCounts data)
    == num (totalCount (wasteTypeCount data)))%Q /\
   ((Z.of_nat (totalCount (wasteTypeCount data)) < 2 ^ 53)%Z ->
    (sumDouble (calculateWasteTypeCounts data)
     == num (totalCount (wasteTypeCount data)))%Q)).
Proof.
  repeat match goal with |- _ /\ _ => split end.
  - intros H. apply sorted_shares_sum_to_100; [exact H|].
    unfold problemsCount. rewrite (keys_length _ _ (scanFlags_keys _ _ _)).
    simpl. lia.
  - intros H. apply sorted_shares_sum_to_100; [exact H|].
    unfold reasonsCount. rewrite (keys_length _ _ (scanFlags_keys _ _ _)).
    simpl. lia.
  - intros counts Hc H. unfold calculateSolutionDataDouble. rewrite Hc. cbn [bind].
    destruct (Nat.eqb_spec (totalCount counts) 0) as [E|_]; [lia|].
    eexists. split; [reflexivity|].
    apply (sorted_shares_sum_to_100 counts H).
    rewrite <- (length_fmap fst counts), (solutionCount_keys data counts Hc).
    simpl. lia.
  - intros counts Hc H. unfold calculateWhoDisposeDataDouble. rewrite Hc. cbn [bind].
    eexists. split; [reflexivity | now apply top5_sum_double].
  - intros counts Hc H. unfold calculateSettingDataDouble. rewrite Hc. cbn [bind].
    eexists. split; [reflexivity | now apply top5_sum_double].
  - apply sumValues_positive.
  - apply sumDouble_positive.
Qed.

Lemma charts_sum_within_tolerance_witness :
  sumsTo100 (calculateProblemsDataDouble nineAndTwo) /\
  sumsTo100 (calculateReasonsDataDouble [narrowRoadRow]) /\
  (exists d, calculateSolutionDataDouble [moreBinsRow] = Ok d /\ sumsTo100 d) /\
  (exists d, calculateWhoDisposeDataDouble sixDisposers = Ok d /\ sumsToAtMost100 d) /\
  (exists d, calculateWhoDisposeDataDouble threeDisposers = Ok d /\ sumsTo100 d) /\
  (exists d, calculateSettingDataDouble [marketRow] = Ok d /\ sumsTo100 d) /\
  (sumDouble (calculateWasteTypeCounts [othersRow])
   == num (totalCount (wasteTypeCount [othersRow])))%Q.
Proof.
  split; [|split; [|split; [|split; [|split; [|split]]]]].
  - apply (proj1 (charts_sum_within_tolerance nineAndTwo)). vm_compute. lia.
  - apply (proj1 (proj2 (charts_sum_within_tolerance [narrowRoadRow]))).
    vm_compute. lia.
  - apply (proj1 (proj2 (proj2 (charts_sum_within_tolerance [moreBinsRow])))
             (bump "Bins and Facilites" solutionCount0)).
    + vm_compute. reflexivity.
    + vm_compute. lia.
  - destruct (proj1 (proj2 (proj2 (proj2 (charts_sum_within_tolerance sixDisposers))))
                [("Vendors / Small Stalls", 1%nat); ("People from Outside", 1%nat);
                 ("Passing Crowd / Vehicle People", 1%nat);
                 ("Households and Vendors Mixed", 1%nat);
                 ("Construction Waste", 1%nat);
                 ("Showrooms / Commercial Establishments", 1%nat)])
      as (d & Hd & Hle & _).
    + vm_compute. reflexivity.
    + vm_compute. lia.
    + exists d. split; [exact Hd | exact Hle].
  - destruct (proj1 (proj2 (proj2 (proj2 (charts_sum_within_tolerance threeDisposers))))
                [("Vendors / Small Stalls", 1%nat); ("People from Outside", 1%nat);
                 ("Passing Crowd / Vehicle People", 1%nat)])
      as (d & Hd & _ & Heq).
    + vm_compute. reflexivity.
    + vm_compute. lia.
    + exists d. split; [exact Hd | apply Heq; simpl; lia].
  - destruct (proj1 (proj2 (proj2 (proj2 (proj2 (charts_sum_within_tolerance [marketRow])))))
                [("Market / Commercial Area", 1%nat)])
      as (d & Hd & _ & Heq).
    + vm_compute. reflexivity.
    + vm_compute. lia.
    + exists d. split; [exact Hd | apply Heq; simpl; lia].
  - apply (proj2 (proj2 (proj2 (proj2 (proj2 (proj2
             (charts_sum_within_tolerance [othersRow]))))))).
    vm_compute. reflexivity.
Defined.

(** ** The empty record set *)

(** C3, the counterexample. On no rows the problems chart is the five
    categories with the value 0 each: not the empty sequence, and not the
    uniform fallback, whose values would be 20. *)
Lemma problems_of_nothing_neither_empty_nor_uniform :
  calculateProblemsData [] <> [] /\ ~ isUniformFallback (calculateProblemsData []).
Proof.
  split; [discriminate|]. intros [_ H]. inversion H as [|e d He _]; subst.
  vm_compute in He. discriminate.
Qed.

(** C3, amended. On the empty record set no chart function throws and no
    division by zero takes place: the waste-type chart, the chart of the
    disposers and the chart of the settings are empty, the solutions chart
    is the uniform fallback of eight shares of 100/8, and the problems and
    the reasons charts list every known category with the value 0. *)
Theorem charts_of_nothing :
  calculateWasteTypeCounts [] = [] /\
  calculateWhoDisposeData [] = Ok [] /\
  calculateSettingData [] = Ok [] /\
  (exists d, calculateSolutionData [] = Ok d /\ length d = 8%nat /\ isUniformFallback d) /\
  (map name (calculateProblemsData []) = problemsCount0.*1 /\
   Forall (fun e => value e = 0%Q) (calculateProblemsData [])) /\
  (map name (calculateReasonsData []) = reasonsCount0.*1 /\
   Forall (fun e => value e = 0%Q) (calculateReasonsData [])) /\
  (forall count : nat, percent count 0 = 0%Q).
Proof.
  repeat match goal with |- _ /\ _ => split end; try reflexivity.
  - eexists. split; [vm_compute; reflexivity|]. split; [reflexivity|].
    split; [discriminate|]. repeat constructor.
  - vm_compute. repeat constructor.
  - vm_compute. repeat constructor.
Qed.

(** ** Which categories a chart lists *)

(** C5, the counterexample. The waste-type chart filters on a positive
    count: for one row with the flag "Others" alone, the known category
    "Organic & Wet" is not in the output. And the solutions chart, a
    free-text classification, lists "Neutral Feedback" for a row in which
    nothing was classified so. *)
Lemma waste_chart_drops_solutions_chart_keeps :
  ("Organic & Wet" ∈ wasteTypeToColumnMap.*1 /\
   ~ "Organic & Wet" ∈ map name (calculateWasteTypeCounts [othersRow])) /\
  (exists d, calculateSolutionData [moreBinsRow] = Ok d /\
             "Neutral Feedback" ∈ map name d /\
             contribution moreBinsRow = ["Bins and Facilites"]).
Proof.
  split; [split|].
  - apply elem_of_cons. now left.
  - vm_compute. intros H. apply list_elem_of_singleton in H. discriminate.
  - eexists. split; [vm_compute; reflexivity|]. split; [|vm_compute; reflexivity].
    cbn [map name]. do 7 (apply elem_of_cons; right). apply elem_of_cons. now left.
Qed.

(** C5, amended. The problems and the reasons chart start from a table
    with every known category at 0 and list all of them, whatever the
    counts. The waste-type chart starts the same way but lists the
    categories with a positive count only. The charts of the disposers and
    of the settings list at most five categories, each found for some row.
    The solutions chart lists its eight known categories. *)
Theorem charts_categories (data : list (gmap string JsVal)) :
  (Forall (fun kc => kc.2 = 0%nat) problemsCount0 /\
   map name (calculateProblemsData data) ≡ₚ problemsCount0.*1) /\
  (Forall (fun kc => kc.2 = 0%nat) reasonsCount0 /\
   map name (calculateReasonsData data) ≡ₚ reasonsCount0.*1) /\
  (Forall (fun kc => kc.2 = 0%nat) (wasteTypeCount []) /\
   (wasteTypeCount data).*1 = wasteTypeToColumnMap.*1 /\
   map name (calculateWasteTypeCounts data)
   = (List.filter (fun kc => (0 <? kc.2)%nat) (wasteTypeCount data)).*1) /\
  (forall d, calculateWhoDisposeData data = Ok d ->
     (length d <= 5)%nat /\
     forall e, e ∈ d ->
       exists row, row ∈ data /\
                   categorize (js_or (get row "Who Dispose") (JStr "")) = Ok (name e)) /\
  (forall d, calculateSettingData data = Ok d ->
     (length d <= 5)%nat /\
     forall e, e ∈ d ->
       exists row, row ∈ data /\
         categorizeLocation
           (js_or (js_or (js_or (get row "In_what_setting_is_the_GVP_pre")
                                (get row "Location Type"))
                         (get row "other"))
                  (JStr "")) = Ok (name e)) /\
  (forall d, calculateSolutionData data = Ok d ->
     map name d ≡ₚ map category solutionCategories).
Proof.
  repeat match goal with |- _ /\ _ => split end.
  - repeat constructor.
  - unfold calculateProblemsData, problemsCount.
    now rewrite names_sortDesc, names_shares, scanFlags_keys.
  - repeat constructor.
  - unfold calculateReasonsData, reasonsCount.
    now rewrite names_sortDesc, names_shares, scanFlags_keys.
  - repeat constructor.
  - apply wasteTypeCount_keys.
  - apply names_positive.
  - intros d H. unfold calculateWhoDisposeData in H.
    destruct (disposeCount data) as [counts|] eqn:Hc; [|discriminate].
    apply Ok_inj in H. subst d. split; [rewrite length_take; lia|].
    intros e He. apply top5_names in He.
    destruct (classified_keys
                (fun row => categorize (js_or (get row "Who Dispose") (JStr "")))
                data [] counts Hc (name e) He) as [Hin | Hrow]; [inversion Hin | exact Hrow].
  - intros d H. unfold calculateSettingData in H.
    destruct (settingCount data) as [counts|] eqn:Hc; [|discriminate].
    apply Ok_inj in H. subst d. split; [rewrite length_take; lia|].
    intros e He. apply top5_names in He.
    destruct (classified_keys
                (fun row =>
                   categorizeLocation
                     (js_or (js_or (js_or (get row "In_what_setting_is_the_GVP_pre")
                                          (get row "Location Type"))
                                   (get row "other"))
                            (JStr "")))
                data [] counts Hc (name e) He) as [Hin | Hrow]; [inversion Hin | exact Hrow].
  - intros d. unfold calculateSolutionData.
    destruct (solutionCount data) as [counts|] eqn:Hc; [|discriminate]. cbn [bind].
    destruct (totalCount counts =? 0)%nat; intros H; apply Ok_inj in H; subst d.
    + rewrite map_map. reflexivity.
    + change (map name (sortDesc (shares counts)) ≡ₚ map category solutionCategories).
      rewrite names_sortDesc, names_shares. now rewrite (solutionCount_keys data counts Hc).
Qed.

Lemma charts_categories_witness :
  exists d, calculateSolutionData [moreBinsRow] = Ok d /\
            map name d ≡ₚ map category solutionCategories.
Proof.
  eexists. split; [vm_compute; reflexivity|].
  apply (proj2 (proj2 (proj2 (proj2 (proj2 (charts_categories [moreBinsRow])))))).
  vm_compute. reflexivity.
Defined.

(** ** The fallback and the rows of the solutions chart *)

(** C7. When the counts of the solutions chart add up to 0, as they do on
    the empty record set, [calculateSolutionData] returns the eight
    categories of [solutionCategories], in their order, each with the value
    100/8, which is 12.5. *)
Theorem solution_fallback_when_total_is_zero
    (data : list (gmap string JsVal)) (counts : list (string * nat)) :
  solutionCount data = Ok counts ->
  totalCount counts = 0%nat ->
  exists d, calculateSolutionData data = Ok d /\
            map name d = map category solutionCategories /\
            length d = 8%nat /\
            Forall (fun e => (value e == 12.5)%Q) d.
Proof.
  intros Hc Htotal. unfold calculateSolutionData. rewrite Hc. cbn [bind].
  rewrite Htotal. cbn [Nat.eqb]. eexists. split; [reflexivity|].
  split; [reflexivity|]. split; [reflexivity|]. repeat constructor.
Qed.

Lemma solution_fallback_witness :
  (exists d, calculateSolutionData [] = Ok d /\
             map name d = map category solutionCategories /\
             length d = 8%nat /\ Forall (fun e => (value e == 12.5)%Q) d) /\
  (exists d, calculateSolutionData [plantTreesRow] = Ok d /\
             map name d = map category solutionCategories /\
             length d = 8%nat /\ Forall (fun e => (value e == 12.5)%Q) d).
Proof.
  split.
  - apply (solution_fallback_when_total_is_zero [] solutionCount0);
      vm_compute; reflexivity.
  - apply (solution_fallback_when_total_is_zero [plantTreesRow] solutionCount0);
      vm_compute; reflexivity.
Defined.

(** C8, the counterexample. A row whose first solution column reads "Plant
    more trees" has one column that is not empty and not "N/A", and adds
    nothing to the counts: no keyword of [solutionCategories] is in that
    text. *)
Lemma unrecognised_text_counts_nothing :
  length (List.filter eligible (map (get plantTreesRow) solutionColumns)) = 1%nat /\
  exists counts, solutionCount [plantTreesRow] = Ok counts /\ totalCount counts = 0%nat.
Proof.
  split; [vm_compute; reflexivity|].
  eexists. split; vm_compute; reflexivity.
Qed.

(** C8, amended. A row adds one count for each of the three solution
    columns whose value is a text that is not empty and not "N/A" once
    trimmed and in which [categorizeSolution] finds a category, to that
    category; the other columns add nothing. A row with "More Bins", "N/A"
    and "" adds exactly one count, to "Bins and Facilites". *)
Theorem solution_counts_of_a_row
    (row : gmap string JsVal) (counts : list (string * nat)) :
  Forall (fun col => textOrFalsy (get row col) = true) solutionColumns ->
  forEach (solutionColumn row) solutionColumns counts
  = Ok (foldl (fun counts c => bump c counts) counts (contribution row)) /\
  totalCount (foldl (fun counts c => bump c counts) counts (contribution row))
  = (totalCount counts + length (contribution row))%nat /\
  (forall s c, recognised (JStr s) = Some c -> eligible (JStr s) = true) /\
  contribution moreBinsRow = ["Bins and Facilites"] /\
  solutionCount [moreBinsRow]
  = Ok [ ("Bins and Facilites", 1%nat); ("Technology-Enabled Monitoring", 0%nat);
         ("Strict Enforcement Measures ", 0%nat);
         ("Public Awareness & Education ", 0%nat);
         ("Sanitization Vehicle Roster", 0%nat);
         ("Regulatory & Administrative Support", 0%nat);
         ("Efficient Waste Collection System", 0%nat);
         ("Neutral Feedback", 0%nat) ].
Proof.
  intros H. split; [|split; [|split; [|split]]].
  - now apply solutionColumns_counts.
  - apply totalCount_bumps.
  - apply recognised_eligible.
  - vm_compute. reflexivity.
  - vm_compute. reflexivity.
Qed.

Lemma solution_counts_of_a_row_witness :
  forEach (solutionColumn moreBinsRow) solutionColumns solutionCount0
  = Ok (foldl (fun counts c => bump c counts) solutionCount0 (contribution moreBinsRow)) /\
  totalCount (foldl (fun counts c => bump c counts) solutionCount0
                (contribution moreBinsRow))
  = (totalCount solutionCount0 + length (contribution moreBinsRow))%nat.
Proof.
  destruct (solution_counts_of_a_row moreBinsRow solutionCount0) as (H1 & H2 & _).
  - repeat constructor.
  - split; [exact H1 | exact H2].
Defined.

(** ** The chart of one row *)

(** C9. [calculatePieForRow] tests [row[column] === 1], and [true === 1]
    is false: a row whose two waste-type flags are [true] gets the empty
    chart, where the same row with the flags at 1 gets the two entries of
    value 1. The list of waste types in the tooltip of the same row tests
    [row[k] === 1 || row[k] === true]. *)
Theorem pie_for_row_misses_true_flags :
  length (List.filter (fun tc => is_one (get twoTrueFlagsRow tc.2)
                                || is_true (get twoTrueFlagsRow tc.2))
                      wasteTypeToColumnMap) = 2%nat /\
  calculatePieForRow twoTrueFlagsRow = [] /\
  calculatePieForRow twoOneFlagsRow = [mkEntry "Clothes" 1; mkEntry "Others" 1].
Proof. repeat split; vm_compute; reflexivity. Qed.

(** With the flags at the number 1 the chart of a row is as the
    specification has it: one entry of value 1 for each flag that is set. *)
Lemma pie_for_row_of_ones (row : gmap string JsVal) :
  map name (calculatePieForRow row)
  = (List.filter (fun tc => is_one (get row tc.2)) wasteTypeToColumnMap).*1 /\
  Forall (fun e => value e = 1%Q) (calculatePieForRow row).
Proof.
  unfold calculatePieForRow.
  induction (List.filter (fun tc => is_one (get row tc.2)) wasteTypeToColumnMap)
    as [|[type column] rest [IH1 IH2]]; [split; [reflexivity | constructor]|].
  split.
  - cbn [map]. rewrite fmap_cons. f_equal. exact IH1.
  - constructor; [reflexivity | exact IH2].
Qed.

(** * More of the dashboard *)

(** ** The volume card *)

Section Volume.

Implicit Types (rows : list (gmap string JsVal)).

Lemma getWasteWeight_bounds (quantity : JsVal) :
  (0 <= getWasteWeight quantity)%Q /\ (getWasteWeight quantity <= 10)%Q.
Proof.
  unfold getWasteWeight. destruct quantity as [ | | b | q | s];
    try (split; discriminate).
  repeat (match goal with |- context [String.eqb ?a ?b] => destruct (String.eqb a b) end);
    split; discriminate.
Qed.

Lemma volume_from (rows : list (gmap string JsVal)) (start : Q) :
  (foldl (fun sum row =>
            let quantity := get row "Approx Waste Quantity Found at GVP" in
            let weight := getWasteWeight quantity in
            (sum + weight)%Q)
         start rows
   == start + totalHathGadiVolume rows)%Q.
Proof.
  unfold totalHathGadiVolume. revert start.
  induction rows as [|row rows IH]; intros start; cbn [foldl].
  - ring.
  - rewrite IH. rewrite (IH (0 + _)%Q). cbv zeta. ring.
Qed.

Lemma volume_cons (row : gmap string JsVal) rows :
  (totalHathGadiVolume (row :: rows)
   == getWasteWeight (get row "Approx Waste Quantity Found at GVP")
      + totalHathGadiVolume rows)%Q.
Proof.
  unfold totalHathGadiVolume at 1. cbn [foldl]. rewrite volume_from. cbv zeta. ring.
Qed.

(** X1. The volume of a record set is never negative and never more than
    ten for each row. *)
Theorem volume_bounds rows :
  (0 <= totalHathGadiVolume rows)%Q /\
  (totalHathGadiVolume rows <= 10 * num (length rows))%Q.
Proof.
  induction rows as [|row rows [IHlo IHhi]].
  - split; discriminate.
  - rewrite volume_cons.
    destruct (getWasteWeight_bounds (get row "Approx Waste Quantity Found at GVP"))
      as [Hlo Hhi].
    split.
    + replace 0%Q with (0 + 0)%Q by reflexivity. now apply Qplus_le_compat.
    + cbn [length]. change (S (length rows)) with (1 + length rows)%nat.
      rewrite num_add. change (num 1) with 1%Q.
      assert (E : (10 * (1 + num (length rows)) == 10 + 10 * num (length rows))%Q)
        by ring.
      rewrite E. now apply Qplus_le_compat.
Qed.

(** X2. The volume is 3.5 for each row labelled "below_500_kg", 1 for each
    "some_100_kg", 7.5 for each "_500kg_1_tonne" and 10 for each
    "above_1_tonne"; a row with any other value of the column, or none,
    adds nothing. *)
Theorem volume_by_label rows :
  let rowsOf := fun label =>
    num (countRows (fun v => is_text v label)
                   "Approx Waste Quantity Found at GVP" rows) in
  (totalHathGadiVolume rows
   == 3.5 * rowsOf "below_500_kg" + 1 * rowsOf "some_100_kg"
      + 7.5 * rowsOf "_500kg_1_tonne" + 10 * rowsOf "above_1_tonne")%Q.
Proof.
  cbv zeta. induction rows as [|row rows IH].
  - reflexivity.
  - rewrite volume_cons, IH. unfold countRows. cbn [List.filter].
    unfold getWasteWeight, is_text.
    destruct (get row "Approx Waste Quantity Found at GVP") as [ | | b | q | s];
      try ring.
    destruct (String.eqb_spec s "below_500_kg") as [-> | H1].
    { cbn [String.eqb Ascii.eqb Bool.eqb andb length].
      change (S ?n) with (1 + n)%nat. rewrite num_add. change (num 1) with 1%Q. ring. }
    destruct (String.eqb_spec s "some_100_kg") as [-> | H2].
    { cbn [String.eqb Ascii.eqb Bool.eqb andb length].
      change (S ?n) with (1 + n)%nat. rewrite num_add. change (num 1) with 1%Q. ring. }
    destruct (String.eqb_spec s "_500kg_1_tonne") as [-> | H3].
    { cbn [String.eqb Ascii.eqb Bool.eqb andb length].
      change (S ?n) with (1 + n)%nat. rewrite num_add. change (num 1) with 1%Q. ring. }
    destruct (String.eqb_spec s "above_1_tonne") as [-> | H4].
    { cbn [String.eqb Ascii.eqb Bool.eqb andb length].
      change (S ?n) with (1 + n)%nat. rewrite num_add. change (num 1) with 1%Q. ring. }
    ring.
Qed.

End Volume.

(** ** Closed form of the flag scans *)

Section FlagCounts.

Implicit Types (counts : list (string * nat)) (data : list (gmap string JsVal))
  (pairs : list (string * string)).

Lemma addTo_keys (g : string -> nat) counts : (addTo g counts).*1 = counts.*1.
Proof.
  unfold addTo. induction counts as [|[k n] rest IH]; [reflexivity|].
  cbn [map]. rewrite !fmap_cons. now rewrite IH.
Qed.

Lemma addTo_addTo (g1 g2 : string -> nat) counts :
  addTo g2 (addTo g1 counts) = addTo (fun k => (g1 k + g2 k)%nat) counts.
Proof.
  unfold addTo. rewrite map_map. apply map_ext. intros [k n]. cbn. f_equal. lia.
Qed.

Lemma addTo_ext (g g' : string -> nat) counts :
  (forall k, k ∈ counts.*1 -> g k = g' k) -> addTo g counts = addTo g' counts.
Proof.
  unfold addTo. induction counts as [|[k n] rest IH]; intros H; [reflexivity|].
  cbn [map fst snd]. rewrite (H k) by (rewrite fmap_cons; apply elem_of_cons; now left).
  f_equal. apply IH. intros k' Hk'. apply H. rewrite fmap_cons. apply elem_of_cons. now right.
Qed.

Lemma addTo_zero counts : addTo (fun _ => 0%nat) counts = counts.
Proof.
  unfold addTo. induction counts as [|[k n] rest IH]; [reflexivity|].
  cbn [map fst snd]. rewrite IH. f_equal. f_equal. lia.
Qed.

Lemma incr_addTo (key : string) counts :
  NoDup (counts.*1) ->
  incr key counts = addTo (fun k => if String.eqb k key then 1 else 0)%nat counts.
Proof.
  induction counts as [|[k n] rest IH]; intros Hnd; [reflexivity|].
  rewrite fmap_cons in Hnd. apply NoDup_cons in Hnd as [Hk Hrest].
  cbn [incr]. unfold addTo. cbn [map fst snd]. fold (addTo (fun k => if String.eqb k key then 1 else 0)%nat rest).
  destruct (String.eqb_spec k key) as [-> | Hne].
  - replace (n + 1)%nat with (S n) by lia. f_equal.
    rewrite <- (addTo_zero rest) at 1. apply addTo_ext. intros k Hin.
    destruct (String.eqb_spec k key) as [-> | _]; [now contradiction Hk | reflexivity].
  - replace (n + 0)%nat with n by lia. f_equal. now apply IH.
Qed.

Lemma scanPairs_row (test : JsVal -> bool) (row : gmap string JsVal) pairs counts :
  NoDup (counts.*1) ->
  foldl (fun counts '(key, column) =>
           if test (get row column) then incr key counts else counts)
        counts pairs
  = addTo (setFlags test row pairs) counts.
Proof.
  revert counts. induction pairs as [|[key column] pairs IH]; intros counts Hnd.
  - cbn [foldl]. symmetry. apply addTo_zero.
  - cbn [foldl]. rewrite IH.
    + destruct (test (get row column)) eqn:Ht.
      * rewrite incr_addTo by exact Hnd. rewrite addTo_addTo. apply addTo_ext.
        intros k _. unfold setFlags. cbn [List.filter fst snd]. rewrite Ht.
        rewrite andb_true_r. rewrite (String.eqb_sym key k).
        destruct (String.eqb k key); cbn [length]; lia.
      * apply addTo_ext. intros k _. unfold setFlags. cbn [List.filter fst snd].
        rewrite Ht. rewrite andb_false_r. reflexivity.
    + destruct (test (get row column)); [now rewrite incr_keys | exact Hnd].
Qed.

Lemma setFlags_at (test : JsVal -> bool) (row : gmap string JsVal) pairs
    (key column : string) :
  NoDup (pairs.*1) -> (key, column) ∈ pairs ->
  setFlags test row pairs key = if test (get row column) then 1%nat else 0%nat.
Proof.
  unfold setFlags. induction pairs as [|[k c] pairs IH]; intros Hnd Hin.
  - inversion Hin.
  - rewrite fmap_cons in Hnd. apply NoDup_cons in Hnd as [Hk Hrest].
    cbn [List.filter fst snd]. apply elem_of_cons in Hin as [[= <- <-] | Hin].
    + rewrite String.eqb_refl. cbn [andb].
      assert (E : List.filter (fun kc => String.eqb kc.1 key && test (get row kc.2)) pairs = []).
      { clear -Hk. induction pairs as [|[k' c'] pairs IH]; [reflexivity|].
        rewrite fmap_cons in Hk. apply not_elem_of_cons in Hk as [Hne Hrest].
        cbn [List.filter fst snd]. destruct (String.eqb_spec k' key) as [E|_]; [now subst|].
        now apply IH. }
      rewrite E. now destruct (test (get row column)).
    + destruct (String.eqb_spec k key) as [-> | _].
      * contradiction Hk. now apply (list_elem_of_fmap_2 fst _ (key, column)).
      * cbn [andb]. now apply IH.
Qed.

Lemma scanPairs_data (test : JsVal -> bool) pairs data counts :
  NoDup (counts.*1) ->
  foldl (fun counts row =>
           foldl (fun counts '(key, column) =>
                    if test (get row column) then incr key counts else counts)
                 counts pairs)
        counts data
  = addTo (fun k => sum_list (map (fun row => setFlags test row pairs k) data)) counts.
Proof.
  revert counts. induction data as [|row data IH]; intros counts Hnd.
  - cbn [foldl map sum_list]. symmetry. apply addTo_zero.
  - cbn [foldl]. rewrite scanPairs_row by exact Hnd.
    rewrite IH by now rewrite addTo_keys. rewrite addTo_addTo. reflexivity.
Qed.

Lemma countRows_sum (test : JsVal -> bool) (column : string) data :
  countRows test column data
  = sum_list (map (fun row => if test (get row column) then 1%nat else 0%nat) data).
Proof.
  unfold countRows. induction data as [|row data IH]; [reflexivity|].
  cbn [List.filter map]. destruct (test (get row column)); cbn [length sum_list]; now rewrite IH.
Qed.

(** The scan over pairs of a key and a column leaves, at every key, the
    number it found there plus the number of rows whose flag is set. *)
Lemma scanPairs_counts (test : JsVal -> bool) pairs data (ns : string -> nat) :
  NoDup (pairs.*1) ->
  foldl (fun counts row =>
           foldl (fun counts '(key, column) =>
                    if test (get row column) then incr key counts else counts)
                 counts pairs)
        (map (fun kc => (kc.1, ns kc.1)) pairs) data
  = map (fun kc => (kc.1, (ns kc.1 + countRows test kc.2 data)%nat)) pairs.
Proof.
  intros Hnd.
  assert (Hkeys : (map (fun kc : string * string => (kc.1, ns kc.1)) pairs).*1 = pairs.*1).
  { induction pairs as [|[k c] rest IH']; [reflexivity|].
    cbn [map]. rewrite !fmap_cons. f_equal. apply IH'.
    rewrite fmap_cons in Hnd. now apply NoDup_cons in Hnd as [_ ?]. }
  rewrite scanPairs_data by now rewrite Hkeys.
  unfold addTo. rewrite map_map. apply map_ext_in. intros [k c] Hin. cbn [fst snd].
  f_equal. f_equal. rewrite countRows_sum. f_equal. apply map_ext. intros row.
  apply setFlags_at; [exact Hnd | now apply list_elem_of_In].
Qed.

End FlagCounts.

(** ** What the flag charts count *)

Section FlagCharts.

Implicit Types (counts : list (string * nat)) (data : list (gmap string JsVal)).

Lemma scanKeys_pairs (test : JsVal -> bool) (row : gmap string JsVal)
    (keys : list string) counts :
  foldl (fun counts key => if test (get row key) then incr key counts else counts)
        counts keys
  = foldl (fun counts '(key, column) =>
             if test (get row column) then incr key counts else counts)
          counts (map (fun k => (k, k)) keys).
Proof.
  revert counts. induction keys as [|k keys IH]; intros counts; [reflexivity|].
  cbn [foldl map]. apply IH.
Qed.

Lemma scanFlags_pairs (test : JsVal -> bool) (keys : list string) data counts :
  counts.*1 = keys ->
  scanFlags test counts data
  = foldl (fun counts row =>
             foldl (fun counts '(key, column) =>
                      if test (get row column) then incr key counts else counts)
                   counts (map (fun k => (k, k)) keys))
          counts data.
Proof.
  unfold scanFlags. revert counts.
  induction data as [|row data IH]; intros counts Hk; [reflexivity|].
  cbn [foldl]. rewrite IH by now rewrite scanRow_keys.
  now rewrite scanKeys_pairs, Hk.
Qed.

(** After the scan every key of the table has the number it started with
    plus the number of rows on which the test of its flag holds. *)
Lemma scanFlags_counts (test : JsVal -> bool) counts data :
  NoDup (counts.*1) ->
  scanFlags test counts data
  = map (fun kn => (kn.1, (kn.2 + countRows test kn.1 data)%nat)) counts.
Proof.
  intros Hnd. rewrite (scanFlags_pairs test (counts.*1)) by reflexivity.
  assert (E : forall l : list string, (map (fun k : string => (k, k)) l).*1 = l).
  { induction l as [|k l IH]; [reflexivity|].
    cbn [map]. rewrite fmap_cons. f_equal. exact IH. }
  specialize (E (counts.*1)).
  rewrite scanPairs_data by exact Hnd.
  unfold addTo. apply map_ext_in. intros [k n] Hin. cbn [fst snd].
  f_equal. f_equal. rewrite countRows_sum. f_equal. apply map_ext. intros row.
  apply setFlags_at; [now rewrite E|].
  apply list_elem_of_In in Hin.
  apply (list_elem_of_fmap_2 fst) in Hin. cbn [fst] in Hin.
  apply (list_elem_of_fmap_2 (fun k : string => (k, k))) in Hin. exact Hin.
Qed.

Lemma NoDup_wasteTypes : NoDup (wasteTypeToColumnMap.*1).
Proof.
  apply (bool_decide_unpack _). vm_compute. exact I.
Qed.

Lemma NoDup_problems : NoDup (problemsCount0.*1).
Proof.
  apply (bool_decide_unpack _). vm_compute. exact I.
Qed.

Lemma NoDup_reasons : NoDup (reasonsCount0.*1).
Proof.
  apply (bool_decide_unpack _). vm_compute. exact I.
Qed.

Lemma wasteTypeCount_closed data :
  wasteTypeCount data
  = map (fun tc => (tc.1, countRows is_one tc.2 data)) wasteTypeToColumnMap.
Proof.
  unfold wasteTypeCount.
  etransitivity;
    [exact (scanPairs_counts is_one wasteTypeToColumnMap data (fun _ => 0%nat)
              NoDup_wasteTypes)
    | reflexivity].
Qed.

Lemma calculateWasteTypeCounts_closed data :
  calculateWasteTypeCounts data
  = map (fun tc => mkEntry tc.1 (num (countRows is_one tc.2 data)))
        (List.filter (fun tc => (0 <? countRows is_one tc.2 data)%nat)
                     wasteTypeToColumnMap).
Proof.
  unfold calculateWasteTypeCounts. rewrite wasteTypeCount_closed.
  generalize wasteTypeToColumnMap as table.
  induction table as [|[type column] table IH]; [reflexivity|].
  cbn [map List.filter fst snd].
  destruct (0 <? countRows is_one column data)%nat; cbn [map fst snd]; now rewrite IH.
Qed.

Lemma problemsCount_closed data :
  problemsCount data
  = map (fun kn => (kn.1, countRows is_one kn.1 data)) problemsCount0.
Proof.
  unfold problemsCount. rewrite scanFlags_counts; [reflexivity | apply NoDup_problems].
Qed.

Lemma reasonsCount_closed data :
  reasonsCount data
  = map (fun kn => (kn.1, countRows (fun v => is_one v || is_true v) kn.1 data))
        reasonsCount0.
Proof.
  unfold reasonsCount. rewrite scanFlags_counts; [reflexivity | apply NoDup_reasons].
Qed.

(** X3. The table of the waste-type chart holds, for every waste type, the
    number of rows whose column of that type is the number 1, and the chart
    lists the types with at least one such row, in the order of their
    declaration, each with that number. *)
Theorem waste_type_chart_counts_rows data :
  wasteTypeCount data
  = map (fun tc => (tc.1, countRows is_one tc.2 data)) wasteTypeToColumnMap /\
  calculateWasteTypeCounts data
  = map (fun tc => mkEntry tc.1 (num (countRows is_one tc.2 data)))
        (List.filter (fun tc => (0 <? countRows is_one tc.2 data)%nat)
                     wasteTypeToColumnMap).
Proof. split; [apply wasteTypeCount_closed | apply calculateWasteTypeCounts_closed]. Qed.

(** X4. The tables of the problems and of the reasons chart hold, for every
    category, the number of rows whose column of that name is set: the
    number 1 for a problem, the number 1 or [true] for a reason. *)
Theorem problems_and_reasons_count_rows data :
  problemsCount data
  = map (fun kn => (kn.1, countRows is_one kn.1 data)) problemsCount0 /\
  reasonsCount data
  = map (fun kn => (kn.1, countRows (fun v => is_one v || is_true v) kn.1 data))
        reasonsCount0.
Proof. split; [apply problemsCount_closed | apply reasonsCount_closed]. Qed.

Lemma countRows_perm (test : JsVal -> bool) (column : string) data data' :
  data ≡ₚ data' -> countRows test column data = countRows test column data'.
Proof.
  intros H. rewrite !countRows_sum.
  induction H as [|row d d' _ IH|r1 r2 d|d d' d'' _ IH1 _ IH2];
    cbn [map sum_list]; lia.
Qed.

(** X5. The three flag charts do not depend on the order of the rows. *)
Theorem flag_charts_ignore_row_order data data' :
  data ≡ₚ data' ->
  calculateWasteTypeCounts data = calculateWasteTypeCounts data' /\
  calculateProblemsData data = calculateProblemsData data' /\
  calculateReasonsData data = calculateReasonsData data'.
Proof.
  intros H. split; [|split].
  - rewrite !calculateWasteTypeCounts_closed.
    rewrite (map_ext _ (fun tc => mkEntry tc.1 (num (countRows is_one tc.2 data'))))
      by (intros tc; now rewrite (countRows_perm _ _ _ _ H)).
    f_equal. apply filter_ext. intros tc. now rewrite (countRows_perm _ _ _ _ H).
  - unfold calculateProblemsData. rewrite !problemsCount_closed.
    do 2 f_equal. apply map_ext. intros kn. now rewrite (countRows_perm _ _ _ _ H).
  - unfold calculateReasonsData. rewrite !reasonsCount_closed.
    do 2 f_equal. apply map_ext. intros kn. now rewrite (countRows_perm _ _ _ _ H).
Qed.

End FlagCharts.

Lemma flag_charts_ignore_row_order_witness :
  calculateWasteTypeCounts [odourRow; othersRow]
  = calculateWasteTypeCounts [othersRow; odourRow] /\
  calculateProblemsData [odourRow; othersRow]
  = calculateProblemsData [othersRow; odourRow] /\
  calculateReasonsData [odourRow; othersRow]
  = calculateReasonsData [othersRow; odourRow].
Proof.
  apply (flag_charts_ignore_row_order [odourRow; othersRow] [othersRow; odourRow]).
  apply perm_swap.
Defined.

(** ** Order and range of the percentage charts *)

Section Order.

Implicit Types (d : list Entry) (counts : list (string * nat))
  (data : list (gmap string JsVal)).

Lemma insertDesc_HdRel (a x : Entry) d :
  HdRel (fun a b => (value b <= value a)%Q) a d -> (value x <= value a)%Q ->
  HdRel (fun a b => (value b <= value a)%Q) a (insertDesc x d).
Proof.
  intros Hd Hx. destruct d as [|y d]; cbn [insertDesc]; [now constructor|].
  destruct (Qle_bool (value y) (value x)); constructor; [exact Hx|].
  now inversion Hd.
Qed.

Lemma insertDesc_descending (x : Entry) d :
  descending d -> descending (insertDesc x d).
Proof.
  unfold descending. induction 1 as [|y d Hs IH Hhd]; cbn [insertDesc].
  - repeat constructor.
  - destruct (Qle_bool (value y) (value x)) eqn:E.
    + apply Qle_bool_iff in E. constructor; [now constructor | now constructor].
    + constructor; [exact IH|]. apply insertDesc_HdRel; [exact Hhd|].
      apply Qlt_le_weak, Qnot_le_lt. intros Hle.
      apply Qle_bool_iff in Hle. congruence.
Qed.

Lemma sortDesc_descending d : descending (sortDesc d).
Proof.
  induction d as [|x d IH]; cbn [sortDesc]; [constructor|].
  now apply insertDesc_descending.
Qed.

Lemma descending_take (n : nat) d : descending d -> descending (take n d).
Proof.
  unfold descending. intros H. revert n.
  induction H as [|x d Hs IH Hhd]; intros [|n]; cbn [take]; try constructor.
  - apply IH.
  - destruct Hhd as [|y d' Hy]; destruct n; cbn [take]; now constructor.
Qed.

Lemma descending_all_equal (q : Q) d :
  Forall (fun e => value e = q) d -> descending d.
Proof.
  unfold descending. induction 1 as [|x d Hx Hd IH]; constructor; [exact IH|].
  destruct Hd as [|y d' Hy _]; constructor. rewrite Hx, Hy. apply Qle_refl.
Qed.

Lemma descending_strongly d :
  descending d -> StronglySorted (fun a b => (value b <= value a)%Q) d.
Proof.
  apply Sorted_StronglySorted. intros a b c Hab Hbc. eapply Qle_trans; eauto.
Qed.

(** The stable sort keeps the entries of one value in the order they came
    in. *)
Lemma sortDesc_stable (v : Q) d :
  List.filter (fun e => Qeq_bool (value e) v) (sortDesc d)
  = List.filter (fun e => Qeq_bool (value e) v) d.
Proof.
  induction d as [|x d IH]; [reflexivity|]. cbn [sortDesc].
  cbn [List.filter]. rewrite <- IH. generalize (sortDesc d) as s. clear IH.
  induction s as [|y s IH]; [reflexivity|]. cbn [insertDesc].
  destruct (Qle_bool (value y) (value x)) eqn:E; [reflexivity|].
  cbn [List.filter]. rewrite IH.
  destruct (Qeq_bool (value x) v) eqn:Ex, (Qeq_bool (value y) v) eqn:Ey; try reflexivity.
  apply Qeq_bool_iff in Ex, Ey.
  assert (Hle : (value y <= value x)%Q) by (rewrite Ex, Ey; apply Qle_refl).
  apply Qle_bool_iff in Hle. congruence.
Qed.

Lemma count_le_total (k : string) (n : nat) counts :
  (k, n) ∈ counts -> (n <= totalCount counts)%nat.
Proof.
  induction counts as [|[k' n'] rest IH]; intros Hin; [inversion Hin|].
  rewrite totalCount_cons. apply elem_of_cons in Hin as [[= -> ->] | Hin]; [lia|].
  specialize (IH Hin). lia.
Qed.

Lemma percent_le_100 (count total : nat) :
  (count <= total)%nat -> (percent count total <= 100)%Q.
Proof.
  intros Hle. unfold percent. destruct (Nat.ltb_spec 0 total) as [Hpos|_]; [|discriminate].
  assert (Hq : (num count / num total <= 1)%Q).
  { apply Qle_shift_div_r; [now apply num_pos|]. rewrite Qmult_1_l.
    unfold num. rewrite <- Zle_Qle. lia. }
  apply (Qle_trans _ (1 * 100)%Q); [|discriminate].
  apply Qmult_le_compat_r; [exact Hq | discriminate].
Qed.

Lemma shares_range counts :
  Forall (fun e => (0 <= value e)%Q /\ (value e <= 100)%Q) (shares counts).
Proof.
  unfold shares. apply Forall_forall. intros e Hin.
  apply list_elem_of_fmap in Hin as [[k n] [-> Hin]]. cbn [value]. split.
  - apply percent_nonneg.
  - apply percent_le_100. eapply count_le_total; eauto.
Qed.

End Order.

Section PercentageCharts.

Implicit Types (d : list Entry) (counts : list (string * nat))
  (data : list (gmap string JsVal)).

Lemma solution_chart_cases data d :
  calculateSolutionData data = Ok d ->
  d = map (fun e => mkEntry (category e) (100 / 8)%Q) solutionCategories \/
  exists counts, solutionCount data = Ok counts /\ d = sortDesc (shares counts).
Proof.
  unfold calculateSolutionData.
  destruct (solutionCount data) as [counts|]; cbn [bind]; [|discriminate].
  destruct (totalCount counts =? 0)%nat; intros H; apply Ok_inj in H; subst d.
  - now left.
  - right. exists counts. split; reflexivity.
Qed.

(** X6. Every percentage chart comes out in non-increasing order of its
    values. *)
Theorem percentage_charts_descending data :
  descending (calculateProblemsData data) /\
  descending (calculateReasonsData data) /\
  (forall d, calculateWhoDisposeData data = Ok d -> descending d) /\
  (forall d, calculateSettingData data = Ok d -> descending d) /\
  (forall d, calculateSolutionData data = Ok d -> descending d).
Proof.
  repeat match goal with |- _ /\ _ => split end.
  - apply sortDesc_descending.
  - apply sortDesc_descending.
  - intros d. unfold calculateWhoDisposeData.
    destruct (disposeCount data) as [counts|]; cbn [bind]; [|discriminate].
    intros H. apply Ok_inj in H. subst d. apply descending_take, sortDesc_descending.
  - intros d. unfold calculateSettingData.
    destruct (settingCount data) as [counts|]; cbn [bind]; [|discriminate].
    intros H. apply Ok_inj in H. subst d. apply descending_take, sortDesc_descending.
  - intros d H. apply solution_chart_cases in H as [-> | (counts & _ & ->)].
    + apply (descending_all_equal (100 / 8)%Q). repeat constructor.
    + apply sortDesc_descending.
Qed.

Lemma percentage_charts_descending_witness :
  (exists d, calculateWhoDisposeData sixDisposers = Ok d /\ descending d) /\
  (exists d, calculateSettingData [marketRow] = Ok d /\ descending d) /\
  (exists d, calculateSolutionData [moreBinsRow] = Ok d /\ descending d).
Proof.
  split; [|split].
  - eexists. split; [vm_compute; reflexivity|].
    apply (proj1 (proj2 (proj2 (percentage_charts_descending sixDisposers)))).
    vm_compute. reflexivity.
  - eexists. split; [vm_compute; reflexivity|].
    apply (proj1 (proj2 (proj2 (proj2 (percentage_charts_descending [marketRow]))))).
    vm_compute. reflexivity.
  - eexists. split; [vm_compute; reflexivity|].
    apply (proj2 (proj2 (proj2 (proj2 (percentage_charts_descending [moreBinsRow]))))).
    vm_compute. reflexivity.
Defined.

Lemma range_perm d d' :
  d ≡ₚ d' ->
  Forall (fun e => (0 <= value e)%Q /\ (value e <= 100)%Q) d' ->
  Forall (fun e => (0 <= value e)%Q /\ (value e <= 100)%Q) d.
Proof. intros Hp H. eapply Permutation_Forall; [symmetry; exact Hp | exact H]. Qed.

(** X7. Every value of a percentage chart lies between 0 and 100. *)
Theorem percentage_charts_range data :
  Forall (fun e => (0 <= value e)%Q /\ (value e <= 100)%Q) (calculateProblemsData data) /\
  Forall (fun e => (0 <= value e)%Q /\ (value e <= 100)%Q) (calculateReasonsData data) /\
  (forall d, calculateWhoDisposeData data = Ok d ->
             Forall (fun e => (0 <= value e)%Q /\ (value e <= 100)%Q) d) /\
  (forall d, calculateSettingData data = Ok d ->
             Forall (fun e => (0 <= value e)%Q /\ (value e <= 100)%Q) d) /\
  (forall d, calculateSolutionData data = Ok d ->
             Forall (fun e => (0 <= value e)%Q /\ (value e <= 100)%Q) d).
Proof.
  repeat match goal with |- _ /\ _ => split end.
  - eapply range_perm; [apply sortDesc_perm | apply shares_range].
  - eapply range_perm; [apply sortDesc_perm | apply shares_range].
  - intros d. unfold calculateWhoDisposeData.
    destruct (disposeCount data) as [counts|]; cbn [bind]; [|discriminate].
    intros H. apply Ok_inj in H. subst d. apply Forall_take.
    eapply range_perm; [apply sortDesc_perm | apply shares_range].
  - intros d. unfold calculateSettingData.
    destruct (settingCount data) as [counts|]; cbn [bind]; [|discriminate].
    intros H. apply Ok_inj in H. subst d. apply Forall_take.
    eapply range_perm; [apply sortDesc_perm | apply shares_range].
  - intros d H. apply solution_chart_cases in H as [-> | (counts & _ & ->)].
    + repeat constructor; discriminate.
    + eapply range_perm; [apply sortDesc_perm | apply shares_range].
Qed.

Lemma percentage_charts_range_witness :
  exists d, calculateWhoDisposeData sixDisposers = Ok d /\
            Forall (fun e => (0 <= value e)%Q /\ (value e <= 100)%Q) d.
Proof.
  eexists. split; [vm_compute; reflexivity|].
  apply (proj1 (proj2 (proj2 (percentage_charts_range sixDisposers)))).
  vm_compute. reflexivity.
Defined.

Lemma top5_largest counts :
  exists rest,
    take 5 (sortDesc (shares counts)) ++ rest ≡ₚ shares counts /\
    length (take 5 (sortDesc (shares counts))) = (5 `min` length counts)%nat /\
    forall e e', e ∈ take 5 (sortDesc (shares counts)) -> e' ∈ rest ->
                 (value e' <= value e)%Q.
Proof.
  exists (drop 5 (sortDesc (shares counts))). split; [|split].
  - rewrite take_drop. apply sortDesc_perm.
  - rewrite length_take, (Permutation_length (sortDesc_perm _)).
    unfold shares. now rewrite length_map.
  - intros e e' He He'.
    pose proof (descending_strongly _ (sortDesc_descending (shares counts))) as Hs.
    rewrite <- (take_drop 5 (sortDesc (shares counts))) in Hs.
    apply (StronglySorted_app_1_elem_of _ _ _ e e' Hs He He').
Qed.

(** X8. The charts of the disposers and of the settings keep the largest
    shares: the chart has five entries, or all of them when fewer
    categories were counted, and no share that was left out is larger than
    one that was kept. *)
Theorem top5_keeps_the_largest data counts :
  (disposeCount data = Ok counts ->
   exists d rest,
     calculateWhoDisposeData data = Ok d /\ d ++ rest ≡ₚ shares counts /\
     length d = (5 `min` length counts)%nat /\
     forall e e', e ∈ d -> e' ∈ rest -> (value e' <= value e)%Q) /\
  (settingCount data = Ok counts ->
   exists d rest,
     calculateSettingData data = Ok d /\ d ++ rest ≡ₚ shares counts /\
     length d = (5 `min` length counts)%nat /\
     forall e e', e ∈ d -> e' ∈ rest -> (value e' <= value e)%Q).
Proof.
  split; intros Hc; destruct (top5_largest counts) as (rest & H1 & H2 & H3);
    exists (take 5 (sortDesc (shares counts))), rest.
  - unfold calculateWhoDisposeData. rewrite Hc. auto.
  - unfold calculateSettingData. rewrite Hc. auto.
Qed.

Lemma top5_keeps_the_largest_witness :
  exists (d rest : list Entry),
    calculateWhoDisposeData sixDisposers = Ok d /\
    length d = 5%nat /\
    forall e e', e ∈ d -> e' ∈ rest -> (value e' <= value e)%Q.
Proof.
  destruct (proj1 (top5_keeps_the_largest sixDisposers
                     [("Vendors / Small Stalls", 1%nat); ("People from Outside", 1%nat);
                      ("Passing Crowd / Vehicle People", 1%nat);
                      ("Households and Vendors Mixed", 1%nat);
                      ("Construction Waste", 1%nat);
                      ("Showrooms / Commercial Establishments", 1%nat)]))
    as (d & rest & Hd & _ & Hlen & Hle).
  - vm_compute. reflexivity.
  - exists d, rest. split; [exact Hd|]. split; [exact Hlen | exact Hle].
Defined.

(** X9. In the problems and in the reasons chart the categories of one
    value stay in the order of their declaration. *)
Theorem equal_shares_keep_declaration_order data (v : Q) :
  map name (List.filter (fun e => Qeq_bool (value e) v) (calculateProblemsData data))
    `sublist_of` problemsCount0.*1 /\
  map name (List.filter (fun e => Qeq_bool (value e) v) (calculateReasonsData data))
    `sublist_of` reasonsCount0.*1.
Proof.
  assert (G : forall counts,
             map name (List.filter (fun e => Qeq_bool (value e) v)
                                   (sortDesc (shares counts)))
               `sublist_of` counts.*1).
  { intros counts. rewrite sortDesc_stable, <- names_shares.
    generalize (shares counts) as l. induction l as [|e l IH]; [constructor|].
    cbn [List.filter map]. destruct (Qeq_bool (value e) v); cbn [map].
    - now apply sublist_skip.
    - now apply sublist_cons. }
  split.
  - unfold calculateProblemsData. etransitivity; [apply G|].
    unfold problemsCount. now rewrite scanFlags_keys.
  - unfold calculateReasonsData. etransitivity; [apply G|].
    unfold reasonsCount. now rewrite scanFlags_keys.
Qed.

End PercentageCharts.

(** ** What the free-text charts count, and when they throw *)

Section Classified.

Implicit Types (counts : list (string * nat)) (data : list (gmap string JsVal)).

Lemma bump_keys (key : string) counts :
  (bump key counts).*1 = if bool_decide (key ∈ counts.*1) then counts.*1
                         else (counts.*1 ++ [key])%list.
Proof.
  induction counts as [|[k n] rest IH]; cbn [bump]; [reflexivity|].
  rewrite !fmap_cons. cbn [fst].
  destruct (String.eqb_spec k key) as [-> | Hne].
  - rewrite bool_decide_eq_true_2; [reflexivity | apply elem_of_cons; now left].
  - rewrite fmap_cons, IH. cbn [fst]. destruct (bool_decide (key ∈ rest.*1)) eqn:E.
    + apply bool_decide_eq_true_1 in E.
      rewrite bool_decide_eq_true_2; [reflexivity | apply elem_of_cons; now right].
    + apply bool_decide_eq_false_1 in E. rewrite bool_decide_eq_false_2; [reflexivity|].
      intros Hin. apply elem_of_cons in Hin as [-> | Hin]; [now apply Hne | now apply E].
Qed.

Lemma bump_NoDup (key : string) counts :
  NoDup (counts.*1) -> NoDup ((bump key counts).*1).
Proof.
  intros H. rewrite bump_keys. destruct (bool_decide (key ∈ counts.*1)) eqn:E; [exact H|].
  apply bool_decide_eq_false_1 in E. apply NoDup_app. split; [exact H|]. split.
  - intros x Hx Hx'. apply list_elem_of_singleton in Hx'. now subst.
  - apply NoDup_singleton.
Qed.

Lemma lookupCount_bump (key c : string) counts :
  default 0%nat (lookupCount (bump key counts) c)
  = ((if String.eqb key c then 1 else 0) + default 0%nat (lookupCount counts c))%nat.
Proof.
  induction counts as [|[k n] rest IH]; cbn [bump lookupCount].
  - destruct (String.eqb key c); reflexivity.
  - destruct (String.eqb_spec k key) as [-> | Hne]; cbn [lookupCount].
    + destruct (String.eqb key c); cbn; lia.
    + destruct (String.eqb_spec k c) as [-> | _].
      * destruct (String.eqb_spec key c) as [-> | _]; [now contradiction Hne | reflexivity].
      * exact IH.
Qed.

Variable classify : gmap string JsVal -> result string.

Lemma classified_throws data counts0 :
  forEach (fun counts row => let* category := classify row in
                             Ok (bump category counts)) data counts0 = Throw TypeError
  <-> Exists (fun row => classify row = Throw TypeError) data.
Proof.
  revert counts0. induction data as [|row data IH]; intros counts0; cbn [forEach].
  - split; [discriminate | intros H; inversion H].
  - destruct (classify row) as [c|[]] eqn:Hc; cbn [bind].
    + rewrite IH. split; [now right|]. intros H. inversion H; [congruence | assumption].
    + split; [now left | reflexivity].
Qed.

Lemma classified_NoDup data counts0 counts :
  NoDup (counts0.*1) ->
  forEach (fun counts row => let* category := classify row in
                             Ok (bump category counts)) data counts0 = Ok counts ->
  NoDup (counts.*1).
Proof.
  revert counts0. induction data as [|row data IH]; intros counts0 Hnd; cbn [forEach].
  - now intros [= <-].
  - destruct (classify row) as [c|]; cbn [bind]; [|discriminate].
    apply IH. now apply bump_NoDup.
Qed.

Lemma classified_count data counts0 counts (c : string) :
  forEach (fun counts row => let* category := classify row in
                             Ok (bump category counts)) data counts0 = Ok counts ->
  default 0%nat (lookupCount counts c)
  = (default 0%nat (lookupCount counts0 c)
     + length (List.filter (fun row => found c (classify row)) data))%nat.
Proof.
  revert counts0. induction data as [|row data IH]; intros counts0; cbn [forEach].
  - intros [= <-]. cbn. lia.
  - destruct (classify row) as [c'|] eqn:Hc; cbn [bind]; [|discriminate].
    intros H. rewrite (IH _ H), lookupCount_bump. cbn [List.filter]. rewrite Hc.
    cbn [found]. destruct (String.eqb c' c); cbn [length]; lia.
Qed.

End Classified.

Lemma Exists_ext {A : Type} (P P' : A -> Prop) (l : list A) :
  (forall x, P x <-> P' x) -> Exists P l <-> Exists P' l.
Proof.
  intros H. split; intros E; (eapply Exists_impl; [exact E | intros x; apply H]).
Qed.

Lemma js_or_blank_idem (v : JsVal) :
  js_or (js_or v (JStr "")) (JStr "") = js_or v (JStr "").
Proof.
  unfold js_or. destruct (truthy v) eqn:E; [now rewrite E | reflexivity].
Qed.

Lemma str_method_or_blank {A : Type} (f : string -> A) (v : JsVal) :
  (exists a, str_method f (js_or v (JStr "")) = Ok a /\ textOrFalsy v = true) \/
  (str_method f (js_or v (JStr "")) = Throw TypeError /\ textOrFalsy v = false).
Proof.
  unfold js_or. destruct v as [ | | [] | q | s]; cbn [truthy textOrFalsy negb str_method];
    eauto.
  - destruct (Qeq_bool q 0); cbn [negb str_method]; eauto.
  - destruct (negb (String.eqb s "")); cbn [str_method]; eauto.
Qed.

Lemma categorize_throws (v : JsVal) :
  categorize (js_or v (JStr "")) = Throw TypeError <-> textOrFalsy v = false.
Proof.
  unfold categorize.
  destruct (str_method_or_blank lowerTrim v) as [(a & -> & ->) | (-> & ->)]; cbn [bind];
    split; try discriminate; reflexivity.
Qed.

Lemma categorizeLocation_throws (v : JsVal) :
  categorizeLocation (js_or v (JStr "")) = Throw TypeError <-> textOrFalsy v = false.
Proof.
  unfold categorizeLocation. rewrite js_or_blank_idem.
  destruct (str_method_or_blank lowerTrim v) as [(a & -> & ->) | (-> & ->)]; cbn [bind];
    split; try discriminate; reflexivity.
Qed.

(** X10. [calculateWhoDisposeData] throws exactly when some row holds a
    truthy value that is not a text in "Who Dispose". Otherwise every row
    is counted once: the counts add up to the number of rows, no category
    has two entries, and the count of a category is the number of rows
    [categorize] puts in it. *)
Theorem who_dispose_counts_each_row_once (data : list (gmap string JsVal)) :
  (calculateWhoDisposeData data = Throw TypeError <->
   Exists (fun row => textOrFalsy (get row "Who Dispose") = false) data) /\
  (forall counts, disposeCount data = Ok counts ->
     totalCount counts = length data /\ NoDup (counts.*1) /\
     forall c, default 0%nat (lookupCount counts c)
               = length (List.filter (fun row => found c (categorize (disposeValue row)))
                                     data)).
Proof.
  split.
  - assert (E : calculateWhoDisposeData data = Throw TypeError
                <-> disposeCount data = Throw TypeError).
    { unfold calculateWhoDisposeData. destruct (disposeCount data) as [c|[]]; cbn [bind];
        split; try discriminate; reflexivity. }
    rewrite E. unfold disposeCount.
    rewrite (classified_throws (fun row => categorize (disposeValue row))).
    apply Exists_ext. intros row. apply categorize_throws.
  - intros counts Hc. split; [|split].
    + apply (classified_total (fun row => categorize (disposeValue row))) in Hc.
      rewrite Hc. reflexivity.
    + apply (classified_NoDup (fun row => categorize (disposeValue row)) data []);
        [constructor | exact Hc].
    + intros c.
      apply (classified_count (fun row => categorize (disposeValue row)) _ _ _ c) in Hc.
      rewrite Hc. reflexivity.
Qed.

Lemma who_dispose_counts_each_row_once_witness :
  totalCount [("Vendors / Small Stalls", 1%nat); ("People from Outside", 1%nat);
              ("Passing Crowd / Vehicle People", 1%nat);
              ("Households and Vendors Mixed", 1%nat); ("Construction Waste", 1%nat);
              ("Showrooms / Commercial Establishments", 1%nat)]
  = length sixDisposers.
Proof.
  apply (proj2 (who_dispose_counts_each_row_once sixDisposers)).
  vm_compute. reflexivity.
Defined.

(** X11. [calculateSettingData] classifies the first truthy value among the
    columns "In_what_setting_is_the_GVP_pre", "Location Type" and "other".
    It throws exactly when, for some row, that value is not a text.
    Otherwise every row is counted once, in the category
    [categorizeLocation] gives it. *)
Theorem setting_counts_each_row_once (data : list (gmap string JsVal)) :
  (calculateSettingData data = Throw TypeError <->
   Exists (fun row =>
             textOrFalsy (js_or (js_or (get row "In_what_setting_is_the_GVP_pre")
                                       (get row "Location Type"))
                                (get row "other")) = false) data) /\
  (forall counts, settingCount data = Ok counts ->
     totalCount counts = length data /\ NoDup (counts.*1) /\
     forall c, default 0%nat (lookupCount counts c)
               = length (List.filter
                           (fun row => found c (categorizeLocation (settingValue row)))
                           data)).
Proof.
  split.
  - assert (E : calculateSettingData data = Throw TypeError
                <-> settingCount data = Throw TypeError).
    { unfold calculateSettingData. destruct (settingCount data) as [c|[]]; cbn [bind];
        split; try discriminate; reflexivity. }
    rewrite E. unfold settingCount.
    rewrite (classified_throws (fun row => categorizeLocation (settingValue row))).
    apply Exists_ext. intros row. apply categorizeLocation_throws.
  - intros counts Hc. split; [|split].
    + apply (classified_total (fun row => categorizeLocation (settingValue row))) in Hc.
      rewrite Hc. reflexivity.
    + apply (classified_NoDup (fun row => categorizeLocation (settingValue row)) data []);
        [constructor | exact Hc].
    + intros c.
      apply (classified_count (fun row => categorizeLocation (settingValue row)) _ _ _ c)
        in Hc.
      rewrite Hc. reflexivity.
Qed.

Lemma setting_counts_each_row_once_witness :
  totalCount [("Market / Commercial Area", 1%nat)] = length [marketRow].
Proof.
  apply (proj2 (setting_counts_each_row_once [marketRow])).
  vm_compute. reflexivity.
Defined.

(** ** What the solutions chart counts, and when it throws *)

Section SolutionCounts.

Implicit Types (counts : list (string * nat)) (data : list (gmap string JsVal))
  (row : gmap string JsVal).

Lemma sum_list_cons (n : nat) (l : list nat) :
  sum_list (n :: l) = (n + sum_list l)%nat.
Proof. reflexivity. Qed.

Lemma lookupCount_zeros counts (c : string) :
  Forall (fun kn => kn.2 = 0%nat) counts -> default 0%nat (lookupCount counts c) = 0%nat.
Proof.
  induction 1 as [|[k n] rest Hn _ IH]; [reflexivity|].
  cbn [lookupCount]. destruct (String.eqb k c); [exact Hn | exact IH].
Qed.

Lemma forEach_throws {A S : Type} (body : S -> A -> result S) (bad : A -> bool)
    (xs : list A) (s : S) :
  (forall s x, bad x = true -> body s x = Throw TypeError) ->
  (forall s x, bad x = false -> exists s', body s x = Ok s') ->
  forEach body xs s = Throw TypeError <-> Exists (fun x => bad x = true) xs.
Proof.
  intros Hbad Hgood. revert s. induction xs as [|x xs IH]; intros s; cbn [forEach].
  - split; [discriminate | intros H; inversion H].
  - destruct (bad x) eqn:E.
    + rewrite (Hbad s x E). cbn [bind]. split; [now left | reflexivity].
    + destruct (Hgood s x E) as [s' ->]. cbn [bind]. rewrite IH.
      split; [now right|]. intros H. inversion H; [congruence | assumption].
Qed.

Lemma solutionColumn_throws row counts (col : string) :
  textOrFalsy (get row col) = false -> solutionColumn row counts col = Throw TypeError.
Proof.
  unfold solutionColumn. destruct (get row col) as [ | | [] | q | s];
    cbn [textOrFalsy truthy negb]; try discriminate; try reflexivity.
  destruct (Qeq_bool q 0); cbn [negb]; [discriminate | reflexivity].
Qed.

Lemma solutionRow_throws row counts :
  forEach (solutionColumn row) solutionColumns counts = Throw TypeError
  <-> Exists (fun col => textOrFalsy (get row col) = false) solutionColumns.
Proof.
  rewrite (forEach_throws (solutionColumn row)
             (fun col => negb (textOrFalsy (get row col)))).
  - apply Exists_ext. intros col. apply negb_true_iff.
  - intros s col H. apply negb_true_iff in H. now apply solutionColumn_throws.
  - intros s col H. apply negb_false_iff in H. rewrite solutionColumn_counts by exact H.
    eauto.
Qed.

Lemma solutionRow_ok row counts counts' :
  forEach (solutionColumn row) solutionColumns counts = Ok counts' ->
  counts' = foldl (fun counts c => bump c counts) counts (contribution row).
Proof.
  intros H.
  assert (Hall : Forall (fun col => textOrFalsy (get row col) = true) solutionColumns).
  { apply Forall_forall. intros col Hin.
    destruct (textOrFalsy (get row col)) eqn:E; [reflexivity|].
    assert (Hthrow : forEach (solutionColumn row) solutionColumns counts = Throw TypeError).
    { apply solutionRow_throws. apply Exists_exists. eauto. }
    congruence. }
  rewrite (solutionColumns_counts row solutionColumns counts Hall) in H.
  now apply Ok_inj in H.
Qed.

Lemma lookupCount_bumps (cs : list string) counts (c : string) :
  default 0%nat (lookupCount (foldl (fun counts c => bump c counts) counts cs) c)
  = (default 0%nat (lookupCount counts c) + length (List.filter (String.eqb c) cs))%nat.
Proof.
  revert counts. induction cs as [|c' cs IH]; intros counts; cbn [foldl List.filter].
  - cbn. lia.
  - rewrite IH, lookupCount_bump. rewrite (String.eqb_sym c c').
    destruct (String.eqb c' c); cbn [length]; lia.
Qed.

Lemma contribution_at_most_3 row : (length (contribution row) <= 3)%nat.
Proof.
  unfold contribution. change 3%nat with (length solutionColumns).
  generalize solutionColumns as cols. induction cols as [|col cols IH]; [reflexivity|].
  cbn [omap list_omap length].
  destruct (if eligible (get row col) then recognised (get row col) else None);
    cbn [length]; lia.
Qed.

Lemma solutionCount_from data counts0 counts (c : string) :
  forEach (fun counts row => forEach (solutionColumn row) solutionColumns counts)
          data counts0 = Ok counts ->
  totalCount counts
  = (totalCount counts0 + sum_list (map (fun row => length (contribution row)) data))%nat /\
  default 0%nat (lookupCount counts c)
  = (default 0%nat (lookupCount counts0 c)
     + sum_list (map (fun row => length (List.filter (String.eqb c) (contribution row)))
                     data))%nat.
Proof.
  revert counts0. induction data as [|row data IH]; intros counts0; cbn [forEach].
  - intros [= <-]. cbn. lia.
  - destruct (forEach (solutionColumn row) solutionColumns counts0) as [c1|] eqn:E;
      cbn [bind]; [|discriminate].
    intros H. apply solutionRow_ok in E. subst c1.
    destruct (IH _ H) as [Ht Hl]. rewrite Ht, Hl, totalCount_bumps, lookupCount_bumps.
    cbn [map]. rewrite !sum_list_cons. lia.
Qed.

(** X12. [calculateSolutionData] throws exactly when some row holds, in
    one of the three solution columns, a truthy value that is not a text.
    Otherwise the count of a category is the number of columns, over all
    rows, that count for it, and the counts add up to the number of such
    columns: at most three for each row. *)
Theorem solutions_count_recognised_columns data :
  (calculateSolutionData data = Throw TypeError <->
   Exists (fun row =>
             Exists (fun col => textOrFalsy (get row col) = false) solutionColumns)
          data) /\
  (forall counts, solutionCount data = Ok counts ->
     totalCount counts = sum_list (map (fun row => length (contribution row)) data) /\
     (totalCount counts <= 3 * length data)%nat /\
     forall c, c ∈ map category solutionCategories ->
       lookupCount counts c
       = Some (sum_list (map (fun row => length (List.filter (String.eqb c)
                                                             (contribution row)))
                             data))).
Proof.
  split.
  - assert (E : calculateSolutionData data = Throw TypeError
                <-> solutionCount data = Throw TypeError).
    { unfold calculateSolutionData. destruct (solutionCount data) as [c|[]]; cbn [bind].
      - destruct (totalCount c =? 0)%nat; split; discriminate.
      - split; reflexivity. }
    rewrite E. unfold solutionCount.
    rewrite (forEach_throws
               (fun counts row => forEach (solutionColumn row) solutionColumns counts)
               (fun row => existsb (fun col => negb (textOrFalsy (get row col)))
                                   solutionColumns)).
    + apply Exists_ext. intros row. rewrite existsb_exists, Exists_exists.
      split; intros (col & Hin & H); exists col.
      * apply negb_true_iff in H. split; [now apply list_elem_of_In | exact H].
      * split; [now apply list_elem_of_In | now apply negb_true_iff].
    + intros s row H. apply solutionRow_throws. apply existsb_exists in H as (col & Hin & H).
      apply Exists_exists. exists col. apply negb_true_iff in H.
      split; [now apply list_elem_of_In | exact H].
    + intros s row H.
      destruct (forEach (solutionColumn row) solutionColumns s) as [s'|[]] eqn:E';
        [eauto|].
      apply solutionRow_throws, Exists_exists in E' as (col & Hin & Hbad).
      assert (Hex : existsb (fun col => negb (textOrFalsy (get row col))) solutionColumns
                    = true).
      { apply existsb_exists. exists col. split; [now apply list_elem_of_In|].
        now apply negb_true_iff. }
      congruence.
  - intros counts Hc. pose proof (solutionCount_keys data counts Hc) as Hkeys.
    unfold solutionCount in Hc. split; [|split].
    + now destruct (solutionCount_from data solutionCount0 counts "" Hc) as [-> _].
    + destruct (solutionCount_from data solutionCount0 counts "" Hc) as [-> _].
      change (totalCount solutionCount0) with 0%nat. cbn [Nat.add].
      clear. induction data as [|row data IH]; [cbn; lia|].
      cbn [map length]. rewrite sum_list_cons.
      pose proof (contribution_at_most_3 row). lia.
    + intros c Hin.
      destruct (solutionCount_from data solutionCount0 counts c Hc) as [_ Hl].
      assert (H0 : default 0%nat (lookupCount solutionCount0 c) = 0%nat).
      { apply lookupCount_zeros. repeat constructor. }
      rewrite H0 in Hl. cbn [Nat.add] in Hl. rewrite <- Hl.
      assert (Hsome : is_Some (lookupCount counts c)).
      { rewrite <- Hkeys in Hin. clear -Hin. induction counts as [|[k n] rest IH].
        - inversion Hin.
        - cbn [lookupCount]. destruct (String.eqb_spec k c) as [-> | Hne]; [eauto|].
          apply IH. rewrite fmap_cons in Hin.
          apply elem_of_cons in Hin as [E | Hin]; [now contradiction Hne | exact Hin]. }
      destruct Hsome as [n Hn]. now rewrite Hn.
Qed.

Lemma solutions_count_recognised_columns_witness :
  totalCount (bump "Bins and Facilites" solutionCount0)
  = sum_list (map (fun row => length (contribution row)) [moreBinsRow]).
Proof.
  apply (proj2 (solutions_count_recognised_columns [moreBinsRow])).
  vm_compute. reflexivity.
Defined.

End SolutionCounts.

(** ** More on the classifiers *)

Section Normalised.

Lemma toLowerCase_idem (s : string) : toLowerCase (toLowerCase s) = toLowerCase s.
Proof.
  induction s as [|c s IH]; cbn [toLowerCase]; [reflexivity|].
  now rewrite lower_ascii_idem, IH.
Qed.

Lemma trimStart_head (s : string) :
  match trimStart s with
  | EmptyString => True
  | String c _ => is_space c = false
  end.
Proof.
  induction s as [|c s IH]; cbn [trimStart]; [exact I|].
  destruct (is_space c) eqn:E; [exact IH | exact E].
Qed.

Lemma trimEnd_head (c : ascii) (s : string) :
  is_space c = false -> exists t, trimEnd (String c s) = String c t.
Proof.
  intros E. cbn [trimEnd]. destruct (trimEnd s); [rewrite E|]; eauto.
Qed.

Lemma trimEnd_idem (s : string) : trimEnd (trimEnd s) = trimEnd s.
Proof.
  induction s as [|c s IH]; [reflexivity|]. cbn [trimEnd].
  destruct (trimEnd s) as [|a t] eqn:E.
  - destruct (is_space c) eqn:Ec; [reflexivity|]. cbn [trimEnd]. now rewrite Ec.
  - cbn [trimEnd] in *. now rewrite IH.
Qed.

Lemma trim_idem (s : string) : trim (trim s) = trim s.
Proof.
  unfold trim. pose proof (trimStart_head s) as H.
  destruct (trimStart s) as [|c t]; [reflexivity|].
  destruct (trimEnd_head c t H) as [t' E]. rewrite E.
  cbn [trimStart]. rewrite H. rewrite <- E. apply trimEnd_idem.
Qed.

Lemma lowerTrim_lower (s : string) : lowerTrim (toLowerCase s) = lowerTrim s.
Proof. unfold lowerTrim. now rewrite toLowerCase_idem. Qed.

Lemma lowerTrim_trimmed (s : string) : lowerTrim (trim s) = lowerTrim s.
Proof. now rewrite !lowerTrim_trim, trim_idem. Qed.

(** X13. The three classifiers do not tell apart two texts that differ
    only in the case of ASCII letters and in white space at the ends: the
    lower-cased text and the trimmed text are classified as the text
    itself. *)
Theorem classifiers_ignore_case_and_margins (s s' : string) :
  toLowerCase (trim s) = toLowerCase (trim s') ->
  (categorize (JStr s) = categorize (JStr s') /\
   categorizeLocation (JStr s) = categorizeLocation (JStr s') /\
   categorizeSolution (JStr s) = categorizeSolution (JStr s')) /\
  (toLowerCase (trim (toLowerCase s)) = toLowerCase (trim s) /\
   toLowerCase (trim (trim s)) = toLowerCase (trim s)).
Proof.
  intros H. rewrite <- !lowerTrim_trim in *. split; [|split].
  - rewrite !categorize_str, !categorizeLocation_str, !categorizeSolution_str.
    now rewrite H.
  - apply lowerTrim_lower.
  - apply lowerTrim_trimmed.
Qed.

Lemma classifiers_ignore_case_and_margins_witness :
  categorize (JStr "  Street VENDOR ") = categorize (JStr "street vendor") /\
  categorizeLocation (JStr "  Street VENDOR ") = categorizeLocation (JStr "street vendor") /\
  categorizeSolution (JStr "  Street VENDOR ") = categorizeSolution (JStr "street vendor").
Proof.
  apply (classifiers_ignore_case_and_margins "  Street VENDOR " "street vendor").
  vm_compute. reflexivity.
Defined.

(** X14. A classifier answers with a category its table declares: the two
    default categories are themselves names of entries, and
    [categorizeSolution] answers with such a name or with [null]. *)
Theorem classifiers_answer_within_their_table (text : JsVal) (c : string) :
  (categorize text = Ok c -> c ∈ map category categoryMap) /\
  (categorizeLocation text = Ok c -> c ∈ map category locationMap) /\
  (categorizeSolution text = Ok (Some c) -> c ∈ map category solutionCategories).
Proof.
  split; [|split].
  - unfold categorize. destruct (str_method lowerTrim text) as [t|]; cbn [bind];
      [|discriminate].
    intros H. apply Ok_inj in H.
    destruct (firstMatch (includesLower t) categoryMap) as [c'|] eqn:E; cbn in H; subst c.
    + now apply firstMatch_category in E.
    + apply (bool_decide_unpack _). vm_compute. exact I.
  - unfold categorizeLocation.
    destruct (str_method lowerTrim (js_or text (JStr ""))) as [t|]; cbn [bind];
      [|discriminate].
    intros H. apply Ok_inj in H.
    destruct (firstMatch (includes t) locationMap) as [c'|] eqn:E; cbn in H; subst c.
    + now apply firstMatch_category in E.
    + apply (bool_decide_unpack _). vm_compute. exact I.
  - unfold categorizeSolution.
    destruct (str_method lowerTrim (js_or text (JStr ""))) as [t|]; cbn [bind];
      [|discriminate].
    intros H. apply Ok_inj in H. now apply firstMatch_category in H.
Qed.

Lemma classifiers_answer_within_their_table_witness :
  "Vendors / Small Stalls" ∈ map category categoryMap /\
  "Market / Commercial Area" ∈ map category locationMap /\
  "Bins and Facilites" ∈ map category solutionCategories.
Proof.
  split; [|split].
  - apply (proj1 (classifiers_answer_within_their_table (JStr "chai wale") _)).
    vm_compute. reflexivity.
  - apply (proj1 (proj2 (classifiers_answer_within_their_table (JStr "Bazaar") _))).
    vm_compute. reflexivity.
  - apply (proj2 (proj2 (classifiers_answer_within_their_table (JStr "Dustbins") _))).
    vm_compute. reflexivity.
Defined.

Lemma hits_grow (t t' : string) (e : TaxonomyEntry) (lower : string -> string) :
  includes t' t = true ->
  hits (fun k => includes t (lower k)) e = true ->
  hits (fun k => includes t' (lower k)) e = true.
Proof.
  intros Hsub. rewrite !hits_true. intros (k & Hin & Hk). exists k. split; [exact Hin|].
  eapply includes_trans; eauto.
Qed.

Lemma firstMatch_grow (t t' : string) (table : TaxonomyTable) (lower : string -> string) :
  includes t' t = true ->
  is_Some (firstMatch (fun k => includes t (lower k)) table) ->
  is_Some (firstMatch (fun k => includes t' (lower k)) table).
Proof.
  intros Hsub. induction table as [|e table IH]; cbn [firstMatch]; [intros [x H]; discriminate|].
  destruct (hits (fun k => includes t (lower k)) e) eqn:E.
  - intros _. rewrite (hits_grow t t' e lower Hsub E). eauto.
  - intros H. destruct (hits (fun k => includes t' (lower k)) e); eauto.
Qed.

(** X15. A text that contains a text in which [categorizeSolution] finds a
    category is not left without one: more words cannot make a suggestion
    drop out of the solutions chart. *)
Theorem longer_suggestion_still_recognised (s s' : string) (c : string) :
  includes (lowerTrim s') (lowerTrim s) = true ->
  categorizeSolution (JStr s) = Ok (Some c) ->
  exists c', categorizeSolution (JStr s') = Ok (Some c').
Proof.
  rewrite !categorizeSolution_str. intros Hsub H. apply Ok_inj in H.
  destruct (firstMatch_grow (lowerTrim s) (lowerTrim s') solutionCategories toLowerCase Hsub)
    as [c' Hc'].
  - unfold includesLower in H. rewrite H. eauto.
  - exists c'. unfold includesLower. now rewrite Hc'.
Qed.

Lemma longer_suggestion_still_recognised_witness :
  exists c', categorizeSolution (JStr "Please add more bins near the school") = Ok (Some c').
Proof.
  apply (longer_suggestion_still_recognised "More Bins"
           "Please add more bins near the school" "Bins and Facilites");
    vm_compute; reflexivity.
Defined.

(** X16. Of the three keywords of the entry "Market / Vendor Community",
    "vendors" and "stall" are met first by the entry "Vendors / Small
    Stalls": [categorize] answers "Market / Vendor Community" only for a
    text that contains "market". *)
Theorem market_community_only_by_market (text : JsVal) :
  categorize text = Ok "Market / Vendor Community" ->
  exists s, text = JStr s /\ includes (lowerTrim s) "market" = true.
Proof.
  destruct text as [ | | b | q | s]; try discriminate.
  rewrite categorize_str. intros H. apply Ok_inj in H. exists s. split; [reflexivity|].
  destruct (firstMatch (includesLower (lowerTrim s)) categoryMap) as [c|] eqn:E;
    simpl in H; [subst c | discriminate].
  apply firstMatch_Some in E as (i & e & Hi & Hc & He & Hbefore).
  assert (Hlt : (i < 12)%nat) by (apply lookup_lt_Some in Hi; exact Hi).
  assert (Hpos : i = 11%nat).
  { do 12 (destruct i as [|i];
           [first [reflexivity | exfalso; injection Hi as <-; discriminate Hc] | ]).
    lia. }
  subst i. injection Hi as <-.
  assert (H2 : forall k, In k ["vendor"; "stall"] ->
                         includes (lowerTrim s) k = false).
  { intros k Hk. destruct (includes (lowerTrim s) k) eqn:Ek; [|reflexivity].
    assert (Hhit : hits (includesLower (lowerTrim s))
                     (entry "Vendors / Small Stalls"
                        [ "vendor"; "stall"; "shop"; "chai wale"; "market wale";
                          "street vendor" ]) = true).
    { apply hits_true. exists k. split.
      - cbn [keywords]. destruct Hk as [<- | [<- | []]]; cbn; tauto.
      - unfold includesLower.
        destruct Hk as [<- | [<- | []]]; exact Ek. }
    rewrite (Hbefore 1%nat _ ltac:(lia) eq_refl) in Hhit. discriminate. }
  apply hits_true in He as (k & Hk & Hin). unfold includesLower in Hin.
  cbn [keywords In] in Hk. destruct Hk as [<- | [<- | [<- | []]]].
  - exact Hin.
  - assert (Hv : includes (lowerTrim s) "vendor" = true)
      by (eapply includes_trans; [exact Hin | vm_compute; reflexivity]).
    rewrite H2 in Hv by (cbn; tauto). discriminate.
  - change (toLowerCase "stall") with "stall" in Hin.
    rewrite H2 in Hin by (cbn; tauto). discriminate.
Qed.

Lemma market_community_only_by_market_witness :
  exists s, JStr "Old Market" = JStr s /\ includes (lowerTrim s) "market" = true.
Proof.
  apply (market_community_only_by_market (JStr "Old Market")).
  vm_compute. reflexivity.
Defined.

End Normalised.

(** ** Wards, table rows and the selected row *)

Section Selection.

Variable showNum : Q -> string.

Implicit Types (allData table : list (gmap string JsVal)) (row : gmap string JsVal)
  (selectedWards prev : list string) (ward : string).

Lemma filter_all {A : Type} (p : A -> bool) (l : list A) :
  (forall x, p x = true) -> List.filter p l = l.
Proof.
  intros H. induction l as [|x l IH]; [reflexivity|].
  cbn [List.filter]. now rewrite H, IH.
Qed.

Lemma filter_other_absent ward prev :
  ward ∉ prev -> List.filter (fun w => negb (String.eqb w ward)) prev = prev.
Proof.
  induction prev as [|w prev IH]; intros Hnot; [reflexivity|].
  apply not_elem_of_cons in Hnot as [Hne Hrest]. cbn [List.filter].
  destruct (String.eqb_spec w ward) as [-> | _]; [now contradiction Hne|].
  cbn [negb]. now rewrite IH.
Qed.

(** X17. Ticking a ward and then clearing it leaves the selection without
    that ward, and as it was when the ward was not in it. With no ward
    selected the filter keeps every row: clearing the only selected ward
    shows the whole data set, not an empty one. *)
Theorem ward_selection_round_trip prev ward allData :
  handleWardChange (handleWardChange prev ward true) ward false
  = handleWardChange prev ward false /\
  (ward ∉ prev -> handleWardChange (handleWardChange prev ward true) ward false = prev) /\
  filteredData showNum [] allData = allData /\
  filteredData showNum (handleWardChange [ward] ward false) allData = allData.
Proof.
  assert (E : handleWardChange (handleWardChange prev ward true) ward false
              = handleWardChange prev ward false).
  { unfold handleWardChange. rewrite List.filter_app. cbn [List.filter].
    rewrite String.eqb_refl. cbn [negb]. apply app_nil_r. }
  split; [exact E|]. split; [|split].
  - intros Hnot. rewrite E. unfold handleWardChange. now apply filter_other_absent.
  - unfold filteredData. now apply filter_all.
  - unfold handleWardChange. cbn [List.filter]. rewrite String.eqb_refl. cbn [negb].
    unfold filteredData. now apply filter_all.
Qed.

Lemma elem_of_filter_bool {A : Type} (p : A -> bool) (l : list A) (x : A) :
  x ∈ List.filter p l <-> x ∈ l /\ p x = true.
Proof. rewrite !list_elem_of_In. apply filter_In. Qed.

(** X18. Whatever wards are ticked and whatever row index is selected, a
    row that reaches the cards and the charts is a row of the data set
    whose "Type_of_Form" is "form_for_gvp", and, when some ward is ticked,
    a row of a ticked ward. *)
Theorem chart_rows_are_gvp_rows_of_selected_wards
    selectedWards (selectedRowIndex : option nat) allData row :
  row ∈ filteredDataForCards selectedRowIndex
          (filteredTableData (filteredData showNum selectedWards allData)) ->
  row ∈ allData /\
  get row "Type_of_Form" = JStr "form_for_gvp" /\
  (selectedWards = [] \/ jsString showNum (get row "GVP Ward") ∈ selectedWards).
Proof.
  intros Hin.
  assert (Htable : row ∈ filteredTableData (filteredData showNum selectedWards allData)).
  { unfold filteredDataForCards, selectedRow in Hin.
    destruct selectedRowIndex as [i|]; [|exact Hin].
    destruct (filteredTableData (filteredData showNum selectedWards allData) !! i)
      as [r|] eqn:E; [|exact Hin].
    apply list_elem_of_singleton in Hin. subst r. eapply list_elem_of_lookup_2; eauto. }
  unfold filteredTableData, filteredData in Htable.
  apply elem_of_filter_bool in Htable as [Htable Hform].
  apply elem_of_filter_bool in Htable as [Hall Hward].
  split; [exact Hall|]. split.
  - unfold is_text in Hform. destruct (get row "Type_of_Form"); try discriminate.
    apply String.eqb_eq in Hform. now subst.
  - apply orb_true_iff in Hward as [Hlen | Hsel].
    + left. destruct selectedWards; [reflexivity | discriminate].
    + right. unfold includesStr in Hsel. apply existsb_exists in Hsel as (w & Hw & Heq).
      apply String.eqb_eq in Heq. subst w. now apply list_elem_of_In.
Qed.

Lemma findIndex_Some {A : Type} (p : A -> bool) (xs : list A) (i : nat) :
  findIndex p xs = Some i <->
  exists x, xs !! i = Some x /\ p x = true /\
            forall j y, (j < i)%nat -> xs !! j = Some y -> p y = false.
Proof.
  revert i. induction xs as [|x xs IH]; intros i; cbn [findIndex].
  - split; [discriminate | intros (y & H & _); discriminate].
  - destruct (p x) eqn:E.
    + split.
      * intros [= <-]. exists x. repeat split; auto. intros j y Hj. lia.
      * intros (y & Hy & Hp & Hbefore). destruct i as [|i]; [reflexivity|].
        rewrite (Hbefore 0%nat x) in E; [discriminate | lia | reflexivity].
    + destruct i as [|i].
      * split.
        -- destruct (findIndex p xs); discriminate.
        -- intros (y & [= <-] & Hp & _). congruence.
      * split.
        -- destruct (findIndex p xs) as [k|] eqn:Ek; [|discriminate].
           intros [= <-]. destruct (proj1 (IH k) eq_refl) as (y & Hy & Hp & Hbefore).
           exists y. repeat split; auto. intros [|j] z Hj Hz.
           ++ injection Hz as <-. exact E.
           ++ apply (Hbefore j); [lia | exact Hz].
        -- intros (y & Hy & Hp & Hbefore).
           assert (Hk : findIndex p xs = Some i).
           { apply IH. exists y. repeat split; auto. intros j z Hj Hz.
             apply (Hbefore (S j)); [lia | exact Hz]. }
           now rewrite Hk.
Qed.

Lemma findIndex_None {A : Type} (p : A -> bool) (xs : list A) :
  findIndex p xs = None -> forall x, x ∈ xs -> p x = false.
Proof.
  induction xs as [|x xs IH]; cbn [findIndex]; intros H y Hy; [inversion Hy|].
  destruct (p x) eqn:E; [discriminate|].
  apply elem_of_cons in Hy as [-> | Hy]; [exact E|].
  apply IH; [|exact Hy]. destruct (findIndex p xs); [discriminate | reflexivity].
Qed.

(** X20. A click on the marker of a row of the table, with no row
    selected, selects the first row of the table that has the latitude,
    longitude and ward of the clicked row; a second click on the marker
    clears the selection. *)
Theorem marker_click_selects_first_row_of_that_key table row :
  row ∈ table ->
  exists idx first,
    handleMarkerClick showNum None table row = Some idx /\
    table !! idx = Some first /\
    keyOfRow showNum first = keyOfRow showNum row /\
    (forall j r, (j < idx)%nat -> table !! j = Some r ->
                 keyOfRow showNum r <> keyOfRow showNum row) /\
    handleMarkerClick showNum (Some idx) table row = None.
Proof.
  intros Hin. unfold handleMarkerClick.
  destruct (findIndex (fun r => String.eqb (keyOfRow showNum r) (keyOfRow showNum row))
                      table) as [idx|] eqn:E.
  - apply findIndex_Some in E as (first & Hfirst & Hkey & Hbefore).
    exists idx, first. split; [reflexivity|]. split; [exact Hfirst|].
    split; [now apply String.eqb_eq|]. split.
    + intros j r Hj Hr. apply String.eqb_neq. eapply Hbefore; eauto.
    + now rewrite Nat.eqb_refl.
  - pose proof (findIndex_None _ _ E row Hin) as H. cbv beta in H.
    rewrite String.eqb_refl in H. discriminate.
Qed.

End Selection.

Lemma ward_selection_round_trip_witness :
  handleWardChange (handleWardChange ["12"] "13" true) "13" false = ["12"].
Proof.
  apply (ward_selection_round_trip (fun _ => "") ["12"] "13" []).
  intros H. apply list_elem_of_singleton in H. discriminate.
Defined.

Lemma chart_rows_are_gvp_rows_of_selected_wards_witness :
  gvpRow13 ∈ [gvpRow13] /\
  get gvpRow13 "Type_of_Form" = JStr "form_for_gvp" /\
  (["13"] = [] \/ jsString (fun _ => "") (get gvpRow13 "GVP Ward") ∈ ["13"]).
Proof.
  apply (chart_rows_are_gvp_rows_of_selected_wards (fun _ => "") ["13"] (Some 0%nat)).
  assert (E : filteredDataForCards (Some 0%nat)
                (filteredTableData (filteredData (fun _ => "") ["13"] [gvpRow13]))
              = [gvpRow13]) by (vm_compute; reflexivity).
  rewrite E. apply list_elem_of_singleton. reflexivity.
Defined.

Lemma marker_click_selects_first_row_of_that_key_witness :
  exists idx first,
    handleMarkerClick (fun _ => "") None [gvpRow13] gvpRow13 = Some idx /\
    [gvpRow13] !! idx = Some first /\
    keyOfRow (fun _ => "") first = keyOfRow (fun _ => "") gvpRow13 /\
    (forall j r, (j < idx)%nat -> [gvpRow13] !! j = Some r ->
                 keyOfRow (fun _ => "") r <> keyOfRow (fun _ => "") gvpRow13) /\
    handleMarkerClick (fun _ => "") (Some idx) [gvpRow13] gvpRow13 = None.
Proof.
  apply (marker_click_selects_first_row_of_that_key (fun _ => "") [gvpRow13] gvpRow13).
  apply list_elem_of_singleton. reflexivity.
Defined.

(** ** The tooltip of a marker *)

Section Tooltip.

Variable showNum : Q -> string.

Implicit Types (row : gmap string JsVal) (s : string).

Lemma append_empty (a b : string) : a +:+ b = "" <-> a = "" /\ b = "".
Proof.
  destruct a as [|c a].
  - rewrite append_nil. split; [auto | now intros [_ ->]].
  - rewrite append_cons. split; [discriminate | intros [H _]; discriminate].
Qed.

Lemma nonEmpty_false s : nonEmpty s = false <-> s = "".
Proof.
  unfold nonEmpty. rewrite negb_false_iff. apply String.eqb_eq.
Qed.

Lemma guarded_empty (cond : bool) s :
  s <> "" -> (if cond then s else "") = "" <-> cond = false.
Proof. intros H. destruct cond; split; try reflexivity; try discriminate; congruence. Qed.

Lemma guarded_by_itself (body header : string) :
  header <> "" ->
  (if nonEmpty body then header +:+ LB +:+ body else "") = "" <-> body = "".
Proof.
  intros H. rewrite guarded_empty.
  - apply nonEmpty_false.
  - intros E. apply append_empty in E as [E _]. contradiction.
Qed.

Lemma labelled_empty row (label column : string) :
  label <> "" ->
  labelled showNum row label column = "" <-> truthy (get row column) = false.
Proof.
  intros H. unfold labelled. apply guarded_empty.
  intros E. apply append_empty in E as [E _]. contradiction.
Qed.

Lemma join_empty (sep : string) (lines : list string) :
  Forall (fun l => l <> "") lines -> join sep lines = "" <-> lines = [].
Proof.
  intros H. destruct H as [|l lines Hl Hrest]; [split; reflexivity|].
  split; [|discriminate]. cbn [join]. destruct lines as [|l' lines].
  - intros E. contradiction.
  - intros E. apply append_empty in E as [E _]. contradiction.
Qed.

Lemma flagLines_empty (labels : list (string * string)) row :
  flagLines labels row = [] <->
  Forall (fun k => is_one (get row k) || is_true (get row k) = false) (labels.*1).
Proof.
  unfold flagLines. induction labels as [|[k l] labels IH].
  - split; [constructor | reflexivity].
  - cbn [List.filter fst]. rewrite fmap_cons, Forall_cons. cbn [fst].
    destruct (is_one (get row k) || is_true (get row k)).
    + rewrite fmap_cons. split; [discriminate | intros [H _]; discriminate].
    + rewrite IH. tauto.
Qed.

Lemma flagLines_nonempty (labels : list (string * string)) row :
  Forall (fun kv => kv.2 <> "") labels ->
  Forall (fun l => l <> "") (flagLines labels row).
Proof.
  unfold flagLines. induction 1 as [|[k l] labels Hl _ IH]; [constructor|].
  cbn [List.filter fst]. destruct (is_one (get row k) || is_true (get row k)); [|exact IH].
  rewrite fmap_cons. now constructor.
Qed.

Lemma flags_joined_empty (labels : list (string * string)) row :
  Forall (fun kv => kv.2 <> "") labels ->
  join LB (flagLines labels row) = "" <->
  Forall (fun k => is_one (get row k) || is_true (get row k) = false) (labels.*1).
Proof.
  intros H. rewrite join_empty by now apply flagLines_nonempty.
  apply flagLines_empty.
Qed.

Lemma falsy_textOrFalsy (v : JsVal) : truthy v = false -> textOrFalsy v = true.
Proof.
  destruct v; cbn [textOrFalsy]; try (intros ->; reflexivity). reflexivity.
Qed.

Lemma NearestLocation_cases row :
  (truthy (get row "Nearest Location") = false /\ NearestLocation row = Ok "") \/
  (truthy (get row "Nearest Location") = true /\
   textOrFalsy (get row "Nearest Location") = true /\
   exists text, NearestLocation row = Ok text /\ text <> "") \/
  (textOrFalsy (get row "Nearest Location") = false /\
   NearestLocation row = Throw TypeError).
Proof.
  unfold NearestLocation. cbv zeta.
  destruct (get row "Nearest Location") as [ | | [] | q | s];
    cbn [truthy textOrFalsy negb str_method bind]; auto.
  - destruct (Qeq_bool q 0); cbn [negb]; auto.
  - destruct (negb (String.eqb s "")); [|auto].
    right. left. split; [reflexivity|]. split; [reflexivity|]. eexists. split; [reflexivity|].
    intros E. apply append_empty in E as [E _]. discriminate.
Qed.

(** X21. The tooltip throws exactly when "Nearest Location" holds a truthy
    value that is not a text, the one value it calls a method of. *)
Theorem tooltip_throws_on_non_text_location row :
  getGarbagePointInfo showNum row = Throw TypeError
  <-> textOrFalsy (get row "Nearest Location") = false.
Proof.
  unfold getGarbagePointInfo.
  destruct (NearestLocation_cases row) as [[Hf ->] | [(Ht & Htext & text & -> & _) | [Hbad ->]]];
    cbn [bind].
  - split; [discriminate|]. intros H.
    rewrite (falsy_textOrFalsy _ Hf) in H. discriminate.
  - split; [discriminate | congruence].
  - split; [intros _; exact Hbad | reflexivity].
Qed.

Lemma truthy_or (a b : JsVal) :
  truthy (js_or a b) = false <-> truthy a = false /\ truthy b = false.
Proof.
  unfold js_or. destruct (truthy a) eqn:E.
  - rewrite E. split; [discriminate | intros [H _]; discriminate].
  - tauto.
Qed.

Lemma WasteTypeSection_empty row :
  WasteTypeSection showNum row = "" <->
  Forall (fun k => is_one (get row k) || is_true (get row k) = false) (wasteTypesMap.*1) /\
  truthy (get row "Other Waste Found") = false.
Proof.
  unfold WasteTypeSection. cbv zeta. rewrite guarded_empty.
  - rewrite orb_false_iff, !nonEmpty_false, guarded_empty.
    + rewrite flags_joined_empty; [tauto|]. repeat constructor; discriminate.
    + intros E. apply append_empty in E as [E _]. discriminate.
  - intros E. apply append_empty in E as [E _]. discriminate.
Qed.

Lemma GenderBlock_empty row :
  GenderBlock showNum row = "" <->
  truthy (get row "No of Women") = false /\ truthy (get row "No of Men") = false.
Proof.
  unfold GenderBlock. cbv zeta. rewrite guarded_empty; [apply truthy_or|].
  intros E. apply append_empty in E as [E _]. discriminate.
Qed.

Lemma WasteReasonsSection_empty row :
  WasteReasonsSection row = "" <->
  Forall (fun k => is_one (get row k) || is_true (get row k) = false)
         (wasteReasonsMap.*1).
Proof.
  unfold WasteReasonsSection. cbv zeta. rewrite guarded_empty.
  - rewrite nonEmpty_false. apply flags_joined_empty. repeat constructor; discriminate.
  - intros E. apply append_empty in E as [E _]. discriminate.
Qed.

Lemma ProblemsSection_empty row :
  ProblemsSection showNum row = "" <->
  Forall (fun k => is_one (get row k) || is_true (get row k) = false) (problemsMap.*1) /\
  truthy (get row "Other Problem Face") = false.
Proof.
  unfold ProblemsSection. cbv zeta. rewrite guarded_empty.
  - rewrite nonEmpty_false.
    rewrite <- (flags_joined_empty problemsMap row) by (repeat constructor; discriminate).
    destruct (nonEmpty (join LB (flagLines problemsMap row))) eqn:Ep.
    + assert (Hne : join LB (flagLines problemsMap row) <> "").
      { intros E. apply nonEmpty_false in E. congruence. }
      destruct (truthy (get row "Other Problem Face")); cbn [andb].
      * split; [|tauto]. intros E. apply append_empty in E as [E _]. contradiction.
      * split; [|tauto]. intros E. contradiction.
    + apply nonEmpty_false in Ep. rewrite Ep. cbn [andb].
      destruct (truthy (get row "Other Problem Face")).
      * split; [|intros [_ H]; discriminate].
        intros E. apply append_empty in E as [E _]. discriminate.
      * tauto.
  - intros E. apply append_empty in E as [E _]. discriminate.
Qed.

Lemma Section_GVP_Body_empty row (nearestLocation : string) :
  Section_GVP_Body showNum row nearestLocation = "" <->
  nearestLocation = "" /\
  truthy (get row "GVP Ward") = false /\
  truthy (get row "Comments On GVP") = false /\
  WasteTypeSection showNum row = "" /\
  truthy (get row "Waste Quantity Numeric") = false /\
  truthy (get row "In_what_setting_is_the_GVP_pre") = false /\
  truthy (get row "Kindly_specify_the_area") = false.
Proof.
  unfold Section_GVP_Body. rewrite !append_empty.
  rewrite !labelled_empty by discriminate. tauto.
Qed.

Lemma Section_Interaction_Body_empty row :
  Section_Interaction_Body showNum row = "" <->
  truthy (get row "Civic Authority Conduct Any Session") = false /\
  truthy (get row "Have Interviewees Complained to Authority") = false /\
  truthy (get row "If Yes How Was Your Experience ") = false /\
  truthy (get row "Notice Frequency") = false /\
  truthy (get row "Solution Suggested by Interviewee") = false /\
  truthy (get row "Where Interviewee Dispose Their Waste") = false /\
  truthy (get row "Who Dispose") = false /\
  GenderBlock showNum row = "" /\
  WasteReasonsSection row = "" /\
  truthy (get row "Does Waste Clear Off") = false /\
  truthy (get row "When Waste Cleared Off") = false /\
  ProblemsSection showNum row = "".
Proof.
  unfold Section_Interaction_Body. rewrite !append_empty.
  rewrite !labelled_empty by discriminate. tauto.
Qed.

Lemma join_sections_empty (sep a b : string) :
  join sep (List.filter nonEmpty [a; b]) = "" <-> a = "" /\ b = "".
Proof.
  destruct a as [|c a], b as [|c' b]; cbn [List.filter nonEmpty String.eqb negb join];
    split; try tauto; try discriminate; intros [H1 H2]; discriminate.
Qed.

(** X22. The tooltip of a row is empty exactly when the row has nothing to
    show: every column that is printed holds a falsy value, and no flag
    column holds 1 or [true]. *)
Theorem tooltip_empty_iff_nothing_to_show row :
  getGarbagePointInfo showNum row = Ok "" <->
  Forall (fun k => truthy (get row k) = false) tooltipFields /\
  Forall (fun k => is_one (get row k) || is_true (get row k) = false) tooltipFlags.
Proof.
  unfold tooltipFields, tooltipFlags. rewrite !Forall_app, !Forall_cons, Forall_nil.
  unfold getGarbagePointInfo.
  destruct (NearestLocation_cases row)
    as [[Hf ->] | [(Ht & _ & text & -> & Htext) | [Hbad ->]]]; cbn [bind]; cbv zeta.
  - split.
    + intros H. apply Ok_inj, join_sections_empty in H as [H1 H2].
      apply guarded_by_itself in H1; [|discriminate].
      apply guarded_by_itself in H2; [|discriminate].
      apply Section_GVP_Body_empty in H1. apply Section_Interaction_Body_empty in H2.
      rewrite WasteTypeSection_empty in H1.
      rewrite GenderBlock_empty, WasteReasonsSection_empty, ProblemsSection_empty in H2.
      tauto.
    + intros H. f_equal. apply join_sections_empty. split.
      * apply guarded_by_itself; [discriminate|]. apply Section_GVP_Body_empty.
        rewrite WasteTypeSection_empty. tauto.
      * apply guarded_by_itself; [discriminate|]. apply Section_Interaction_Body_empty.
        rewrite GenderBlock_empty, WasteReasonsSection_empty, ProblemsSection_empty.
        tauto.
  - split.
    + intros H. apply Ok_inj, join_sections_empty in H as [H1 _].
      apply guarded_by_itself in H1; [|discriminate].
      apply Section_GVP_Body_empty in H1. tauto.
    + intros H. assert (truthy (get row "Nearest Location") = false) by tauto. congruence.
  - split; [discriminate|].
    intros H. assert (Hf : truthy (get row "Nearest Location") = false) by tauto.
    rewrite (falsy_textOrFalsy _ Hf) in Hbad. discriminate.
Qed.

Lemma flagLines_ones (table : list (string * string)) row :
  (forall tc, tc ∈ table -> is_true (get row tc.2) = false) ->
  flagLines (map (fun tc => (tc.2, "• " +:+ tc.2)) table) row
  = map (fun tc => "• " +:+ tc.2)
        (List.filter (fun tc => is_one (get row tc.2)) table).
Proof.
  unfold flagLines. induction table as [|[type column] table IH]; intros H; [reflexivity|].
  cbn [map List.filter fst snd].
  assert (Hc : is_true (get row column) = false)
    by (apply (H (type, column)); apply elem_of_cons; now left).
  rewrite Hc, orb_false_r. destruct (is_one (get row column)).
  - rewrite fmap_cons. cbn [map snd]. f_equal. apply IH.
    intros tc Htc. apply H. apply elem_of_cons. now right.
  - apply IH. intros tc Htc. apply H. apply elem_of_cons. now right.
Qed.

Lemma flagLines_at_least (table : list (string * string)) row :
  (length (List.filter (fun tc => is_one (get row tc.2)) table)
   <= length (flagLines (map (fun tc => (tc.2, "• " +:+ tc.2)) table) row))%nat.
Proof.
  unfold flagLines. induction table as [|[type column] table IH]; [reflexivity|].
  cbn [map List.filter fst snd].
  destruct (is_one (get row column)); cbn [orb].
  - rewrite fmap_cons. cbn [length]. lia.
  - destruct (is_true (get row column)); [rewrite fmap_cons; cbn [length]; lia | exact IH].
Qed.

(** X23. The waste types the tooltip lists for a row include those of the
    pie chart of that row: the two lists are the same when no waste-type
    column holds [true], and the tooltip has the longer list otherwise,
    because it also takes [true] for a set flag. *)
Theorem tooltip_lists_the_waste_types_of_the_pie row :
  (length (calculatePieForRow row) <= length (flagLines wasteTypesMap row))%nat /\
  ((forall tc, tc ∈ wasteTypeToColumnMap -> is_true (get row tc.2) = false) ->
   flagLines wasteTypesMap row
   = map (fun tc => "• " +:+ tc.2)
         (List.filter (fun tc => is_one (get row tc.2)) wasteTypeToColumnMap) /\
   length (calculatePieForRow row) = length (flagLines wasteTypesMap row)).
Proof.
  assert (E : wasteTypesMap = map (fun tc => (tc.2, "• " +:+ tc.2)) wasteTypeToColumnMap)
    by reflexivity.
  assert (L : length (calculatePieForRow row)
              = length (List.filter (fun tc => is_one (get row tc.2)) wasteTypeToColumnMap)).
  { unfold calculatePieForRow. now rewrite length_map. }
  split.
  - rewrite L, E. apply flagLines_at_least.
  - intros H. rewrite L, E, (flagLines_ones _ _ H). split; [reflexivity|].
    now rewrite length_map.
Qed.

End Tooltip.

Lemma tooltip_lists_the_waste_types_of_the_pie_witness :
  flagLines wasteTypesMap twoOneFlagsRow = ["• Clothes Waste"; "• Others"].
Proof.
  apply (proj2 (tooltip_lists_the_waste_types_of_the_pie twoOneFlagsRow)).
  intros tc Htc. repeat (apply elem_of_cons in Htc as [-> | Htc]; [reflexivity|]).
  inversion Htc.
Defined.

Lemma tooltip_throws_on_non_text_location_witness :
  getGarbagePointInfo (fun _ => "") {[ "Nearest Location" := JNum 5 ]} = Throw TypeError.
Proof.
  apply (proj2 (tooltip_throws_on_non_text_location (fun _ => "")
                  {[ "Nearest Location" := JNum 5 ]})).
  reflexivity.
Defined.

Lemma tooltip_empty_iff_nothing_to_show_witness :
  getGarbagePointInfo (fun _ => "") {[ "Others" := JNum 0 ]} = Ok "".
Proof.
  apply (proj2 (tooltip_empty_iff_nothing_to_show (fun _ => "") {[ "Others" := JNum 0 ]})).
  split; repeat constructor.
Defined.

(** ** The charts of one row *)

Section OneRow.

Implicit Types (row : gmap string JsVal) (table : list (gmap string JsVal)).

Lemma countRows_one (test : JsVal -> bool) (column : string) row :
  countRows test column [row] = if test (get row column) then 1%nat else 0%nat.
Proof. unfold countRows. cbn [List.filter]. now destruct (test (get row column)). Qed.

Lemma pie_of_one_row row : calculatePieForRow row = calculateWasteTypeCounts [row].
Proof.
  rewrite calculateWasteTypeCounts_closed. unfold calculatePieForRow.
  generalize wasteTypeToColumnMap as pairs.
  induction pairs as [|[type column] pairs IH]; [reflexivity|].
  cbn [List.filter map fst snd]. rewrite countRows_one.
  destruct (is_one (get row column)) eqn:E; cbn [Nat.ltb Nat.leb map fst snd].
  - rewrite countRows_one, E. f_equal. exact IH.
  - exact IH.
Qed.

(** X24. The pie chart of a selected row is the waste-type chart of the
    record set that holds that row alone: whatever is selected, the pie
    chart is the waste-type chart of the rows behind the cards. *)
Theorem pie_is_the_waste_type_chart_of_the_cards
    (selectedRowIndex : option nat) table row :
  calculatePieForRow row = calculateWasteTypeCounts [row] /\
  pieData selectedRowIndex table
  = calculateWasteTypeCounts (filteredDataForCards selectedRowIndex table).
Proof.
  split; [apply pie_of_one_row|].
  unfold pieData, filteredDataForCards.
  destruct (selectedRow selectedRowIndex table) as [r|]; [apply pie_of_one_row | reflexivity].
Qed.

Lemma hundred : (percent 1 1 == 100)%Q.
Proof. reflexivity. Qed.

(** X25. For a record set of one row the charts of the disposers and of
    the settings have one entry, the category of that row, with the value
    100. *)
Theorem one_row_has_one_share_of_100 row (c : string) :
  (categorize (disposeValue row) = Ok c ->
   exists e, calculateWhoDisposeData [row] = Ok [e] /\ name e = c /\ (value e == 100)%Q) /\
  (categorizeLocation (settingValue row) = Ok c ->
   exists e, calculateSettingData [row] = Ok [e] /\ name e = c /\ (value e == 100)%Q).
Proof.
  split; intros H.
  - exists (mkEntry c (percent 1 1)). split; [|split; [reflexivity | apply hundred]].
    unfold calculateWhoDisposeData, disposeCount. cbn [forEach].
    unfold disposeValue in H. rewrite H. reflexivity.
  - exists (mkEntry c (percent 1 1)). split; [|split; [reflexivity | apply hundred]].
    unfold calculateSettingData, settingCount. cbn [forEach].
    unfold settingValue in H. rewrite H. reflexivity.
Qed.

End OneRow.

Lemma one_row_has_one_share_of_100_witness :
  exists e, calculateSettingData [marketRow] = Ok [e] /\
            name e = "Market / Commercial Area" /\ (value e == 100)%Q.
Proof.
  apply (proj2 (one_row_has_one_share_of_100 marketRow "Market / Commercial Area")).
  vm_compute. reflexivity.
Defined.

(** ** Flag charts against the flag lists of the tooltip *)

Section ChartsAndTooltip.

Implicit Types (data : list (gmap string JsVal)) (row : gmap string JsVal)
  (columns : list string).

Lemma set_columns_sum (test : JsVal -> bool) row columns :
  sum_list (map (fun c => if test (get row c) then 1%nat else 0%nat) columns)
  = length (List.filter (fun c => test (get row c)) columns).
Proof.
  induction columns as [|c columns IH]; [reflexivity|].
  cbn [map List.filter]. rewrite sum_list_cons, IH.
  destruct (test (get row c)); cbn [length]; lia.
Qed.

Lemma countRows_by_row (test : JsVal -> bool) columns data :
  sum_list (map (fun c => countRows test c data) columns)
  = sum_list (map (fun row => length (List.filter (fun c => test (get row c)) columns))
                  data).
Proof.
  induction data as [|row data IH].
  - cbn [map]. induction columns as [|c columns IHc]; [reflexivity|].
    cbn [map]. rewrite sum_list_cons, IHc. reflexivity.
  - cbn [map]. rewrite sum_list_cons, <- IH, <- set_columns_sum. clear IH.
    induction columns as [|c columns IHc]; [reflexivity|].
    cbn [map]. rewrite !sum_list_cons, IHc.
    unfold countRows at 1. cbn [List.filter].
    destruct (test (get row c)); cbn [length]; unfold countRows; lia.
Qed.

Lemma totalCount_map {A : Type} (key : A -> string) (count : A -> nat) (l : list A) :
  totalCount (map (fun x => (key x, count x)) l) = sum_list (map count l).
Proof.
  rewrite totalCount_sum. induction l as [|x l IH]; [reflexivity|].
  cbn [map]. rewrite fmap_cons, !sum_list_cons. cbn [snd]. now rewrite IH.
Qed.

Lemma flagLines_length (labels : list (string * string)) row :
  length (flagLines labels row)
  = length (List.filter (fun c => is_one (get row c) || is_true (get row c)) (labels.*1)).
Proof.
  unfold flagLines. induction labels as [|[k l] labels IH]; [reflexivity|].
  rewrite fmap_cons. cbn [List.filter fst].
  destruct (is_one (get row k) || is_true (get row k)).
  - rewrite fmap_cons. cbn [length]. now rewrite IH.
  - exact IH.
Qed.

Lemma filter_length_mono (test test' : JsVal -> bool) row columns :
  (forall v, test v = true -> test' v = true) ->
  (length (List.filter (fun c => test (get row c)) columns)
   <= length (List.filter (fun c => test' (get row c)) columns))%nat.
Proof.
  intros H. induction columns as [|c columns IH]; [reflexivity|].
  cbn [List.filter]. destruct (test (get row c)) eqn:E.
  - rewrite (H _ E). cbn [length]. lia.
  - destruct (test' (get row c)); cbn [length]; lia.
Qed.

Lemma rows_mono (f g : gmap string JsVal -> nat) data :
  (forall row, (f row <= g row)%nat) ->
  (sum_list (map f data) <= sum_list (map g data))%nat.
Proof.
  intros H. induction data as [|row data IH]; [reflexivity|].
  cbn [map]. rewrite !sum_list_cons. specialize (H row). lia.
Qed.

(** X26. The reasons chart counts exactly the reason lines of the
    tooltips of the rows. The problems chart and the waste-type chart test
    [=== 1] where the tooltip also takes [true]: they count at most the
    lines of the tooltips. *)
Theorem flag_charts_count_tooltip_lines data :
  totalCount (reasonsCount data)
  = sum_list (map (fun row => length (flagLines wasteReasonsMap row)) data) /\
  (totalCount (problemsCount data)
   <= sum_list (map (fun row => length (flagLines problemsMap row)) data))%nat /\
  (totalCount (wasteTypeCount data)
   <= sum_list (map (fun row => length (flagLines wasteTypesMap row)) data))%nat.
Proof.
  split; [|split].
  - rewrite reasonsCount_closed.
    rewrite (totalCount_map fst (fun kn => countRows (fun v => is_one v || is_true v)
                                                     kn.1 data)).
    change (map (fun kn : string * nat =>
                   countRows (fun v => is_one v || is_true v) kn.1 data) reasonsCount0)
      with (map (fun c => countRows (fun v => is_one v || is_true v) c data)
                (wasteReasonsMap.*1)).
    rewrite countRows_by_row. f_equal. apply map_ext. intros row.
    now rewrite flagLines_length.
  - rewrite problemsCount_closed.
    rewrite (totalCount_map fst (fun kn => countRows is_one kn.1 data)).
    change (map (fun kn : string * nat => countRows is_one kn.1 data) problemsCount0)
      with (map (fun c => countRows is_one c data) (problemsMap.*1)).
    rewrite countRows_by_row. apply rows_mono. intros row.
    rewrite flagLines_length.
    apply (filter_length_mono is_one (fun v => is_one v || is_true v)).
    intros v Hv. now rewrite Hv.
  - rewrite wasteTypeCount_closed.
    rewrite (totalCount_map fst (fun tc => countRows is_one tc.2 data)).
    change (map (fun tc : string * string => countRows is_one tc.2 data)
                wasteTypeToColumnMap)
      with (map (fun c => countRows is_one c data) (wasteTypesMap.*1)).
    rewrite countRows_by_row. apply rows_mono. intros row.
    rewrite flagLines_length.
    apply (filter_length_mono is_one (fun v => is_one v || is_true v)).
    intros v Hv. now rewrite Hv.
Qed.

End ChartsAndTooltip.
